(** * WhatsApp message routing and delivery: a shallow embedding

    The development follows the TypeScript sources of the WhatsApp integration:
    - [src/lib/whatsapp.tsx]: configuration resolution, message sanitizer,
      phone number normalizer, single and batch send;
    - [src/api/whatsapp-webhook.ts] and [src/lib/education.ts]: status updates
      and the education responder;
    - [supabase/functions/webhook-handler], [api-chatbot] and the chatbot
      endpoint with the status-update branch.

    JavaScript strings are sequences of UTF-16 code units, so a string is a
    list of code units ([N]) and [length] is the JavaScript [.length]. *)

From Stdlib Require Import String Ascii DecimalString List NArith Arith Lia Bool.
Import ListNotations.

Set Implicit Arguments.

(* ===================================================================== *)
(** ** JavaScript strings *)
(* ===================================================================== *)

Module Js.

Definition codeunit := N.
Definition jsstring := list codeunit.

(** Source literals are written in UTF-8; [js] decodes them to the code
    units of the JavaScript string (one to three bytes, which covers every
    literal of the sources). *)
Fixpoint utf16_of_utf8 (bs : list N) : jsstring :=
  match bs with
  | [] => []
  | b0 :: r0 =>
      if (b0 <? 128)%N then b0 :: utf16_of_utf8 r0
      else if (b0 <? 224)%N then
        match r0 with
        | b1 :: r1 => ((b0 - 192) * 64 + (b1 - 128))%N :: utf16_of_utf8 r1
        | [] => []
        end
      else
        match r0 with
        | b1 :: b2 :: r2 =>
            ((b0 - 224) * 4096 + (b1 - 128) * 64 + (b2 - 128))%N
              :: utf16_of_utf8 r2
        | _ => []
        end
  end.

Definition js (s : string) : jsstring :=
  utf16_of_utf8 (map N_of_ascii (list_ascii_of_string s)).

Definition eqb (a b : jsstring) : bool :=
  if list_eq_dec N.eq_dec a b then true else false.

(** [s.startsWith(p)] *)
Fixpoint startsWith (p s : jsstring) : bool :=
  match p, s with
  | [], _ => true
  | _ :: _, [] => false
  | a :: p', b :: s' => (a =? b)%N && startsWith p' s'
  end.

(** [s.includes(k)] *)
Fixpoint includes (s k : jsstring) : bool :=
  startsWith k s ||
  match s with
  | [] => false
  | _ :: t => includes t k
  end.

(** [s.substring(0, n)] and [s.substring(n)] *)
Definition substring_to (n : nat) (s : jsstring) : jsstring := firstn n s.
Definition substring_from (n : nat) (s : jsstring) : jsstring := skipn n s.

(** A value used as a condition: the empty string is falsy. *)
Definition truthy (s : jsstring) : bool :=
  match s with [] => false | _ :: _ => true end.

(** An optional property ([undefined], [null] or a string) as a condition. *)
Definition truthy_opt (o : option jsstring) : bool :=
  match o with Some s => truthy s | None => false end.

(** [a || b] on optional strings. *)
Definition or_else (o : option jsstring) (d : jsstring) : jsstring :=
  match o with
  | Some s => if truthy s then s else d
  | None => d
  end.

(** Character classes of the regular expressions of the sources. *)
Definition is_digit (c : codeunit) : bool := ((48 <=? c) && (c <=? 57))%N.
Definition is_upper (c : codeunit) : bool := ((65 <=? c) && (c <=? 90))%N.
Definition is_lower (c : codeunit) : bool := ((97 <=? c) && (c <=? 122))%N.

(** [\s]: white space and line terminators of ECMAScript. *)
Definition is_space (c : codeunit) : bool :=
  ((9 <=? c) && (c <=? 13) || (c =? 32) || (c =? 160) || (c =? 5760)
   || (8192 <=? c) && (c <=? 8202) || (c =? 8232) || (c =? 8233)
   || (c =? 8239) || (c =? 8287) || (c =? 12288) || (c =? 65279))%N.

(** Line terminators: the characters [.] does not match. *)
Definition is_line_terminator (c : codeunit) : bool :=
  ((c =? 10) || (c =? 13) || (c =? 8232) || (c =? 8233))%N.

(** [s.trim()] *)
Fixpoint trimStart (s : jsstring) : jsstring :=
  match s with
  | [] => []
  | c :: t => if is_space c then trimStart t else s
  end.

Definition trimEnd (s : jsstring) : jsstring := rev (trimStart (rev s)).
Definition trim (s : jsstring) : jsstring := trimEnd (trimStart s).

(** Number of leading code units of [s] that satisfy [p]. *)
Fixpoint run_length (p : codeunit -> bool) (s : jsstring) : nat :=
  match s with
  | [] => 0
  | c :: t => if p c then S (run_length p t) else 0
  end.

(** Index of the first code unit of [s] that satisfies [p]. *)
Fixpoint index_of (p : codeunit -> bool) (s : jsstring) : option nat :=
  match s with
  | [] => None
  | c :: t => if p c then Some 0 else option_map S (index_of p t)
  end.

(** [s.replace(re, rep)] for a global regular expression [re] whose
    matches are never empty and a replacement [rep] without [$] patterns.
    [m u] is the length of the match of [re] anchored at the start of the
    remaining input [u], if there is one; the scan goes left to right,
    resumes after each match, and [skip] counts the code units of the
    current match still to be dropped. *)
Fixpoint replace_from (m : jsstring -> option nat) (rep : jsstring)
         (skip : nat) (s : jsstring) : jsstring :=
  match s with
  | [] => []
  | c :: t =>
      match skip with
      | S k => replace_from m rep k t
      | O =>
          match m s with
          | Some (S n) => rep ++ replace_from m rep n t
          | _ => c :: replace_from m rep 0 t
          end
      end
  end.

Definition replace_global (m : jsstring -> option nat) (rep s : jsstring)
  : jsstring := replace_from m rep 0 s.

(** Matchers of the regular expressions that occur in the sources. *)

(** A single character class [[...]]. *)
Definition match_class (p : codeunit -> bool) (u : jsstring) : option nat :=
  match u with
  | c :: _ => if p c then Some 1 else None
  | [] => None
  end.

(** A literal pattern (no metacharacter). *)
Definition match_literal (pat u : jsstring) : option nat :=
  if startsWith pat u then Some (length pat) else None.

(** [<[^>]*>]: an opening bracket up to the first closing one. *)
Definition match_tag (u : jsstring) : option nat :=
  match u with
  | c :: t =>
      if (c =? 60)%N
      then option_map (fun i => i + 2) (index_of (fun x => (x =? 62)%N) t)
      else None
  | [] => None
  end.

(** [&[a-zA-Z0-9#]+;] *)
Definition is_entity_char (c : codeunit) : bool :=
  is_lower c || is_upper c || is_digit c || (c =? 35)%N.

Definition match_entity (u : jsstring) : option nat :=
  match u with
  | c :: t =>
      if (c =? 38)%N then
        let n := run_length is_entity_char t in
        match n, nth_error t n with
        | S _, Some semi => if (semi =? 59)%N then Some (n + 2) else None
        | _, _ => None
        end
      else None
  | [] => None
  end.

(** [\s+] *)
Definition match_spaces (u : jsstring) : option nat :=
  match run_length is_space u with
  | O => None
  | n => Some n
  end.

(** Decimal rendering of a number in a template literal. *)
Definition of_number (n : N) : jsstring :=
  js (DecimalString.NilEmpty.string_of_uint (N.to_uint n)).

End Js.

Import Js.

(* ===================================================================== *)
(** ** Thrown errors *)
(* ===================================================================== *)

(** A JavaScript computation either returns a value or throws an [Error]
    carrying its [message]. *)
Inductive exc (A : Type) : Type :=
| Ok (a : A)
| Throw (message : jsstring).

Arguments Ok {A} a.
Arguments Throw {A} message.

Definition is_ok {A} (r : exc A) : bool :=
  match r with Ok _ => true | Throw _ => false end.

(* ===================================================================== *)
(** ** Message sanitizer ([sanitizeWhatsAppMessage]) *)
(* ===================================================================== *)

Module Sanitizer.

Definition htmlEntities : list (jsstring * jsstring) :=
  [ (js "&amp;", js "&"); (js "&lt;", js "<"); (js "&gt;", js ">");
    (js "&quot;", [34%N]); (js "&#39;", js "'"); (js "&nbsp;", js " ");
    (js "&copy;", js "©"); (js "&reg;", js "®"); (js "&trade;", js "™") ].

(** Step 1: remove all HTML tags (including malformed ones). *)
Definition remove_tags (m : jsstring) : jsstring :=
  replace_global match_tag [] m.

(** Step 2: remove any remaining angle brackets. *)
Definition is_angle (c : codeunit) : bool := ((c =? 60) || (c =? 62))%N.

Definition remove_angles (m : jsstring) : jsstring :=
  replace_global (match_class is_angle) [] m.

(** Step 3: decode the common HTML entities, one table entry after the
    other, each over the whole string. *)
Definition decode_entities (m : jsstring) : jsstring :=
  fold_left
    (fun acc (e : jsstring * jsstring) =>
       replace_global (match_literal (fst e)) (snd e) acc)
    htmlEntities m.

(** Step 4: remove any remaining HTML entities. *)
Definition remove_entities (m : jsstring) : jsstring :=
  replace_global match_entity [] m.

(** Step 5: normalize whitespace. *)
Definition normalize_whitespace (m : jsstring) : jsstring :=
  trim (replace_global match_spaces (js " ") m).

(** Steps 1 to 5: the cleaned form of a message. *)
Definition clean (message : jsstring) : jsstring :=
  normalize_whitespace
    (remove_entities (decode_entities (remove_angles (remove_tags message)))).

Definition ellipsis : jsstring := js "...".

Definition empty_after_sanitization : jsstring :=
  js "Message is empty after sanitization".

Definition sanitizeWhatsAppMessage (message : jsstring) : exc jsstring :=
  if negb (truthy message) then Ok []
  else
    let cleanMessage := clean message in
    (* Step 6: ensure message is not empty *)
    if length cleanMessage =? 0 then Throw empty_after_sanitization
    (* Step 7: limit message length for WhatsApp *)
    else if 4096 <? length cleanMessage
         then Ok (substring_to 4093 cleanMessage ++ ellipsis)
         else Ok cleanMessage.

End Sanitizer.

(* ===================================================================== *)
(** ** Phone number normalizer ([normalizePhoneNumber]) *)
(* ===================================================================== *)

Module Phone.

(** [countryCodeMap], in the order [Object.entries] enumerates it: the
    keys are integer-like, so they come in ascending numeric order. *)
Definition countryCodeMap : list (jsstring * jsstring) :=
  [(js "221", js "+221"); (js "223", js "+223"); (js "224", js "+224");
   (js "225", js "+225"); (js "226", js "+226"); (js "227", js "+227");
   (js "228", js "+228"); (js "229", js "+229"); (js "230", js "+230");
   (js "231", js "+231"); (js "232", js "+232"); (js "233", js "+233");
   (js "234", js "+234"); (js "235", js "+235"); (js "236", js "+236");
   (js "237", js "+237"); (js "238", js "+238"); (js "239", js "+239");
   (js "240", js "+240"); (js "241", js "+241"); (js "242", js "+242");
   (js "243", js "+243"); (js "244", js "+244"); (js "245", js "+245");
   (js "246", js "+246"); (js "247", js "+247"); (js "248", js "+248");
   (js "249", js "+249"); (js "250", js "+250"); (js "251", js "+251");
   (js "252", js "+252"); (js "253", js "+253"); (js "254", js "+254");
   (js "255", js "+255"); (js "256", js "+256"); (js "257", js "+257");
   (js "258", js "+258"); (js "260", js "+260"); (js "261", js "+261");
   (js "262", js "+262"); (js "263", js "+263"); (js "264", js "+264");
   (js "265", js "+265"); (js "266", js "+266"); (js "267", js "+267");
   (js "268", js "+268"); (js "269", js "+269"); (js "290", js "+290");
   (js "291", js "+291"); (js "297", js "+297"); (js "298", js "+298");
   (js "299", js "+299")].

(** [[^\d+]]: everything but digits and the plus sign. *)
Definition not_digit_or_plus (c : codeunit) : bool :=
  negb (is_digit c || (c =? 43)%N).

Definition normalizePhoneNumber (phoneNumber : jsstring) : jsstring :=
  if negb (truthy phoneNumber) then []
  else
    let cleaned := replace_global (match_class not_digit_or_plus) [] phoneNumber in
    if startsWith (js "+") cleaned then cleaned
    else
      match find (fun e => startsWith (fst e) cleaned) countryCodeMap with
      | Some (code, prefix) => prefix ++ substring_from (length code) cleaned
      | None =>
          if startsWith (js "0") cleaned
          then js "+242" ++ substring_from 1 cleaned
          else js "+242" ++ cleaned
      end.

(** [/^\+[1-9]\d{1,14}$/.test(s)] *)
Definition phoneRegex_test (s : jsstring) : bool :=
  match s with
  | plus :: d :: rest =>
      (plus =? 43)%N && ((49 <=? d) && (d <=? 57))%N
      && forallb is_digit rest
      && (1 <=? length rest) && (length rest <=? 14)
  | _ => false
  end.

End Phone.

(* ===================================================================== *)
(** ** Intent classifier ([determineChatbotType], webhook-handler) *)
(* ===================================================================== *)

Module Classifier.

Inductive ChatbotType := client | education | quiz.

(** The string the source returns for each label. *)
Definition label (t : ChatbotType) : jsstring :=
  match t with
  | client => js "client"
  | education => js "education"
  | quiz => js "quiz"
  end.

Definition educationKeywords : list jsstring :=
  [ js "learn"; js "study"; js "course"; js "education"; js "school";
    js "homework"; js "assignment"; js "question"; js "apprendre";
    js "étudier"; js "cours"; js "éducation"; js "école"; js "devoir";
    js "exercice" ].

Definition quizKeywords : list jsstring :=
  [ js "quiz"; js "game"; js "test"; js "play"; js "challenge";
    js "question"; js "answer"; js "jeu"; js "défi"; js "réponse";
    js "questionnaire" ].

Section WithLowerCase.

(** [String.prototype.toLowerCase] of the JavaScript runtime. *)
Variable toLowerCase : jsstring -> jsstring.

Definition determineChatbotType (message : jsstring) : ChatbotType :=
  let lowerMessage := toLowerCase message in
  (* Check for education keywords *)
  if existsb (fun keyword => includes lowerMessage keyword) educationKeywords
  then education
  (* Check for quiz keywords *)
  else if existsb (fun keyword => includes lowerMessage keyword) quizKeywords
  then quiz
  (* Default to client support *)
  else client.

End WithLowerCase.

(** On strings of ASCII code units, lower-casing maps [A-Z] to [a-z] and
    leaves every other code unit as it is. *)
Definition is_ascii (c : codeunit) : bool := (c <? 128)%N.
Definition ascii_lower (c : codeunit) : codeunit :=
  if is_upper c then (c + 32)%N else c.

Definition lowers_ascii (toLowerCase : jsstring -> jsstring) : Prop :=
  forall s, forallb is_ascii s = true -> toLowerCase s = map ascii_lower s.

End Classifier.

(* ===================================================================== *)
(** ** Effects: a store threaded through computations that may throw *)
(* ===================================================================== *)

(** [M S A]: a computation over a store [S] that returns an [A] or throws;
    writes made before a throw stay in the store. *)
Definition M (S A : Type) : Type := S -> exc A * S.

Definition ret {S A} (a : A) : M S A := fun st => (Ok a, st).

Definition throw {S A} (message : jsstring) : M S A :=
  fun st => (Throw message, st).

Definition bind {S A B} (c : M S A) (k : A -> M S B) : M S B :=
  fun st =>
    match c st with
    | (Ok a, st') => k a st'
    | (Throw e, st') => (Throw e, st')
    end.

(** [try { body } catch (error) { handler }] *)
Definition try_catch {S A} (body : M S A) (handler : jsstring -> M S A)
  : M S A :=
  fun st =>
    match body st with
    | (Ok a, st') => (Ok a, st')
    | (Throw e, st') => handler e st'
    end.

(** A call that does not touch the store. *)
Definition lift {S A} (r : exc A) : M S A := fun st => (r, st).

Declare Scope monad_scope.
Delimit Scope monad_scope with monad.
Notation "x <- c ;; k" := (bind c (fun x => k))
  (at level 61, c at next level, right associativity) : monad_scope.
Notation "c ;;; k" := (bind c (fun _ => k))
  (at level 61, right associativity) : monad_scope.

(** [for]/[map] over a list, left to right, in the exception monad. *)
Fixpoint exc_map {A B} (f : A -> exc B) (l : list A) : exc (list B) :=
  match l with
  | [] => Ok []
  | a :: t =>
      match f a with
      | Throw e => Throw e
      | Ok b =>
          match exc_map f t with
          | Throw e => Throw e
          | Ok bs => Ok (b :: bs)
          end
      end
  end.

(* ===================================================================== *)
(** ** Provider configuration ([getWhatsAppConfig]) *)
(* ===================================================================== *)

Module Config.

(** A row of [user_whatsapp_config]. *)
Record ConfigRow := {
  user_id : jsstring;
  is_active : bool;
  access_token : option jsstring;
  phone_number_id : option jsstring;
  whatsapp_business_account_id : option jsstring;
  updated_at : N
}.

Inductive Source := user_config | fallback_user_config.

Record WhatsAppConfig := {
  accessToken : jsstring;
  phoneNumberId : jsstring;
  whatsappBusinessAccountId : option jsstring;
  source : Source
}.

(** [.maybeSingle()]: no row gives [null], one row gives the row, several
    rows give an error. *)
Definition maybeSingle {A} (rows : list A) : option A * bool :=
  match rows with
  | [] => (None, false)
  | [r] => (Some r, false)
  | _ => (None, true)
  end.

(** [.order('updated_at', { ascending: false }).limit(1)]: the row with the
    greatest [updated_at] (the first such row of the table on a tie). *)
Fixpoint most_recent (rows : list ConfigRow) : option ConfigRow :=
  match rows with
  | [] => None
  | r :: t =>
      match most_recent t with
      | Some r' => if (updated_at r <? updated_at r')%N then Some r' else Some r
      | None => Some r
      end
  end.

Definition order_desc_limit1 (rows : list ConfigRow) : list ConfigRow :=
  match most_recent rows with Some r => [r] | None => [] end.

Definition has_credentials (r : ConfigRow) : bool :=
  truthy_opt (access_token r) && truthy_opt (phone_number_id r).

Definition config_of (r : ConfigRow) (src : Source) : WhatsAppConfig :=
  {| accessToken := or_else (access_token r) [];
     phoneNumberId := or_else (phone_number_id r) [];
     whatsappBusinessAccountId :=
       if truthy_opt (whatsapp_business_account_id r)
       then whatsapp_business_account_id r else None;
     source := src |}.

Definition no_active_configuration : jsstring :=
  js "No active WhatsApp configuration found. Please configure your WhatsApp API credentials in the settings.".

(** The user-specific query: rows of the user that are active. *)
Definition user_rows (uid : jsstring) (table : list ConfigRow) : list ConfigRow :=
  filter (fun r => Js.eqb (user_id r) uid && is_active r) table.

Definition active_rows (table : list ConfigRow) : list ConfigRow :=
  filter is_active table.

(** If userId is provided, try to get user-specific config. *)
Definition user_specific (userId : option jsstring) (table : list ConfigRow)
  : option WhatsAppConfig :=
  match userId with
  | Some uid =>
      if truthy uid then
        match maybeSingle (user_rows uid table) with
        | (Some userConfig, false) =>
            if has_credentials userConfig
            then Some (config_of userConfig user_config)
            else None
        | _ => None
        end
      else None
  | None => None
  end.

Definition getWhatsAppConfig (userId : option jsstring)
           (table : list ConfigRow) : exc WhatsAppConfig :=
  match user_specific userId table with
  | Some cfg => Ok cfg
  | None =>
      (* try to find any active user config *)
      match maybeSingle (order_desc_limit1 (active_rows table)) with
      | (Some anyUserConfig, false) =>
          if has_credentials anyUserConfig
          then Ok (config_of anyUserConfig fallback_user_config)
          else Throw no_active_configuration
      | _ => Throw no_active_configuration
      end
  end.

End Config.

(* ===================================================================== *)
(** ** Delivery records ([message_logs]) and status updates *)
(* ===================================================================== *)

Module Logs.

(** A row of [message_logs]. *)
Record MessageLog := {
  status : jsstring;
  phone_number : jsstring;
  message_preview : jsstring;
  message_id : option jsstring;
  error : option jsstring;
  created_at : N;
  updated_at : option N
}.

Definition matches_id (messageId : jsstring) (r : MessageLog) : bool :=
  match message_id r with
  | Some i => Js.eqb i messageId
  | None => false
  end.

(** [.update({ status, updated_at }).eq('message_id', messageId)]: a
    [status] that is [undefined] is left out of the patch. *)
Definition update_status (new_status : option jsstring) (now : N)
           (messageId : jsstring) (logs : list MessageLog) : list MessageLog :=
  map (fun r =>
         if matches_id messageId r
         then {| status := match new_status with Some s => s | None => status r end;
                 phone_number := phone_number r;
                 message_preview := message_preview r;
                 message_id := message_id r;
                 error := error r;
                 created_at := created_at r;
                 updated_at := Some now |}
         else r)
      logs.

End Logs.

Module Webhook.

Import Logs.

(** The parsed body of a status callback; any field may be missing. *)
Record StatusData := {
  type : option jsstring;
  messageId : option jsstring;
  new_status : option jsstring
}.

(** What the record store answers to the update: [None] when the update
    was applied, [Some message] for the [error] it reports instead. *)
Record StoreAnswer := {
  now : N;
  updateError : option jsstring
}.

Definition run_update (a : StoreAnswer) (st : option jsstring) (messageId : jsstring)
           (logs : list MessageLog) : option jsstring * list MessageLog :=
  match updateError a with
  | Some e => (Some e, logs)
  | None => (None, update_status st (now a) messageId logs)
  end.

Inductive StatusResult :=
| success_true (message : jsstring)
| success_false (error : jsstring).

Definition missing_fields : jsstring :=
  js "Missing required fields: messageId, status".

(** [processStatusUpdate] of [src/api/whatsapp-webhook.ts]. *)
Definition processStatusUpdate (a : StoreAnswer) (data : StatusData)
  : M (list MessageLog) StatusResult :=
  try_catch
    (if negb (truthy_opt (messageId data)) || negb (truthy_opt (new_status data))
     then throw missing_fields
     else
       fun logs =>
         let st := or_else (new_status data) [] in
         let (updateError, logs') :=
           run_update a (Some st) (or_else (messageId data) []) logs in
         match updateError with
         | Some e => (Ok (success_false e), logs')
         | None => (Ok (success_true (js "Status updated to " ++ st)), logs')
         end)
    (fun error => ret (success_false (or_else (Some error) (js "Unknown error")))).

(** The HTTP responses of the chatbot endpoint. *)
Inductive Body :=
| body_success (message : jsstring)
| body_error (error : jsstring).

Record Response := { code : N; body : Body }.

(** The status-update branch of the chatbot endpoint: taken when the body
    has [type === 'status_update']; [env] tells whether the two Supabase
    environment variables are set. A missing [messageId] is compared, and
    a missing [status] is rendered, as the string [undefined]. *)
Definition undefined : jsstring := js "undefined".

Definition is_status_update (data : StatusData) : bool :=
  match type data with
  | Some t => Js.eqb t (js "status_update")
  | None => false
  end.

Definition field (o : option jsstring) : jsstring :=
  match o with Some s => s | None => undefined end.

Definition handle_status_update (env : bool) (a : StoreAnswer)
           (data : StatusData) : M (list MessageLog) Response :=
  try_catch
    (if negb env then throw (js "Missing Supabase environment variables")
     else
       fun logs =>
         let (updateError, logs') :=
           run_update a (new_status data) (field (messageId data)) logs in
         match updateError with
         | Some e => (Throw (js "Failed to update message status: " ++ e), logs')
         | None =>
             (Ok {| code := 200;
                    body := body_success
                              (js "Status updated to " ++ field (new_status data)) |},
              logs')
         end)
    (fun error =>
       ret {| code := 500;
              body := body_error (or_else (Some error) (js "An error occurred")) |}).

End Webhook.

(* ===================================================================== *)
(** ** Delivery channel ([sendWhatsAppResponse], [sendWhatsAppMessages]) *)
(* ===================================================================== *)

Module Delivery.

Local Open Scope monad_scope.

Inductive MediaType := image | video | document.

(** [media.type.toUpperCase()] *)
Definition media_type_upper (t : MediaType) : jsstring :=
  match t with
  | image => js "IMAGE"
  | video => js "VIDEO"
  | document => js "DOCUMENT"
  end.

Record Media := { media_type : MediaType; url : option jsstring }.

(** The JSON body posted to the provider ([messaging_product] and
    [recipient_type] are constants). *)
Inductive PayloadType := text_type | media_of (t : MediaType).

Record MediaPart := { link : jsstring; caption : option jsstring }.

Record MessagePayload := {
  to : jsstring;
  ptype : PayloadType;
  text_body : option jsstring;
  media_part : option MediaPart
}.

(** What a [HEAD] probe and the provider answer. *)
Record HeadResponse := {
  head_ok : bool;
  head_status : N;
  head_statusText : jsstring
}.

Record ProviderResponse := {
  ok : bool;
  statusText : jsstring;
  error_message : option jsstring;     (* [errorData.error?.message] *)
  first_message_id : option jsstring   (* [data.messages?.[0]?.id] *)
}.

Record MessageVariable := { name : jsstring; value : jsstring }.

(** What the record store does with an insert: it writes the row, or it
    answers with an [error] (which no caller looks at) and writes nothing,
    or the call itself rejects. *)
Inductive InsertAnswer :=
| inserted
| refused (error : jsstring)
| rejected (message : jsstring).

(** The collaborators of a send: the clock, the URL parser, the [HEAD] probe
    of a media URL (with or without the validator's [User-Agent] header) and
    the provider's send endpoint (either call may reject), the record store
    and the regular-expression engine applied to a pattern built at run
    time. *)
Record World := {
  now : N;
  new_URL : jsstring -> exc unit;
  fetch_head : bool -> jsstring -> exc HeadResponse;
  fetch_messages : jsstring -> jsstring -> MessagePayload -> exc ProviderResponse;
  insert_answer : Logs.MessageLog -> InsertAnswer;
  regexp_replace_all : jsstring -> jsstring -> jsstring -> exc jsstring
}.

Record Store := {
  configs : list Config.ConfigRow;
  message_logs : list Logs.MessageLog
}.

Definition getConfig (userId : option jsstring) : M Store Config.WhatsAppConfig :=
  fun st => (Config.getWhatsAppConfig userId (configs st), st).

(** [await supabase.from('message_logs').insert(row)] *)
Definition insert_log (w : World) (row : Logs.MessageLog) : M Store unit :=
  fun st =>
    match insert_answer w row with
    | inserted =>
        (Ok tt, {| configs := configs st;
                   message_logs := message_logs st ++ [row] |})
    | refused _ => (Ok tt, st)
    | rejected e => (Throw e, st)
    end.

Definition payload_type (media : option Media) : PayloadType :=
  match media with
  | Some md => media_of (media_type md)
  | None => text_type
  end.

Definition caption_of (message : jsstring) : option jsstring :=
  if truthy message && truthy (trim message) then Some message else None.

Definition sent_log (w : World) (phone preview : jsstring)
           (messageId : option jsstring) : Logs.MessageLog :=
  {| Logs.status := js "sent";
     Logs.phone_number := phone;
     Logs.message_preview := preview;
     Logs.message_id := messageId;
     Logs.error := None;
     Logs.created_at := now w;
     Logs.updated_at := None |}.

Definition error_log (w : World) (phone preview message : jsstring)
  : Logs.MessageLog :=
  {| Logs.status := js "error";
     Logs.phone_number := phone;
     Logs.message_preview := preview;
     Logs.message_id := None;
     Logs.error := Some message;
     Logs.created_at := now w;
     Logs.updated_at := None |}.

(** *** [sendWhatsAppResponse] *)

Definition sendWhatsAppResponse (w : World) (to_ message : jsstring)
           (media : option Media) (userId : option jsstring)
  : M Store ProviderResponse :=
  try_catch
    (sanitizedMessage <- lift (Sanitizer.sanitizeWhatsAppMessage message) ;;
     cfg <- getConfig userId ;;
     messagePayload <-
       match media with
       | Some md =>
           if truthy_opt (url md) then
             let u := or_else (url md) [] in
             (* Validate media URL *)
             try_catch
               (lift (new_URL w u) ;;;
                urlTest <- lift (fetch_head w false u) ;;
                if negb (head_ok urlTest)
                then throw (js "Media URL not accessible: "
                              ++ of_number (head_status urlTest))
                else ret {| to := to_;
                            ptype := payload_type media;
                            text_body := None;
                            media_part :=
                              Some {| link := u;
                                      caption := caption_of sanitizedMessage |} |})
               (fun urlError => throw (js "Invalid media URL: " ++ urlError))
           else ret {| to := to_; ptype := payload_type media;
                       text_body := Some sanitizedMessage; media_part := None |}
       | None => ret {| to := to_; ptype := payload_type media;
                        text_body := Some sanitizedMessage; media_part := None |}
       end ;;
     response <- lift (fetch_messages w (Config.phoneNumberId cfg)
                                      (Config.accessToken cfg) messagePayload) ;;
     if negb (ok response)
     then throw (js "Failed to send WhatsApp response: "
                   ++ or_else (error_message response) (statusText response))
     else
       (* Log the message *)
       insert_log w
         (sent_log w to_
            match media with
            | Some md => js "[" ++ media_type_upper (media_type md) ++ js "] "
                            ++ substring_to 80 sanitizedMessage
            | None => substring_to 100 sanitizedMessage
            end
            (first_message_id response)) ;;;
       ret response)
    (fun error => throw error).

(** *** [sendWhatsAppMessages] *)

Record OutMessage := {
  phoneNumber : jsstring;
  message : jsstring;
  variables : option (list MessageVariable);
  media : option Media
}.

Module Status.
Inductive t := success | error.
End Status.

Record MessageResult := {
  status : Status.t;
  result_phoneNumber : jsstring;
  result_message : jsstring;
  timestamp : N;
  messageId : option jsstring;
  error : option jsstring
}.

(** [replaceMessageVariables]: every variable in turn, with the pattern
    [\{\{name\}\}] built from its name. *)
Definition replaceMessageVariables (w : World) (message : jsstring)
           (vars : list MessageVariable) : exc jsstring :=
  fold_left
    (fun result variable =>
       match result with
       | Ok r => regexp_replace_all w (js "\{\{" ++ name variable ++ js "\}\}")
                                    r (value variable)
       | Throw e => Throw e
       end)
    vars (Ok message).

(** [arr.join(sep)] *)
Fixpoint join (sep : jsstring) (l : list jsstring) : jsstring :=
  match l with
  | [] => []
  | [a] => a
  | a :: t => a ++ sep ++ join sep t
  end.

Definition with_phoneNumber (msg : OutMessage) (p : jsstring) : OutMessage :=
  {| phoneNumber := p; message := message msg;
     variables := variables msg; media := media msg |}.

Definition with_message (msg : OutMessage) (m : jsstring) : OutMessage :=
  {| phoneNumber := phoneNumber msg; message := m;
     variables := variables msg; media := media msg |}.

(** Normalize and validate phone numbers. *)
Definition validMessages (messages : list OutMessage) : list OutMessage :=
  filter (fun msg => Phone.phoneRegex_test (phoneNumber msg))
         (map (fun msg => with_phoneNumber msg
                            (Phone.normalizePhoneNumber (phoneNumber msg)))
              messages).

(** Process messages with variables: first replace variables, then
    sanitize. *)
Definition process_message (w : World) (msg : OutMessage) : exc OutMessage :=
  match
    match variables msg with
    | Some vars => replaceMessageVariables w (message msg) vars
    | None => Ok (message msg)
    end
  with
  | Throw e => Throw e
  | Ok replaced =>
      match Sanitizer.sanitizeWhatsAppMessage replaced with
      | Throw e => Throw e
      | Ok processedMessage => Ok (with_message msg processedMessage)
      end
  end.

(** The body of the [async (msg, index) => ...] callback. The pacing delay
    of [index * 1000] milliseconds is a wait only; the sends are taken in
    the order of their index. *)
Definition send_one (w : World) (cfg : Config.WhatsAppConfig) (msg : OutMessage)
  : M Store MessageResult :=
  try_catch
    (messagePayload <-
       match media msg with
       | Some md =>
           if truthy_opt (url md) then
             let u := or_else (url md) [] in
             (* Validate URL before sending *)
             try_catch
               (lift (new_URL w u) ;;;
                urlTest <- lift (fetch_head w true u) ;;
                if negb (head_ok urlTest)
                then throw (js "Media URL not accessible: "
                              ++ of_number (head_status urlTest)
                              ++ js " " ++ head_statusText urlTest)
                else ret {| to := phoneNumber msg;
                            ptype := payload_type (media msg);
                            text_body := None;
                            media_part :=
                              Some {| link := u;
                                      caption := caption_of (message msg) |} |})
               (fun urlError => throw (js "Invalid media URL: " ++ urlError))
           else ret {| to := phoneNumber msg; ptype := payload_type (media msg);
                       text_body := Some (message msg); media_part := None |}
       | None => ret {| to := phoneNumber msg; ptype := payload_type (media msg);
                        text_body := Some (message msg); media_part := None |}
       end ;;
     response <- lift (fetch_messages w (Config.phoneNumberId cfg)
                                      (Config.accessToken cfg) messagePayload) ;;
     if negb (ok response)
     then throw (or_else (error_message response) (js "WhatsApp API error"))
     else
       (* Log message to database for tracking *)
       insert_log w (sent_log w (phoneNumber msg)
                              (substring_to 100 (message msg))
                              (first_message_id response)) ;;;
       ret {| status := Status.success;
              result_phoneNumber := phoneNumber msg;
              result_message := message msg;
              timestamp := now w;
              messageId := first_message_id response;
              error := None |})
    (fun err =>
       (* Log the error *)
       insert_log w (error_log w (phoneNumber msg)
                               (substring_to 100 (message msg)) err) ;;;
       ret {| status := Status.error;
              result_phoneNumber := phoneNumber msg;
              result_message := message msg;
              timestamp := now w;
              messageId := None;
              error := Some err |}).

(** [Promise.allSettled]: every callback runs; a returned value is
    [fulfilled] ([Ok]) and a rejection is [rejected] ([Throw]). *)
Fixpoint allSettled {A} (cs : list (M Store A)) : M Store (list (exc A)) :=
  match cs with
  | [] => ret []
  | c :: t =>
      fun st =>
        let (r, st1) := c st in
        match allSettled t st1 with
        | (Ok rs, st2) => (Ok (r :: rs), st2)
        | (Throw e, st2) => (Throw e, st2)
        end
  end.

Definition unknown_error (w : World) (reason : jsstring) : MessageResult :=
  {| status := Status.error;
     result_phoneNumber := js "unknown";
     result_message := [];
     timestamp := now w;
     messageId := None;
     error := Some (or_else (Some reason) (js "Unknown error")) |}.

Definition batch_error (w : World) (err : jsstring) (msg : OutMessage)
  : MessageResult :=
  {| status := Status.error;
     result_phoneNumber := phoneNumber msg;
     result_message := message msg;
     timestamp := now w;
     messageId := None;
     error := Some err |}.

Definition no_valid_numbers (messages : list OutMessage) : jsstring :=
  js "No valid phone numbers found. Original numbers: "
     ++ join (js ", ") (map phoneNumber messages).

(** The [try] block of [sendWhatsAppMessages]. *)
Definition send_batch (w : World) (messages : list OutMessage)
           (userId : option jsstring) : M Store (list MessageResult) :=
  cfg <- getConfig userId ;;
  let valid := validMessages messages in
  if length valid =? 0 then throw (no_valid_numbers messages)
  else
    processedMessages <- lift (exc_map (process_message w) valid) ;;
    results <- allSettled (map (send_one w cfg) processedMessages) ;;
    ret (map (fun result =>
                match result with
                | Ok v => v
                | Throw reason => unknown_error w reason
                end)
             results).

(** [sendWhatsAppMessages] always returns a list: the [catch] block turns
    a failure of the batch into one [error] entry per input message. *)
Definition sendWhatsAppMessages (w : World) (messages : list OutMessage)
           (userId : option jsstring) (st : Store)
  : list MessageResult * Store :=
  match send_batch w messages userId st with
  | (Ok results, st') => (results, st')
  | (Throw err, st') => (map (batch_error w err) messages, st')
  end.

End Delivery.

(* ===================================================================== *)
(** ** Responder *)
(* ===================================================================== *)

Module Responder.

Local Open Scope monad_scope.

(** *** The education responder ([processCustomerMessage], education.ts) *)

Inductive Sender := user | bot.

Record Message := {
  phoneNumber : jsstring;
  content : jsstring;
  sender : Sender;
  imageUrl : option jsstring
}.

(** Rows of the tables the responder reads and writes. *)
Record StudentProfile := {
  id : jsstring;
  phone_number : jsstring;
  user_id : option jsstring;
  level : jsstring;
  last_active_at : option N
}.

Record UserProfile := { profile_id : jsstring; profile_phone : jsstring }.

Record GroqConfig := { groq_user_id : jsstring }.

(** Numbers of an analysis are kept as the text they render to. *)
Record MessageAnalysis := {
  analysis_type : option jsstring;
  subject : option jsstring;
  topic : option jsstring;
  sentiment : option jsstring;
  complexity : option jsstring;
  understanding : option jsstring
}.

Record ConversationRow := {
  conv_phone_number : jsstring;
  conv_content : jsstring;
  conv_sender : Sender;
  conv_intent : option jsstring;
  conv_response_time : option N
}.

Record AnalyticsRow := {
  student_id : jsstring;
  analytics : MessageAnalysis
}.

Record Store := {
  student_profiles : list StudentProfile;
  profils_utilisateurs : list UserProfile;
  user_groq_config : list GroqConfig;
  customer_conversations : list ConversationRow;
  education_analytics : list AnalyticsRow
}.

(** A chat completion request: the system prompt template with the values
    interpolated in it, the user turn, the model and the token limit. *)
Inductive SystemPrompt :=
| chatbot_prompt (chatbotType : Classifier.ChatbotType)
| analyst_of_message
| analyst_of_image
| teacher (level subject : jsstring) (understanding complexity : option jsstring)
| teacher_of_image (level subject : jsstring)
                   (understanding complexity : option jsstring).

Inductive UserTurn :=
| user_text (text : jsstring)
| user_image (text url : jsstring).

Record ChatRequest := {
  system : SystemPrompt;
  user_turn : UserTurn;
  model : jsstring;
  max_tokens : N
}.

(** The collaborators: the subscription check, the Groq client factory
    (the client is named by the user it was made for), the chat
    completion ([choices[0]?.message?.content], or a rejection),
    [JSON.parse] of an analysis, the elapsed time, what the store
    answers to the insert of a new profile, and whether the store writes
    the inserts and the update whose answer the code does not read: a row of
    [customer_conversations], a row of [education_analytics], the
    [last_active_at] of a profile. *)
Record World := {
  checkSubscriptionStatus : jsstring -> exc bool;
  createGroqClient : jsstring -> exc jsstring;
  chat_completion : jsstring -> ChatRequest -> exc (option jsstring);
  parse_analysis : jsstring -> exc MessageAnalysis;
  now : N;
  elapsed_seconds : N;
  new_profile_id : jsstring;
  profile_insert_error : option jsstring;
  conversation_written : ConversationRow -> bool;
  analytics_written : AnalyticsRow -> bool;
  activity_written : jsstring -> bool
}.

(** [.single()]: the row when exactly one matches, [null] otherwise. *)
Definition single {A} (rows : list A) : option A :=
  match rows with
  | [r] => Some r
  | _ => None
  end.

Definition maybeSingle {A} (rows : list A) : option A := single rows.

Definition get {S} : M S S := fun st => (Ok st, st).

Definition touch_profile (w : World) (pid : jsstring) (st : Store) : Store :=
  {| student_profiles :=
       map (fun p => if Js.eqb (id p) pid
                     then {| id := id p; phone_number := phone_number p;
                             user_id := user_id p; level := level p;
                             last_active_at := Some (now w) |}
                     else p)
           (student_profiles st);
     profils_utilisateurs := profils_utilisateurs st;
     user_groq_config := user_groq_config st;
     customer_conversations := customer_conversations st;
     education_analytics := education_analytics st |}.

Definition add_profile (p : StudentProfile) (st : Store) : Store :=
  {| student_profiles := student_profiles st ++ [p];
     profils_utilisateurs := profils_utilisateurs st;
     user_groq_config := user_groq_config st;
     customer_conversations := customer_conversations st;
     education_analytics := education_analytics st |}.

Definition add_conversation (r : ConversationRow) (st : Store) : Store :=
  {| student_profiles := student_profiles st;
     profils_utilisateurs := profils_utilisateurs st;
     user_groq_config := user_groq_config st;
     customer_conversations := customer_conversations st ++ [r];
     education_analytics := education_analytics st |}.

Definition add_analytics (r : AnalyticsRow) (st : Store) : Store :=
  {| student_profiles := student_profiles st;
     profils_utilisateurs := profils_utilisateurs st;
     user_groq_config := user_groq_config st;
     customer_conversations := customer_conversations st;
     education_analytics := education_analytics st ++ [r] |}.

Definition modify (f : Store -> Store) : M Store unit :=
  fun st => (Ok tt, f st).

(** [await supabase.from(table).insert(row)] or [.update(values)] whose
    answer is not read: the store writes or refuses, and the code goes on. *)
Definition write (written : bool) (f : Store -> Store) : M Store unit :=
  if written then modify f else ret tt.

Definition getOrCreateStudentProfile (w : World) (phone : jsstring)
  : M Store StudentProfile :=
  try_catch
    (st <- get ;;
     (* Check if student exists *)
     match single (filter (fun p => Js.eqb (phone_number p) phone)
                          (student_profiles st)) with
     | Some existingStudent =>
         (* Update last active timestamp *)
         write (activity_written w (id existingStudent))
               (touch_profile w (id existingStudent)) ;;;
         ret existingStudent
     | None =>
         (* Create new student profile *)
         match profile_insert_error w with
         | Some e => throw e
         | None =>
             let newStudent :=
               {| id := new_profile_id w; phone_number := phone;
                  user_id := None; level := js "3ème";
                  last_active_at := None |} in
             modify (add_profile newStudent) ;;;
             ret newStudent
         end
     end)
    (fun error => throw error).

Definition empty_analysis : MessageAnalysis :=
  {| analysis_type := None; subject := None; topic := None;
     sentiment := None; complexity := None; understanding := None |}.

(** The user of a student profile, for the analysis calls. *)
Definition student_user (studentId : jsstring) (st : Store) : option jsstring :=
  match single (filter (fun p => Js.eqb (id p) studentId) (student_profiles st)) with
  | Some student => if truthy_opt (user_id student) then user_id student else None
  | None => None
  end.

Definition profile_missing : jsstring :=
  js "Student profile not found or missing user_id".

(** The request that asks the model for the analysis of a text. *)
Definition analysis_request (message : jsstring) : ChatRequest :=
  {| system := analyst_of_message;
     user_turn := user_text message;
     model := js "mixtral-8x7b-32768";
     max_tokens := 500 |}.

Definition analyzeStudentMessage (w : World) (message studentId : jsstring)
  : M Store MessageAnalysis :=
  try_catch
    (st <- get ;;
     match student_user studentId st with
     | None => throw profile_missing
     | Some uid =>
         groq <- lift (createGroqClient w uid) ;;
         completion <- lift (chat_completion w groq (analysis_request message)) ;;
         analysis <- lift (parse_analysis w (or_else completion (js "{}"))) ;;
         (* Store analysis in database *)
         let row := {| student_id := studentId; analytics := analysis |} in
         write (analytics_written w row) (add_analytics row) ;;;
         ret analysis
     end)
    (fun error => throw error).

Definition or_default (o : option jsstring) (d : jsstring) : option jsstring :=
  Some (or_else o d).

Definition default_analysis : MessageAnalysis :=
  {| analysis_type := Some (js "question");
     subject := Some (js "unknown");
     topic := Some (js "unknown");
     sentiment := Some (js "0");
     complexity := Some (js "0.5");
     understanding := Some (js "0.5") |}.

(** The request that asks the model for the analysis of an image. *)
Definition image_analysis_request (url : jsstring) : ChatRequest :=
  {| system := analyst_of_image;
     user_turn := user_image (js "Please analyze this educational image:") url;
     model := js "llama3-70b-8192";
     max_tokens := 500 |}.

Definition analyzeStudentImage (w : World) (url studentId : jsstring)
  : M Store MessageAnalysis :=
  try_catch
    (st <- get ;;
     match student_user studentId st with
     | None => throw profile_missing
     | Some uid =>
         groq <- lift (createGroqClient w uid) ;;
         completion <- lift (chat_completion w groq
                               (image_analysis_request url)) ;;
         analysis <- lift (parse_analysis w (or_else completion (js "{}"))) ;;
         (* Store analysis in database *)
         let row :=
           {| student_id := studentId;
              analytics :=
                {| analysis_type := or_default (analysis_type analysis) (js "question");
                   subject := subject analysis;
                   topic := topic analysis;
                   sentiment := or_default (sentiment analysis) (js "0");
                   complexity := or_default (complexity analysis) (js "0.5");
                   understanding := or_default (understanding analysis) (js "0.5") |} |} in
         write (analytics_written w row) (add_analytics row) ;;;
         ret analysis
     end)
    (* Return default analysis if error occurs *)
    (fun _ => ret default_analysis).

(** The three fixed replies of the responder. *)
Definition technical_fallback : jsstring :=
  js "Désolé, je rencontre des difficultés techniques. Veuillez réessayer plus tard.".

Definition generation_fallback : jsstring :=
  js "Je suis désolé, je n'ai pas pu générer une réponse appropriée.".

Definition image_fallback : jsstring :=
  js "Je suis désolé, je n'ai pas pu analyser correctement cette image. Pourriez-vous envoyer une image plus claire ou poser votre question sous forme de texte ?".

(** The user whose Groq configuration answers the message. *)
Definition resolve_user (student : StudentProfile) (phone : jsstring)
  : M Store jsstring :=
  st <- get ;;
  let userId :=
    if truthy_opt (user_id student) then user_id student
    else
      match maybeSingle (filter (fun p => Js.eqb (profile_phone p) phone)
                                (profils_utilisateurs st)) with
      | Some userProfile => Some (profile_id userProfile)
      | None => None
      end in
  if truthy_opt userId then ret (or_else userId [])
  else
    (* try to get any user with Groq config as fallback *)
    match maybeSingle (firstn 1 (user_groq_config st)) with
    | Some anyGroqConfig => ret (groq_user_id anyGroqConfig)
    | None => throw (js "No user with Groq configuration found")
    end.

Definition bot_reply (message : Message) (response : jsstring) : Message :=
  {| phoneNumber := phoneNumber message; content := response;
     sender := bot; imageUrl := None |}.

(** The row of the inbound message and the row of the reply. *)
Definition inbound_row (message : Message) : ConversationRow :=
  {| conv_phone_number := phoneNumber message;
     conv_content := content message;
     conv_sender := sender message;
     conv_intent := None;
     conv_response_time := None |}.

Definition reply_row (w : World) (botResponse : Message)
           (analysis : MessageAnalysis) : ConversationRow :=
  {| conv_phone_number := phoneNumber botResponse;
     conv_content := content botResponse;
     conv_sender := sender botResponse;
     conv_intent := subject analysis;
     conv_response_time := Some (elapsed_seconds w) |}.

(** [await supabase.from('customer_conversations').insert([...])] of the
    reply; the answer of the store is not read. *)
Definition save_reply (w : World) (botResponse : Message)
           (analysis : MessageAnalysis) : M Store unit :=
  let row := reply_row w botResponse analysis in
  write (conversation_written w row) (add_conversation row).

(** The requests that ask the model for the reply, to a text and to an
    image. *)
Definition teacher_request (student : StudentProfile)
           (analysis : MessageAnalysis) (message : Message) : ChatRequest :=
  {| system := teacher (level student)
                       (or_else (subject analysis) (js "all subjects"))
                       (understanding analysis) (complexity analysis);
     user_turn := user_text (content message);
     model := js "mixtral-8x7b-32768";
     max_tokens := 2048 |}.

Definition teacher_image_request (student : StudentProfile)
           (analysis : MessageAnalysis) (url : jsstring) : ChatRequest :=
  {| system := teacher_of_image (level student)
                                (or_else (subject analysis) (js "all subjects"))
                                (understanding analysis) (complexity analysis);
     user_turn :=
       user_image
         (js "Please analyze this image and provide an educational response:")
         url;
     model := js "llama3-70b-8192";
     max_tokens := 2048 |}.

(** The [try] block of [processCustomerMessage]. *)
Definition process_body (w : World) (message : Message) : M Store Message :=
  lift (checkSubscriptionStatus w (phoneNumber message)) ;;;
  student <- getOrCreateStudentProfile w (phoneNumber message) ;;
  userId <- resolve_user student (phoneNumber message) ;;
  groq <- lift (createGroqClient w userId) ;;
  (* 1. Save the incoming message *)
  write (conversation_written w (inbound_row message))
        (add_conversation (inbound_row message)) ;;;
  (* 2. Process based on message type *)
  if truthy_opt (imageUrl message) then
    let url := or_else (imageUrl message) [] in
    analysis <- analyzeStudentImage w url (id student) ;;
    completion <- lift (chat_completion w groq
                          (teacher_image_request student analysis url)) ;;
    let response := or_else completion image_fallback in
    let botResponse := bot_reply message response in
    save_reply w botResponse analysis ;;;
    ret botResponse
  else
    analysis <- analyzeStudentMessage w (content message) (id student) ;;
    completion <- lift (chat_completion w groq
                          (teacher_request student analysis message)) ;;
    let response := or_else completion generation_fallback in
    let botResponse := bot_reply message response in
    save_reply w botResponse analysis ;;;
    ret botResponse.

Definition processCustomerMessage (w : World) (message : Message)
  : M Store Message :=
  try_catch (process_body w message)
            (fun _ => ret (bot_reply message technical_fallback)).

(** *** The reply of the webhook handler

    [completion.choices[0]?.message?.content || "Je suis désolé, ..."] *)
Definition handler_reply (completion : option jsstring) : jsstring :=
  or_else completion generation_fallback.

(** The statements of the handler that produce the reply, inside its
    [try] block: the Groq client of the profile's user, the completion for
    the prompt of the chatbot type, and the reply. A failure leaves the
    block for the handler's [catch], which answers HTTP 500. *)
Definition handler_request (chatbotType : Classifier.ChatbotType)
           (text : jsstring) : ChatRequest :=
  {| system := chatbot_prompt chatbotType;
     user_turn := user_text text;
     model := js "mixtral-8x7b-32768";
     max_tokens := 2048 |}.

Definition handler_respond (w : World) (userId text : jsstring)
           (chatbotType : Classifier.ChatbotType) : exc jsstring :=
  match createGroqClient w userId with
  | Throw e => Throw e
  | Ok groq =>
      match chat_completion w groq (handler_request chatbotType text) with
      | Throw e => Throw e
      | Ok completion => Ok (handler_reply completion)
      end
  end.

(** *** The reply text of the api-chatbot endpoint *)

(** Case-insensitive match of an ASCII pattern written in lower case. *)
Fixpoint startsWith_ci (p s : jsstring) : bool :=
  match p, s with
  | [], _ => true
  | _ :: _, [] => false
  | a :: p', b :: s' =>
      ((a =? b)%N || (is_lower a && (a - 32 =? b)%N)) && startsWith_ci p' s'
  end.

(** [.*?<\/script>]: the length of the shortest run without a line
    terminator that is followed by the closing tag. *)
Fixpoint script_body (u : jsstring) : option nat :=
  if startsWith_ci (js "</script>") u then Some 0
  else
    match u with
    | [] => None
    | c :: t => if is_line_terminator c then None else option_map S (script_body t)
    end.

(** [<script[^>]*>.*?<\/script>] with the [i] flag. *)
Definition match_script (u : jsstring) : option nat :=
  if startsWith_ci (js "<script") u then
    let t := skipn 7 u in
    match index_of (fun x => (x =? 62)%N) t with
    | Some i =>
        match script_body (skipn (S i) t) with
        | Some j => Some (7 + S i + j + 9)
        | None => None
        end
    | None => None
    end
  else None.

(** The text of the reply as the handler computes it (lines 279-289): a
    response longer than 4000 code units is cut, then script blocks and
    tags are removed and the text is trimmed. The statements of the handler
    that follow (response time, insert, HTTP response) are not part of this
    definition. *)
Definition sanitizedResponse (response : jsstring) : jsstring :=
  let truncated :=
    if 4000 <? length response
    then substring_to 3997 response ++ js "..."
    else response in
  trim (replace_global match_tag []
          (replace_global match_script [] truncated)).

End Responder.

(* ===================================================================== *)
(** * Properties *)
(* ===================================================================== *)

(** ** Strings and global replacement *)

Section ReplaceFacts.

Variable m : jsstring -> option nat.

(** With an empty replacement, a global replace never makes a string longer. *)
Lemma replace_from_erase_length skip s :
  length (replace_from m [] skip s) <= length s.
Proof.
  revert skip; induction s as [|c t IH]; intros skip; simpl.
  - lia.
  - destruct skip as [|k].
    + destruct (m (c :: t)) as [[|n]|]; simpl.
      * specialize (IH 0); lia.
      * specialize (IH n); lia.
      * specialize (IH 0); lia.
    + specialize (IH k); lia.
Qed.

(** A matcher that only fires on a code unit of class [p] leaves a string
    without such code units as it is. *)
Variable p : codeunit -> bool.
Hypothesis m_guard : forall c t, p c = false -> m (c :: t) = None.

Lemma replace_global_id rep s :
  forallb (fun c => negb (p c)) s = true -> replace_global m rep s = s.
Proof.
  unfold replace_global.
  induction s as [|c t IH]; simpl; intros H; [reflexivity|].
  apply andb_true_iff in H as [Hc Ht].
  apply negb_true_iff in Hc.
  rewrite (m_guard t Hc), (IH Ht). reflexivity.
Qed.

End ReplaceFacts.

Lemma replace_class_filter p s :
  replace_global (match_class p) [] s = filter (fun c => negb (p c)) s.
Proof.
  unfold replace_global.
  induction s as [|c t IH]; simpl; [reflexivity|].
  destruct (p c); simpl; rewrite IH; reflexivity.
Qed.

Lemma forallb_filter_id {A} (f : A -> bool) l :
  forallb f l = true -> filter f l = l.
Proof.
  induction l as [|a l IH]; simpl; intros H; [reflexivity|].
  apply andb_true_iff in H as [Ha Hl]. rewrite Ha, (IH Hl). reflexivity.
Qed.

Lemma forallb_filter {A} (f : A -> bool) l : forallb f (filter f l) = true.
Proof.
  induction l as [|a l IH]; simpl; [reflexivity|].
  destruct (f a) eqn:E; simpl; [rewrite E|]; exact IH.
Qed.

Lemma forallb_skipn {A} (f : A -> bool) n l :
  forallb f l = true -> forallb f (skipn n l) = true.
Proof.
  revert l; induction n as [|n IH]; intros [|a l]; simpl; auto.
  intros H. apply andb_true_iff in H as [_ Hl]. auto.
Qed.

Lemma trimStart_length s : length (trimStart s) <= length s.
Proof.
  induction s as [|c t IH]; simpl; [lia|].
  destruct (is_space c); simpl; lia.
Qed.

Lemma trim_length s : length (trim s) <= length s.
Proof.
  unfold trim, trimEnd.
  rewrite length_rev.
  etransitivity; [apply trimStart_length|].
  rewrite length_rev. apply trimStart_length.
Qed.

(** ** Phone number normalizer *)

Module PhoneFacts.

Import Phone.

Definition digit_or_plus (c : codeunit) : bool := is_digit c || (c =? 43)%N.

Definition cleaned (s : jsstring) : jsstring := filter digit_or_plus s.

Lemma cleaned_spec s :
  replace_global (match_class not_digit_or_plus) [] s = cleaned s.
Proof.
  rewrite replace_class_filter. unfold cleaned, not_digit_or_plus, digit_or_plus.
  apply filter_ext. intros c. apply negb_involutive.
Qed.

Lemma table_prefixes :
  forallb (fun e => startsWith (js "+") (snd e) && forallb digit_or_plus (snd e))
          countryCodeMap = true.
Proof. vm_compute. reflexivity. Qed.

Lemma find_in {A} (f : A -> bool) l x : find f l = Some x -> In x l.
Proof.
  induction l as [|a l IH]; simpl; [discriminate|].
  destruct (f a); [intros [= ->]; now left | intros H; right; auto].
Qed.

(** Every output is empty or a string of digits and plus signs that starts
    with a plus sign. *)
Lemma normalize_shape s :
  normalizePhoneNumber s = [] \/
  (startsWith (js "+") (normalizePhoneNumber s) = true /\
   forallb digit_or_plus (normalizePhoneNumber s) = true).
Proof.
  unfold normalizePhoneNumber.
  destruct (truthy s); cbn [negb]; [|now left].
  right. rewrite cleaned_spec.
  assert (Hc : forallb digit_or_plus (cleaned s) = true) by apply forallb_filter.
  destruct (startsWith (js "+") (cleaned s)) eqn:Hp; [now split|].
  destruct (find _ countryCodeMap) as [[code prefix]|] eqn:Hf.
  - apply find_in in Hf.
    pose proof (proj1 (forallb_forall _ _) table_prefixes _ Hf) as Ht.
    cbn [snd] in Ht. apply andb_true_iff in Ht as [Hplus Hok].
    split.
    + destruct prefix as [|a prefix']; [discriminate|]. exact Hplus.
    + rewrite forallb_app, Hok. apply forallb_skipn, Hc.
  - destruct (startsWith (js "0") (cleaned s)).
    + split; [reflexivity|].
      rewrite forallb_app. unfold substring_from.
      rewrite forallb_skipn by exact Hc. reflexivity.
    + split; [reflexivity|]. rewrite forallb_app, Hc. reflexivity.
Qed.

Lemma normalize_fixed t :
  startsWith (js "+") t = true -> forallb digit_or_plus t = true ->
  normalizePhoneNumber t = t.
Proof.
  intros Hp Hok. unfold normalizePhoneNumber.
  destruct t as [|c t']; [discriminate|]. cbn [truthy negb].
  rewrite cleaned_spec. unfold cleaned. rewrite (forallb_filter_id _ _ Hok).
  rewrite Hp. reflexivity.
Qed.

End PhoneFacts.

(** C10. The phone number normalizer is idempotent: normalizing a normalized
    number gives it back. Every output is the empty string or begins with the
    plus sign, and an input whose cleaned form begins with the plus sign is
    returned in that cleaned form. *)
Theorem normalizePhoneNumber_idempotent :
  forall s : jsstring,
    Phone.normalizePhoneNumber (Phone.normalizePhoneNumber s)
      = Phone.normalizePhoneNumber s
    /\ (Phone.normalizePhoneNumber s = []
        \/ exists t, Phone.normalizePhoneNumber s = 43%N :: t)
    /\ (truthy s = true ->
        startsWith (js "+") (PhoneFacts.cleaned s) = true ->
        Phone.normalizePhoneNumber s = PhoneFacts.cleaned s).
Proof.
  intros s. split; [|split].
  - destruct (PhoneFacts.normalize_shape s) as [E | [Hp Hok]].
    + rewrite E. reflexivity.
    + apply PhoneFacts.normalize_fixed; assumption.
  - destruct (PhoneFacts.normalize_shape s) as [E | [Hp _]]; [now left|right].
    destruct (Phone.normalizePhoneNumber s) as [|c t]; [discriminate|].
    apply andb_true_iff in Hp as [Hc _].
    apply N.eqb_eq in Hc. subst c. now exists t.
  - intros Ht Hp. unfold Phone.normalizePhoneNumber.
    rewrite Ht. cbn [negb]. rewrite PhoneFacts.cleaned_spec, Hp. reflexivity.
Qed.

(** ** Message sanitizer *)

Module SanitizerFacts.

Import Sanitizer.

(** Code units the cleaning steps never touch: no angle bracket, no
    ampersand, no white space. *)
Definition plain (c : codeunit) : bool :=
  negb (is_angle c || (c =? 38)%N || is_space c).

Lemma forallb_impl {A} (f g : A -> bool) l :
  (forall a, f a = true -> g a = true) ->
  forallb f l = true -> forallb g l = true.
Proof.
  intros Hfg. induction l as [|a l IH]; simpl; [reflexivity|].
  intros H. apply andb_true_iff in H as [Ha Hl].
  rewrite (Hfg _ Ha), (IH Hl). reflexivity.
Qed.

Lemma plain_parts c :
  plain c = true ->
  (c =? 60)%N = false /\ is_angle c = false /\ (c =? 38)%N = false
  /\ is_space c = false.
Proof.
  unfold plain, is_angle. intros H. apply negb_true_iff in H.
  apply orb_false_iff in H as [H Hs]. apply orb_false_iff in H as [Ha Hamp].
  apply orb_false_iff in Ha as [Hlt Hgt]. rewrite Hlt, Hgt. auto.
Qed.

Lemma tag_guard c t : (c =? 60)%N = false -> match_tag (c :: t) = None.
Proof. intros H. unfold match_tag. rewrite H. reflexivity. Qed.

Lemma class_guard p c t : p c = false -> match_class p (c :: t) = None.
Proof. intros H. unfold match_class. rewrite H. reflexivity. Qed.

Lemma literal_guard pat c t :
  startsWith [38%N] pat = true -> (c =? 38)%N = false ->
  match_literal pat (c :: t) = None.
Proof.
  intros Hp Hc. unfold match_literal.
  destruct pat as [|a pat']; [discriminate|].
  cbn [startsWith] in Hp. apply andb_true_iff in Hp as [Ha _].
  apply N.eqb_eq in Ha. subst a.
  cbn [startsWith]. rewrite N.eqb_sym, Hc. reflexivity.
Qed.

Lemma entity_guard c t : (c =? 38)%N = false -> match_entity (c :: t) = None.
Proof. intros H. unfold match_entity. rewrite H. reflexivity. Qed.

Lemma spaces_guard c t : is_space c = false -> match_spaces (c :: t) = None.
Proof. intros H. unfold match_spaces. cbn [run_length]. rewrite H. reflexivity. Qed.

Lemma entities_start_with_ampersand :
  forallb (fun e => startsWith [38%N] (fst e)) htmlEntities = true.
Proof. vm_compute. reflexivity. Qed.

Lemma trimStart_id s :
  forallb (fun c => negb (is_space c)) s = true -> trimStart s = s.
Proof.
  destruct s as [|c t]; [reflexivity|]. cbn [forallb trimStart].
  intros H. apply andb_true_iff in H as [Hc _].
  apply negb_true_iff in Hc. rewrite Hc. reflexivity.
Qed.

Lemma forallb_rev {A} (f : A -> bool) l :
  forallb f l = true -> forallb f (rev l) = true.
Proof.
  intros H. apply forallb_forall. intros x Hx.
  apply in_rev in Hx. exact (proj1 (forallb_forall f l) H x Hx).
Qed.

Lemma trim_id s :
  forallb (fun c => negb (is_space c)) s = true -> trim s = s.
Proof.
  intros H. unfold trim, trimEnd.
  rewrite (trimStart_id _ H).
  rewrite (trimStart_id _ (forallb_rev _ _ H)). apply rev_involutive.
Qed.

Lemma decode_entities_id s :
  forallb (fun c => negb (c =? 38)%N) s = true -> decode_entities s = s.
Proof.
  intros H. unfold decode_entities.
  pose proof entities_start_with_ampersand as Ht.
  induction htmlEntities as [|e l IH]; [reflexivity|].
  cbn [forallb] in Ht. apply andb_true_iff in Ht as [He Hl].
  cbn [fold_left].
  rewrite (replace_global_id (match_literal (fst e)) (fun c => (c =? 38)%N)); auto.
  intros c t Hc. apply literal_guard; assumption.
Qed.

(** A string of plain code units is its own cleaned form. *)
Lemma clean_plain s : forallb plain s = true -> clean s = s.
Proof.
  intros H.
  assert (H60 : forallb (fun c => negb (c =? 60)%N) s = true).
  { revert H. apply forallb_impl. intros c Hc.
    destruct (plain_parts c Hc) as (-> & _). reflexivity. }
  assert (Hang : forallb (fun c => negb (is_angle c)) s = true).
  { revert H. apply forallb_impl. intros c Hc.
    destruct (plain_parts c Hc) as (_ & -> & _). reflexivity. }
  assert (Hamp : forallb (fun c => negb (c =? 38)%N) s = true).
  { revert H. apply forallb_impl. intros c Hc.
    destruct (plain_parts c Hc) as (_ & _ & -> & _). reflexivity. }
  assert (Hsp : forallb (fun c => negb (is_space c)) s = true).
  { revert H. apply forallb_impl. intros c Hc.
    destruct (plain_parts c Hc) as (_ & _ & _ & ->). reflexivity. }
  unfold clean, remove_tags, remove_angles, remove_entities, normalize_whitespace.
  rewrite (replace_global_id match_tag (fun c => (c =? 60)%N) tag_guard _ _ H60).
  rewrite (replace_global_id (match_class is_angle) is_angle
             (class_guard is_angle) _ _ Hang).
  rewrite (decode_entities_id _ Hamp).
  rewrite (replace_global_id match_entity (fun c => (c =? 38)%N) entity_guard _ _ Hamp).
  rewrite (replace_global_id match_spaces is_space spaces_guard _ _ Hsp).
  apply trim_id, Hsp.
Qed.

Lemma clean_empty : clean [] = [].
Proof. vm_compute. reflexivity. Qed.

(** The three outcomes of the sanitizer, by the cleaned form. *)
Lemma sanitize_cases s :
  truthy s = true ->
  (clean s = [] /\ sanitizeWhatsAppMessage s = Throw empty_after_sanitization)
  \/ (clean s <> [] /\ length (clean s) <= 4096
      /\ sanitizeWhatsAppMessage s = Ok (clean s))
  \/ (4096 < length (clean s)
      /\ sanitizeWhatsAppMessage s = Ok (substring_to 4093 (clean s) ++ ellipsis)).
Proof.
  intros Ht. unfold sanitizeWhatsAppMessage. rewrite Ht. cbn [negb].
  remember (clean s) as c eqn:Ec. clear Ec.
  destruct (Nat.eqb_spec (length c) 0) as [E0|N0].
  - left. split; [|reflexivity]. destruct c; [reflexivity|discriminate].
  - destruct (Nat.ltb_spec 4096 (length c)) as [Hlt|Hle].
    + right; right. split; [exact Hlt|reflexivity].
    + right; left. repeat split; try assumption.
      intros ->. apply N0. reflexivity.
Qed.

Lemma truncated_length c :
  4096 < length c -> length (substring_to 4093 c ++ ellipsis) = 4096.
Proof.
  intros H. unfold substring_to. rewrite length_app, length_firstn.
  change (length ellipsis) with 3. lia.
Qed.

Lemma truncated_marker c :
  4096 < length c -> skipn 4093 (substring_to 4093 c ++ ellipsis) = ellipsis.
Proof.
  intros H. unfold substring_to.
  rewrite skipn_app, length_firstn.
  replace (Nat.min 4093 (length c)) with 4093 by lia.
  rewrite skipn_firstn_comm. replace (4093 - 4093) with 0 by lia.
  reflexivity.
Qed.

End SanitizerFacts.

(** C2. A message whose cleaned form is longer than 4096 code units is cut to
    the first 4093 code units of that form followed by the three-character
    marker: the result has exactly 4096 code units and ends in the marker. A
    cleaned form of at most 4096 code units is returned as it is. An input of
    5000 code units none of which is an angle bracket, an ampersand or white
    space is cut to 4096 code units ending in the marker. *)
Theorem sanitize_truncates_at_4096 :
  forall s : jsstring,
    let c := Sanitizer.clean s in
    (4096 < length c ->
       Sanitizer.sanitizeWhatsAppMessage s
         = Ok (substring_to 4093 c ++ Sanitizer.ellipsis)
       /\ length (substring_to 4093 c ++ Sanitizer.ellipsis) = 4096
       /\ skipn 4093 (substring_to 4093 c ++ Sanitizer.ellipsis)
            = Sanitizer.ellipsis)
    /\ (0 < length c <= 4096 -> Sanitizer.sanitizeWhatsAppMessage s = Ok c)
    /\ (length c <= 4096 ->
        forall r, Sanitizer.sanitizeWhatsAppMessage s = Ok r -> r = c)
    /\ (length s = 5000 -> forallb SanitizerFacts.plain s = true ->
        exists r,
          Sanitizer.sanitizeWhatsAppMessage s = Ok r
          /\ r = substring_to 4093 s ++ Sanitizer.ellipsis
          /\ length r = 4096
          /\ skipn 4093 r = Sanitizer.ellipsis).
Proof.
  intros s c. subst c.
  destruct s as [|a s'].
  - rewrite SanitizerFacts.clean_empty. cbn [length].
    repeat split; try lia; try discriminate.
    intros _ r H. change (@Ok jsstring [] = Ok r) in H. now injection H as <-.
  - set (s := a :: s') in *.
    assert (Ht : truthy s = true) by reflexivity.
    destruct (SanitizerFacts.sanitize_cases s Ht)
      as [[Hc Hs] | [(Hc & Hle & Hs) | [Hlt Hs]]].
    + rewrite Hc, Hs. cbn [length]. repeat split; try lia; try discriminate.
      intros Hlen Hplain. rewrite (SanitizerFacts.clean_plain s Hplain) in Hc.
      rewrite Hc in Hlen. discriminate.
    + rewrite Hs. repeat split; try lia.
      * intros _ r H. congruence.
      * intros Hlen Hplain. rewrite (SanitizerFacts.clean_plain s Hplain) in Hle.
        lia.
    + rewrite Hs. split; [|split; [|split]].
      * intros _. split; [reflexivity|]. split.
        -- apply SanitizerFacts.truncated_length, Hlt.
        -- apply SanitizerFacts.truncated_marker, Hlt.
      * lia.
      * lia.
      * intros Hlen Hplain.
        rewrite (SanitizerFacts.clean_plain s Hplain) in *.
        exists (substring_to 4093 s ++ Sanitizer.ellipsis).
        split; [reflexivity|]. split; [reflexivity|]. split.
        -- apply SanitizerFacts.truncated_length, Hlt.
        -- apply SanitizerFacts.truncated_marker, Hlt.
Qed.

(** The statement of C2 at an input of 5000 letters [a]. *)
Lemma sanitize_truncates_at_4096_witness :
  exists r,
    Sanitizer.sanitizeWhatsAppMessage (repeat 97%N 5000) = Ok r
    /\ r = substring_to 4093 (repeat 97%N 5000) ++ Sanitizer.ellipsis
    /\ length r = 4096
    /\ skipn 4093 r = Sanitizer.ellipsis.
Proof.
  apply (sanitize_truncates_at_4096 (repeat 97%N 5000)).
  - vm_compute. reflexivity.
  - vm_compute. reflexivity.
Defined.

(** C3, as stated, fails on the empty message: its cleaned form is empty, yet
    the sanitizer returns normally, and what it returns is the empty string. *)
Lemma sanitize_empty_message_returns :
  Sanitizer.clean [] = []
  /\ Sanitizer.sanitizeWhatsAppMessage [] = Ok []
  /\ ~ (forall s, Sanitizer.clean s = [] <->
                  exists e, Sanitizer.sanitizeWhatsAppMessage s = Throw e).
Proof.
  split; [exact SanitizerFacts.clean_empty|]. split; [reflexivity|].
  intros H. destruct (proj1 (H []) SanitizerFacts.clean_empty) as [e He].
  discriminate He.
Qed.

(** C3, amended. On a non-empty message the sanitizer throws exactly when
    the cleaning steps leave the empty string, the error is the
    empty-after-sanitization one, and a result returned normally is not
    empty. The empty message is returned as the empty string, without an
    error. *)
Theorem sanitize_throws_iff_cleaned_empty :
  forall s : jsstring,
    (truthy s = true ->
       (Sanitizer.sanitizeWhatsAppMessage s
          = Throw Sanitizer.empty_after_sanitization
        <-> Sanitizer.clean s = [])
       /\ (forall e, Sanitizer.sanitizeWhatsAppMessage s = Throw e ->
                     e = Sanitizer.empty_after_sanitization
                     /\ Sanitizer.clean s = [])
       /\ (forall r, Sanitizer.sanitizeWhatsAppMessage s = Ok r -> r <> []))
    /\ (truthy s = false -> Sanitizer.sanitizeWhatsAppMessage s = Ok []).
Proof.
  intros s. split.
  - intros Ht.
    destruct (SanitizerFacts.sanitize_cases s Ht)
      as [[Hc Hs] | [(Hc & Hle & Hs) | [Hlt Hs]]]; rewrite Hs.
    + split; [split; auto|]. split.
      * intros e [= <-]. auto.
      * intros r H. discriminate H.
    + split; [split; [discriminate | contradiction]|]. split.
      * intros e H. discriminate H.
      * intros r [= <-]. exact Hc.
    + assert (Hne : Sanitizer.clean s <> []).
      { intros E. rewrite E in Hlt. cbn [length] in Hlt. lia. }
      split; [split; [discriminate | contradiction]|]. split.
      * intros e H. discriminate H.
      * intros r [= <-] E. apply app_eq_nil in E as [_ E]. discriminate E.
  - intros Hf. unfold Sanitizer.sanitizeWhatsAppMessage. rewrite Hf. reflexivity.
Qed.

(** The amended C3 at a message that is a single tag, and at the message
    [ok]. *)
Lemma sanitize_throws_iff_cleaned_empty_witness :
  (Sanitizer.sanitizeWhatsAppMessage (js "<br>")
     = Throw Sanitizer.empty_after_sanitization
   <-> Sanitizer.clean (js "<br>") = [])
  /\ (forall r, Sanitizer.sanitizeWhatsAppMessage (js "ok") = Ok r -> r <> []).
Proof.
  split.
  - apply (proj1 (sanitize_throws_iff_cleaned_empty (js "<br>"))). reflexivity.
  - apply (proj1 (sanitize_throws_iff_cleaned_empty (js "ok"))). reflexivity.
Defined.

(** ** Intent classifier *)

Module ClassifierFacts.

Import Classifier.

Lemma ascii_examples :
  forallb (forallb is_ascii)
          [ js "I want to learn algebra"; js "let's play a quiz game";
            js "my bill is wrong"; js "quiz about what I learn" ] = true.
Proof. vm_compute. reflexivity. Qed.

End ClassifierFacts.

Section ClassifierProperties.

Import Classifier.

Variable toLowerCase : jsstring -> jsstring.
Hypothesis toLowerCase_ascii : lowers_ascii toLowerCase.

Let classify := determineChatbotType toLowerCase.
Let mentions (message : jsstring) (keywords : list jsstring) : bool :=
  existsb (fun keyword => includes (toLowerCase message) keyword) keywords.

(** C4. The classifier is a function of the message text alone. On the
    lower-cased text it answers [education] when an education keyword
    occurs in it, else [quiz] when a quiz keyword occurs, else [client];
    a text with a keyword of each list is [education], a text with no
    keyword is [client], and the four sample texts get their labels. *)
Theorem determineChatbotType_order :
  (forall m,
      classify m =
      if mentions m educationKeywords then education
      else if mentions m quizKeywords then quiz else client)
  /\ (forall m k1 k2,
         In k1 educationKeywords -> In k2 quizKeywords ->
         includes (toLowerCase m) k1 = true ->
         includes (toLowerCase m) k2 = true ->
         classify m = education)
  /\ (forall m,
         (forall k, In k (educationKeywords ++ quizKeywords) ->
                    includes (toLowerCase m) k = false) ->
         classify m = client)
  /\ (forall m k,
         In k quizKeywords -> includes (toLowerCase m) k = true ->
         (forall k', In k' educationKeywords ->
                     includes (toLowerCase m) k' = false) ->
         classify m = quiz)
  /\ classify (js "I want to learn algebra") = education
  /\ classify (js "let's play a quiz game") = quiz
  /\ classify (js "my bill is wrong") = client
  /\ classify (js "quiz about what I learn") = education.
Proof.
  assert (Hnone : forall m ks,
             (forall k, In k ks -> includes (toLowerCase m) k = false) ->
             mentions m ks = false).
  { intros m ks H. unfold mentions.
    destruct (existsb _ ks) eqn:E; [|reflexivity].
    apply existsb_exists in E as (k & Hin & Hk).
    rewrite (H k Hin) in Hk. discriminate. }
  assert (Hsome : forall m ks k,
             In k ks -> includes (toLowerCase m) k = true ->
             mentions m ks = true).
  { intros m ks k Hin Hk. unfold mentions. apply existsb_exists. now exists k. }
  assert (Hdef : forall m,
             classify m =
             if mentions m educationKeywords then education
             else if mentions m quizKeywords then quiz else client)
    by reflexivity.
  split; [exact Hdef|]. split; [|split; [|split]].
  - intros m k1 k2 H1 _ I1 _. rewrite Hdef, (Hsome _ _ _ H1 I1). reflexivity.
  - intros m H. rewrite Hdef, !Hnone; [reflexivity| |];
      intros k Hk; apply H, in_or_app; auto.
  - intros m k Hk Ik H. rewrite Hdef, (Hnone _ _ H), (Hsome _ _ _ Hk Ik).
    reflexivity.
  - pose proof ClassifierFacts.ascii_examples as Hex.
    cbn [forallb] in Hex.
    repeat (apply andb_true_iff in Hex as [?H Hex]).
    subst classify. unfold determineChatbotType.
    rewrite !toLowerCase_ascii by assumption.
    repeat split; vm_compute; reflexivity.
Qed.

End ClassifierProperties.

(** C4 with the lower-casing of ASCII code units for [toLowerCase]. *)
Lemma determineChatbotType_order_witness :
  Classifier.determineChatbotType (map Classifier.ascii_lower)
    (js "QUIZ about what I Learn") = Classifier.education
  /\ Classifier.determineChatbotType (map Classifier.ascii_lower)
       (js "let's play a quiz game") = Classifier.quiz.
Proof.
  pose proof (determineChatbotType_order
                (toLowerCase := map Classifier.ascii_lower)
                (fun s _ => eq_refl)) as (_ & Htie & _ & _ & _ & Hquiz & _).
  split; [|exact Hquiz].
  apply (Htie _ (js "learn") (js "quiz")); vm_compute; auto.
Defined.

(** ** Configuration resolution *)

Module ConfigFacts.

Import Config.

(** The requesting user has one active configuration, and it carries both
    credentials. *)
Definition user_has_config (userId : option jsstring) (table : list ConfigRow)
           (r : ConfigRow) : Prop :=
  exists uid, userId = Some uid /\ truthy uid = true
              /\ user_rows uid table = [r] /\ has_credentials r = true.

Lemma most_recent_in rows r : most_recent rows = Some r -> In r rows.
Proof.
  revert r; induction rows as [|a t IH]; intros r; cbn [most_recent].
  - discriminate.
  - destruct (most_recent t) as [r'|].
    + destruct (updated_at a <? updated_at r')%N; intros [= <-];
        [right; apply IH; reflexivity | left; reflexivity].
    + intros [= <-]. left; reflexivity.
Qed.



Lemma fallback_query table :
  maybeSingle (order_desc_limit1 (active_rows table))
    = (most_recent (active_rows table), false).
Proof.
  unfold order_desc_limit1.
  destruct (most_recent (active_rows table)); reflexivity.
Qed.


Lemma user_specific_inv userId table cfg :
  user_specific userId table = Some cfg ->
  exists r, user_has_config userId table r /\ cfg = config_of r user_config.
Proof.
  unfold user_specific. destruct userId as [uid|]; [|discriminate].
  destruct (truthy uid) eqn:Ht; [|discriminate].
  destruct (user_rows uid table) as [|r [|r2 rest]] eqn:Hrows;
    cbn [maybeSingle]; try discriminate.
  destruct (has_credentials r) eqn:Hc; [|discriminate].
  intros [= <-]. exists r. split; [|reflexivity]. exists uid. auto.
Qed.

Lemma user_rows_active uid table r :
  In r (user_rows uid table) -> In r table /\ is_active r = true.
Proof.
  unfold user_rows. intros H. apply filter_In in H as [Hin Hb].
  apply andb_true_iff in Hb as [_ Ha]. auto.
Qed.


End ConfigFacts.

Module ConfigExample.

Import Config.

Definition row (uid : string) (active : bool) (token : option jsstring)
           (updated : N) : ConfigRow :=
  {| user_id := js uid; is_active := active; access_token := token;
     phone_number_id := Some (js "1055"); whatsapp_business_account_id := None;
     updated_at := updated |}.

(** Two users: [u1] with an active configuration, [u2] with a more recent
    one; a third row is inactive. *)
Definition table : list ConfigRow :=
  [ row "u1" true (Some (js "EAA1")) 10;
    row "u2" true (Some (js "EAA2")) 20;
    row "u3" false (Some (js "EAA3")) 30 ].



End ConfigExample.


Module PrecedenceFacts.

Import Config.




End PrecedenceFacts.



(** ** Status updates *)

Module WebhookFacts.

Import Logs Webhook.

Lemma eqb_false a b : a <> b -> Js.eqb a b = false.
Proof. intros H. unfold Js.eqb. destruct (list_eq_dec N.eq_dec a b); congruence. Qed.

Lemma matches_id_false id r : message_id r <> Some id -> matches_id id r = false.
Proof.
  unfold matches_id. destruct (message_id r) as [i|]; [|reflexivity].
  intros H. apply eqb_false. congruence.
Qed.

(** An update whose filter matches no row leaves the table as it is. *)
Lemma update_status_unknown st now id logs :
  (forall r, In r logs -> message_id r <> Some id) ->
  update_status st now id logs = logs.
Proof.
  intros H. unfold update_status.
  rewrite <- (map_id logs) at 2. apply map_ext_in.
  intros r Hr. rewrite (@matches_id_false id r (H r Hr)). reflexivity.
Qed.

Definition log (status : string) (mid : option jsstring) : MessageLog :=
  {| status := js status; phone_number := js "+242061234567";
     message_preview := js "Bonjour"; message_id := mid; error := None;
     created_at := 100; updated_at := None |}.

Definition sample_logs : list MessageLog :=
  [ log "sent" (Some (js "wamid.1")); log "error" None ].

Definition sample_answer : StoreAnswer := {| now := 200; updateError := None |}.

Definition sample_event : StatusData :=
  {| type := Some (js "status_update");
     messageId := Some (js "wamid.2");
     new_status := Some (js "delivered") |}.

End WebhookFacts.

(** C8. A status update that names a provider message id no delivery record
    carries is answered with success and changes no record: by
    [processStatusUpdate], and by the status-update branch of the chatbot
    endpoint with HTTP 200 (the record store answering the update without an
    error). *)
Theorem status_update_unknown_id_is_noop :
  forall (a : Webhook.StoreAnswer) (data : Webhook.StatusData)
         (logs : list Logs.MessageLog) (id st : jsstring),
    Webhook.messageId data = Some id -> truthy id = true ->
    Webhook.new_status data = Some st -> truthy st = true ->
    Webhook.updateError a = None ->
    (forall r, In r logs -> Logs.message_id r <> Some id) ->
    Webhook.processStatusUpdate a data logs
      = (Ok (Webhook.success_true (js "Status updated to " ++ st)), logs)
    /\ (Webhook.is_status_update data = true ->
        Webhook.handle_status_update true a data logs
          = (Ok {| Webhook.code := 200;
                   Webhook.body :=
                     Webhook.body_success (js "Status updated to " ++ st) |},
             logs)).
Proof.
  intros a data logs id st Hid Tid Hst Tst Herr Hnone.
  split.
  - unfold Webhook.processStatusUpdate, try_catch, Webhook.run_update.
    rewrite Hid, Hst. cbn [truthy_opt or_else]. rewrite Tid, Tst, Herr.
    cbn [negb orb].
    rewrite (@WebhookFacts.update_status_unknown _ _ id logs Hnone). reflexivity.
  - intros _. unfold Webhook.handle_status_update, try_catch,
      Webhook.run_update, Webhook.field.
    rewrite Hid, Hst, Herr. cbn [negb].
    rewrite (@WebhookFacts.update_status_unknown _ _ id logs Hnone). reflexivity.
Qed.

(** C8 on a table of two records, neither of which carries the id of the
    update. *)
Lemma status_update_unknown_id_is_noop_witness :
  Webhook.processStatusUpdate WebhookFacts.sample_answer WebhookFacts.sample_event
                              WebhookFacts.sample_logs
    = (Ok (Webhook.success_true (js "Status updated to " ++ js "delivered")),
       WebhookFacts.sample_logs)
  /\ (Webhook.is_status_update WebhookFacts.sample_event = true ->
      Webhook.handle_status_update true WebhookFacts.sample_answer
                                   WebhookFacts.sample_event WebhookFacts.sample_logs
        = (Ok {| Webhook.code := 200;
                 Webhook.body :=
                   Webhook.body_success (js "Status updated to " ++ js "delivered") |},
           WebhookFacts.sample_logs)).
Proof.
  apply (@status_update_unknown_id_is_noop
           WebhookFacts.sample_answer WebhookFacts.sample_event
           WebhookFacts.sample_logs (js "wamid.2") (js "delivered"));
    try reflexivity.
  intros r [<- | [<- | []]]; vm_compute; discriminate.
Defined.

(** ** Delivery channel *)

Module DeliveryExample.

Import Delivery.

Definition provider_ok : ProviderResponse :=
  {| ok := true; statusText := js "OK"; error_message := None;
     first_message_id := Some (js "wamid.A") |}.

(** A provider that accepts every message, a record store that takes every
    insert, and media probes answered 200 or 404 as [reachable] says. *)
Definition world (reachable : bool) : World :=
  {| now := 1000;
     new_URL := fun _ => Ok tt;
     fetch_head := fun _ _ =>
       Ok {| head_ok := reachable;
             head_status := if reachable then 200%N else 404%N;
             head_statusText := if reachable then js "OK" else js "Not Found" |};
     fetch_messages := fun _ _ _ => Ok provider_ok;
     insert_answer := fun _ => inserted;
     regexp_replace_all := fun _ subject _ => Ok subject |}.

Definition store : Store :=
  {| configs := ConfigExample.table; message_logs := [] |}.

Definition picture : Media :=
  {| media_type := image; url := Some (js "https://example.org/missing.png") |}.

Definition text_to (phone : string) : OutMessage :=
  {| phoneNumber := js phone; message := js "Bonjour";
     variables := None; media := None |}.

(** Three messages; the number of the second one is not valid. *)
Definition batch3 : list OutMessage :=
  [ text_to "+242061234567"; text_to "+0000"; text_to "+242069876543" ].

Definition picture_batch : list OutMessage :=
  [ {| phoneNumber := js "+242061234567"; message := js "Bonjour";
       variables := None; media := Some picture |} ].

End DeliveryExample.

(** C1, as stated, fails on a batch of three messages whose second number is
    invalid, with a provider that accepts every send: the result has two
    entries, both [success], and none for the second message. *)
Lemma sendWhatsAppMessages_drops_invalid_entry :
  length DeliveryExample.batch3 = 3
  /\ map (fun m => Phone.phoneRegex_test
                     (Phone.normalizePhoneNumber (Delivery.phoneNumber m)))
         DeliveryExample.batch3 = [true; false; true]
  /\ map (fun r => (Delivery.status r, Delivery.result_phoneNumber r))
         (fst (Delivery.sendWhatsAppMessages
                 (DeliveryExample.world true) DeliveryExample.batch3
                 (Some (js "u1")) DeliveryExample.store))
     = [ (Delivery.Status.success, js "+242061234567");
         (Delivery.Status.success, js "+242069876543") ].
Proof. vm_compute. repeat split. Qed.

(** C7 at a media send whose URL answers 404: [sendWhatsAppResponse] throws
    and leaves [message_logs] without any record, while the batch send of the
    same message writes one record with status [error]. *)
Theorem sendWhatsAppResponse_failure_writes_no_record :
  Delivery.sendWhatsAppResponse
    (DeliveryExample.world false) (js "+242061234567") (js "Bonjour")
    (Some DeliveryExample.picture) (Some (js "u1")) DeliveryExample.store
  = (Throw (js "Invalid media URL: Media URL not accessible: 404"),
     DeliveryExample.store)
  /\ Delivery.message_logs DeliveryExample.store = []
  /\ map (fun r => (Logs.status r, Logs.error r))
         (Delivery.message_logs
            (snd (Delivery.sendWhatsAppMessages
                    (DeliveryExample.world false) DeliveryExample.picture_batch
                    (Some (js "u1")) DeliveryExample.store)))
     = [ (js "error",
          Some (js "Invalid media URL: Media URL not accessible: 404 Not Found")) ].
Proof. vm_compute. repeat split. Qed.

Module DeliveryFacts.

Import Delivery.

(** Case analysis on an innermost scrutinee of the goal. *)
Ltac step :=
  match goal with
  | |- context [match ?x with _ => _ end] =>
      lazymatch x with
      | context [match _ with _ => _ end] => fail
      | _ => destruct x eqn:?
      end
  end.

(** A call of [sendWhatsAppResponse] that returns has appended at most one
    record, with status [sent] and the provider's message id (none when the
    store refused the insert); a call that throws has written nothing. *)
Lemma sendWhatsAppResponse_records w to_ message media userId st :
  match sendWhatsAppResponse w to_ message media userId st with
  | (Ok response, st') =>
      configs st' = configs st
      /\ (st' = st
          \/ exists row, message_logs st' = message_logs st ++ [row]
                         /\ Logs.status row = js "sent"
                         /\ Logs.message_id row = first_message_id response)
  | (Throw _, st') => st' = st
  end.
Proof.
  cbv [sendWhatsAppResponse try_catch bind lift ret throw getConfig insert_log].
  repeat step; try reflexivity;
    (split; [reflexivity|]);
    first [ left; reflexivity
          | right; eexists; repeat split; reflexivity ].
Qed.

(** The error that ends a batch before any send, if there is one. *)
Definition batch_failure (w : World) (messages : list OutMessage)
           (userId : option jsstring) (st : Store) : option jsstring :=
  match Config.getWhatsAppConfig userId (configs st) with
  | Throw e => Some e
  | Ok _ =>
      if length (validMessages messages) =? 0
      then Some (no_valid_numbers messages)
      else
        match exc_map (process_message w) (validMessages messages) with
        | Throw e => Some e
        | Ok _ => None
        end
  end.

Lemma exc_map_length {A B} (f : A -> exc B) l l' :
  exc_map f l = Ok l' -> length l' = length l.
Proof.
  revert l'; induction l as [|a t IH]; intros l'; cbn [exc_map].
  - intros [= <-]. reflexivity.
  - destruct (f a); [|discriminate].
    destruct (exc_map f t); [|discriminate].
    intros [= <-]. cbn [length]. f_equal. apply IH. reflexivity.
Qed.

(** [Promise.allSettled] settles every callback, in order. *)
Lemma allSettled_spec {A} (P : exc A -> Prop) (cs : list (M Store A)) :
  Forall (fun c => forall st, P (fst (c st))) cs ->
  forall st, exists rs st',
    allSettled cs st = (Ok rs, st') /\ length rs = length cs /\ Forall P rs.
Proof.
  induction 1 as [|c t Hc Ht IH]; intros st; cbn [allSettled].
  - exists [], st. repeat split. constructor.
  - specialize (Hc st). destruct (c st) as [r st1]. cbn [fst] in Hc.
    destruct (IH st1) as (rs & st2 & E & Hlen & HP). rewrite E.
    exists (r :: rs), st2. repeat split.
    + cbn [length]. f_equal. exact Hlen.
    + constructor; assumption.
Qed.

Lemma process_message_text w m m' :
  process_message w m = Ok m' -> media m' = media m.
Proof.
  unfold process_message.
  destruct (match variables m with Some _ => _ | None => _ end); [|discriminate].
  destruct (Sanitizer.sanitizeWhatsAppMessage a); [|discriminate].
  intros [= <-]. reflexivity.
Qed.

(** A provider that accepts every message and a store that writes every
    insert. *)
Definition provider_accepts (w : World) : Prop :=
  (forall pid token payload,
      exists response, fetch_messages w pid token payload = Ok response
                       /\ ok response = true)
  /\ (forall row, insert_answer w row = inserted).

Lemma send_one_text_success w cfg msg st :
  provider_accepts w -> media msg = None ->
  exists r, fst (send_one w cfg msg st) = Ok r /\ status r = Status.success.
Proof.
  intros [Hsend Hins] Hm.
  cbv [send_one try_catch bind lift ret throw insert_log]. rewrite Hm.
  destruct (Hsend (Config.phoneNumberId cfg) (Config.accessToken cfg)
                  {| to := phoneNumber msg; ptype := payload_type None;
                     text_body := Some (message msg); media_part := None |})
    as (response & -> & ->).
  cbn [negb]. rewrite Hins. eexists. split; reflexivity.
Qed.

Lemma validMessages_count messages :
  length (validMessages messages)
  = length (filter (fun m => Phone.phoneRegex_test
                               (Phone.normalizePhoneNumber (phoneNumber m)))
                   messages).
Proof.
  unfold validMessages.
  induction messages as [|m t IH]; [reflexivity|].
  cbn [map filter with_phoneNumber phoneNumber].
  destruct (Phone.phoneRegex_test _); cbn [length]; rewrite IH; reflexivity.
Qed.

Lemma filter_length_le {A} (f : A -> bool) l : length (filter f l) <= length l.
Proof.
  induction l as [|a t IH]; cbn [filter length]; [lia|].
  destruct (f a); cbn [length]; lia.
Qed.

(** The valid messages are the input messages whose normalized number
    matches the pattern, in input order, each with its normalized number. *)
Lemma validMessages_map messages :
  validMessages messages
  = map (fun m => with_phoneNumber m (Phone.normalizePhoneNumber (phoneNumber m)))
        (filter (fun m => Phone.phoneRegex_test
                            (Phone.normalizePhoneNumber (phoneNumber m)))
                messages).
Proof.
  unfold validMessages.
  induction messages as [|m t IH]; [reflexivity|].
  cbn [map filter with_phoneNumber phoneNumber].
  destruct (Phone.phoneRegex_test _); cbn [map]; rewrite IH; reflexivity.
Qed.

Lemma exc_map_Forall2 {A B} (f : A -> exc B) l l' :
  exc_map f l = Ok l' -> Forall2 (fun a b => f a = Ok b) l l'.
Proof.
  revert l'; induction l as [|a t IH]; intros l'; cbn [exc_map].
  - intros [= <-]. constructor.
  - destruct (f a) as [b|] eqn:Ea; [|discriminate].
    destruct (exc_map f t) as [bs|]; [|discriminate].
    intros [= <-]. constructor; [exact Ea | apply IH; reflexivity].
Qed.

(** [Promise.allSettled] gives the outcome of every callback, in the order
    of the callbacks. *)
Lemma allSettled_Forall2 {A} (cs : list (M Store A)) :
  forall st, exists rs st',
    allSettled cs st = (Ok rs, st')
    /\ Forall2 (fun c r => exists s, r = fst (c s)) cs rs.
Proof.
  induction cs as [|c t IH]; intros st; cbn [allSettled].
  - exists [], st. split; [reflexivity | constructor].
  - destruct (c st) as [r st1] eqn:Ec.
    destruct (IH st1) as (rs & st2 & E & HF). rewrite E.
    exists (r :: rs), st2. split; [reflexivity|].
    constructor; [|exact HF]. exists st. rewrite Ec. reflexivity.
Qed.

(** One callback of the batch: the entry it returns carries the number and
    the text of its message; it rejects only when the store rejects the
    insert of the error record. *)
Lemma send_one_outcome w cfg msg st :
  match send_one w cfg msg st with
  | (Ok r, _) => result_phoneNumber r = phoneNumber msg
                 /\ result_message r = message msg
  | (Throw e, _) => exists row, insert_answer w row = rejected e
  end.
Proof.
  cbv [send_one try_catch bind lift ret throw insert_log].
  repeat step; cbn [result_phoneNumber result_message];
    first [ split; reflexivity | eexists; eassumption ].
Qed.

Lemma send_one_entry w cfg msg st :
  match fst (send_one w cfg msg st) with
  | Ok r => result_phoneNumber r = phoneNumber msg
            /\ result_message r = message msg
  | Throw e => exists row, insert_answer w row = rejected e
  end.
Proof.
  pose proof (send_one_outcome w cfg msg st) as H.
  destruct (send_one w cfg msg st) as [[r|e] st']; exact H.
Qed.

(** The entry of the result list for an input message [m] with a valid
    number: it carries the normalized number of [m] and the processed text;
    when the store rejected the insert of the error record, it is the
    [unknown] entry of the rejected callback. *)
Definition entry_of (w : World) (m : OutMessage) (r : MessageResult) : Prop :=
  (result_phoneNumber r = Phone.normalizePhoneNumber (phoneNumber m)
   /\ exists processed,
        process_message
          w (with_phoneNumber m (Phone.normalizePhoneNumber (phoneNumber m)))
          = Ok processed
        /\ result_message r = message processed)
  \/ (exists reason row,
         insert_answer w row = rejected reason /\ r = unknown_error w reason).

Definition settled (w : World) (outcome : exc MessageResult) : MessageResult :=
  match outcome with
  | Ok v => v
  | Throw reason => unknown_error w reason
  end.

Lemma entries_in_order w cfg (valid processed : list OutMessage)
      (rs : list (exc MessageResult)) :
  Forall2 (fun a b => process_message w a = Ok b)
          (map (fun m => with_phoneNumber
                           m (Phone.normalizePhoneNumber (phoneNumber m))) valid)
          processed ->
  Forall2 (fun (c : M Store MessageResult) r => exists s, r = fst (c s))
          (map (send_one w cfg) processed) rs ->
  Forall2 (entry_of w) valid (map (settled w) rs).
Proof.
  revert processed rs.
  induction valid as [|m valid IH]; intros processed rs Hp Hs; cbn [map] in *.
  - inversion Hp; subst. cbn [map] in Hs. inversion Hs; subst. constructor.
  - inversion Hp as [|a b la lb Hab Hrest]; subst. cbn [map] in Hs.
    inversion Hs as [|c r lc lr (s & Hr) Hrest']; subst.
    cbn [map]. constructor; [|apply (IH lb lr Hrest Hrest')].
    pose proof (send_one_entry w cfg b s) as He.
    destruct (fst (send_one w cfg b s)) as [v|e]; cbn [settled].
    + left. destruct He as [Hphone Hmsg]. split.
      * rewrite Hphone.
        unfold process_message in Hab.
        destruct (match variables _ with Some _ => _ | None => _ end);
          [|discriminate].
        destruct (Sanitizer.sanitizeWhatsAppMessage _); [|discriminate].
        injection Hab as <-. reflexivity.
      * exists b. split; [exact Hab | exact Hmsg].
    + right. destruct He as [row Hrow]. exists e, row. split; [exact Hrow|].
      reflexivity.
Qed.

End DeliveryFacts.

(** C1, amended. When the batch reaches the sends (the configuration
    resolves, some number is valid and every valid message is sanitized
    without an error), [sendWhatsAppMessages] returns one entry for every
    input message whose normalized number is valid, in input order, and none
    for the others: entry [i] of the result belongs to the [i]-th valid
    message and carries its normalized number and its processed text (when
    the store rejects the insert of an error record, the entry is the
    [unknown] entry of the rejected callback). A provider that accepts every
    message gives [success] for every text message. When the batch does not
    reach the sends, the result has one [error] entry for every input
    message and nothing is written. *)
Theorem sendWhatsAppMessages_results :
  forall (w : Delivery.World) (messages : list Delivery.OutMessage)
         (userId : option jsstring) (st : Delivery.Store),
    let results := fst (Delivery.sendWhatsAppMessages w messages userId st) in
    let valid :=
      filter (fun m => Phone.phoneRegex_test
                         (Phone.normalizePhoneNumber (Delivery.phoneNumber m)))
             messages in
    (DeliveryFacts.batch_failure w messages userId st = None ->
       Forall2 (DeliveryFacts.entry_of w) valid results
       /\ length results = length valid
       /\ length results <= length messages
       /\ ((forall row reason,
               Delivery.insert_answer w row <> Delivery.rejected reason) ->
           Forall2 (fun m r =>
                      Delivery.result_phoneNumber r
                        = Phone.normalizePhoneNumber (Delivery.phoneNumber m))
                   valid results)
       /\ (DeliveryFacts.provider_accepts w ->
           (forall m, In m messages -> Delivery.media m = None) ->
           Forall2 (fun m r =>
                      Delivery.status r = Delivery.Status.success
                      /\ Delivery.result_phoneNumber r
                           = Phone.normalizePhoneNumber (Delivery.phoneNumber m))
                   valid results))
    /\ (forall e, DeliveryFacts.batch_failure w messages userId st = Some e ->
          Delivery.sendWhatsAppMessages w messages userId st
            = (map (Delivery.batch_error w e) messages, st)
          /\ length results = length messages
          /\ Forall (fun r => Delivery.status r = Delivery.Status.error) results).
Proof.
  intros w messages userId st results valid.
  subst results.
  unfold DeliveryFacts.batch_failure, Delivery.sendWhatsAppMessages,
    Delivery.send_batch, bind, Delivery.getConfig, lift, throw, ret.
  destruct (Config.getWhatsAppConfig userId (Delivery.configs st)) as [cfg|e0].
  - destruct (length (Delivery.validMessages messages) =? 0) eqn:Hz.
    + split; [discriminate|]. intros e [= <-]. cbn [fst].
      split; [reflexivity|]. split; [apply length_map|].
      apply Forall_map, Forall_forall. reflexivity.
    + destruct (exc_map (Delivery.process_message w) (Delivery.validMessages messages))
        as [processed|e1] eqn:Hp.
      * split; [|discriminate]. intros _.
        destruct (DeliveryFacts.allSettled_Forall2
                    (map (Delivery.send_one w cfg) processed) st)
          as (rs & st' & -> & Hrs).
        cbn [fst].
        change (map (fun result => match result with
                                   | Ok v => v
                                   | Throw reason => Delivery.unknown_error w reason
                                   end) rs)
          with (map (DeliveryFacts.settled w) rs).
        apply DeliveryFacts.exc_map_Forall2 in Hp.
        rewrite DeliveryFacts.validMessages_map in Hp. fold valid in Hp.
        pose proof (@DeliveryFacts.entries_in_order w cfg valid processed rs Hp Hrs)
          as Hentries.
        assert (Hlen : length (map (DeliveryFacts.settled w) rs) = length valid)
          by (symmetry; apply (Forall2_length Hentries)).
        split; [exact Hentries|]. split; [exact Hlen|]. split; [|split].
        -- rewrite Hlen. apply DeliveryFacts.filter_length_le.
        -- intros Hnever. revert Hentries. apply Forall2_impl.
           intros m r [[Hphone _] | (reason & row & Hrow & _)];
             [exact Hphone | destruct (Hnever row reason Hrow)].
        -- intros Hacc Htext.
           assert (Hnever : forall row reason,
                      Delivery.insert_answer w row <> Delivery.rejected reason).
           { intros row reason. destruct Hacc as [_ Hins]. rewrite Hins.
             discriminate. }
           assert (Hin : forall m, In m valid -> Delivery.media m = None).
           { intros m Hm. apply filter_In in Hm as [Hm _]. apply Htext, Hm. }
           clear Hentries Hlen Htext. revert processed rs Hp Hrs Hin.
           induction valid as [|m t IH]; intros processed rs Hp Hrs Hin;
             cbn [map] in Hp.
           ++ inversion Hp; subst. cbn [map] in Hrs. inversion Hrs; subst.
              constructor.
           ++ inversion Hp as [|a b la lb Hab Hrest]; subst. cbn [map] in Hrs.
              inversion Hrs as [|c r lc lr (s & Hr) Hrest']; subst.
              cbn [map]. constructor.
              ** assert (Hb : Delivery.media b = None).
                 { rewrite (DeliveryFacts.process_message_text _ _ Hab).
                   cbn [Delivery.with_phoneNumber Delivery.media].
                   apply Hin. left. reflexivity. }
                 destruct (DeliveryFacts.send_one_text_success cfg b s Hacc Hb)
                   as (v & Ev & Hv).
                 pose proof (DeliveryFacts.send_one_entry w cfg b s) as He.
                 rewrite Ev in He |- *. cbn [DeliveryFacts.settled].
                 split; [exact Hv|]. destruct He as [-> _].
                 unfold Delivery.process_message in Hab.
                 destruct (match Delivery.variables _ with
                           | Some _ => _ | None => _ end); [|discriminate].
                 destruct (Sanitizer.sanitizeWhatsAppMessage _); [|discriminate].
                 injection Hab as <-. reflexivity.
              ** apply (IH lb lr Hrest Hrest').
                 intros m' Hm'. apply Hin. right. exact Hm'.
      * split; [discriminate|]. intros e [= <-]. cbn [fst].
        split; [reflexivity|]. split; [apply length_map|].
        apply Forall_map, Forall_forall. reflexivity.
  - split; [discriminate|]. intros e [= <-]. cbn [fst].
    split; [reflexivity|]. split; [apply length_map|].
    apply Forall_map, Forall_forall. reflexivity.
Qed.

(** The amended C1 on the batch of three messages: the valid messages are
    the first and the third, and the result has their two entries, in this
    order, both [success]. *)
Lemma sendWhatsAppMessages_results_witness :
  filter (fun m => Phone.phoneRegex_test
                     (Phone.normalizePhoneNumber (Delivery.phoneNumber m)))
         DeliveryExample.batch3
    = [ DeliveryExample.text_to "+242061234567";
        DeliveryExample.text_to "+242069876543" ]
  /\ Forall2 (fun m r =>
                Delivery.status r = Delivery.Status.success
                /\ Delivery.result_phoneNumber r
                     = Phone.normalizePhoneNumber (Delivery.phoneNumber m))
             (filter (fun m => Phone.phoneRegex_test
                                 (Phone.normalizePhoneNumber (Delivery.phoneNumber m)))
                     DeliveryExample.batch3)
             (fst (Delivery.sendWhatsAppMessages
                     (DeliveryExample.world true) DeliveryExample.batch3
                     (Some (js "u1")) DeliveryExample.store)).
Proof.
  split; [vm_compute; reflexivity|].
  destruct (proj1 (sendWhatsAppMessages_results
                     (DeliveryExample.world true) DeliveryExample.batch3
                     (Some (js "u1")) DeliveryExample.store))
    as (_ & _ & _ & _ & Hok).
  - vm_compute. reflexivity.
  - apply Hok.
    + split.
      * intros pid token payload. exists DeliveryExample.provider_ok.
        split; reflexivity.
      * intros row. reflexivity.
    + intros m [<- | [<- | [<- | []]]]; reflexivity.
Defined.

(** ** Reasoning on computations *)

Section MonadFacts.

Context {S : Type}.

(** [returns c Q]: whenever [c] returns a value, the value satisfies [Q]. *)
Definition returns {A} (c : M S A) (Q : A -> Prop) : Prop :=
  forall st, match c st with
             | (Ok a, _) => Q a
             | (Throw _, _) => True
             end.


Lemma bind_run {A B} (c : M S A) (k : A -> M S B) st :
  bind c k st = match c st with
                | (Ok a, st') => k a st'
                | (Throw e, st') => (Throw e, st')
                end.
Proof. reflexivity. Qed.

Lemma returns_ret {A} (a : A) (Q : A -> Prop) : Q a -> returns (ret a) Q.
Proof. intros H st. exact H. Qed.

Lemma returns_bind {A B} (c : M S A) (k : A -> M S B) (Q : B -> Prop) :
  (forall a, returns (k a) Q) -> returns (bind c k) Q.
Proof.
  intros Hk st. unfold bind.
  destruct (c st) as [[a|e] st1]; [apply Hk | exact I].
Qed.

Lemma returns_bind_lift {A B} (r : exc A) (k : A -> M S B) (Q : B -> Prop) :
  (forall a, r = Ok a -> returns (k a) Q) -> returns (bind (lift r) k) Q.
Proof.
  intros Hk st. unfold bind, lift.
  destruct r as [a|e]; [apply (Hk a eq_refl) | exact I].
Qed.






End MonadFacts.

(** ** Responder *)

Module ResponderFacts.

Import Responder.

Local Open Scope monad_scope.

(** What a reply of the [try] block looks like. *)
Definition reply_of (w : World) (message : Message) (reply : Message) : Prop :=
  sender reply = bot /\ phoneNumber reply = phoneNumber message
  /\ (content reply = generation_fallback
      \/ content reply = image_fallback
      \/ (truthy (content reply) = true
          /\ exists groq request,
               chat_completion w groq request = Ok (Some (content reply)))).

Lemma reply_of_completion w message groq request completion fallback :
  chat_completion w groq request = Ok completion ->
  fallback = generation_fallback \/ fallback = image_fallback ->
  reply_of w message (bot_reply message (or_else completion fallback)).
Proof.
  intros Hc Hf. unfold reply_of. cbn [sender phoneNumber content bot_reply].
  split; [reflexivity|]. split; [reflexivity|].
  destruct completion as [c|]; cbn [or_else].
  - destruct (truthy c) eqn:Ht.
    + right; right. split; [exact Ht|]. exists groq, request. exact Hc.
    + destruct Hf as [Hf | Hf]; [left | right; left]; exact Hf.
  - destruct Hf as [Hf | Hf]; [left | right; left]; exact Hf.
Qed.

(** A reply the [try] block returns is a bot message for the same number;
    its text is a completion of the model, or the fixed text that stands
    for an empty completion. *)
Lemma process_body_reply w message :
  returns (process_body w message) (reply_of w message).
Proof.
  unfold process_body.
  do 5 (apply returns_bind; intros ?).
  destruct (truthy_opt (imageUrl message)).
  - apply returns_bind; intros analysis.
    apply returns_bind_lift; intros completion Hc.
    apply returns_bind; intros _. apply returns_ret.
    eapply reply_of_completion; [exact Hc | right; reflexivity].
  - apply returns_bind; intros analysis.
    apply returns_bind_lift; intros completion Hc.
    apply returns_bind; intros _. apply returns_ret.
    eapply reply_of_completion; [exact Hc | left; reflexivity].
Qed.

Section ModelDown.

Variable w : World.
Hypothesis down :
  forall groq request, exists e, chat_completion w groq request = Throw e.




End ModelDown.

(** In the webhook handler only the empty completion is replaced: a
    rejected completion call leaves the [try] block. *)
Lemma handler_respond_outcomes w userId text chatbotType groq :
  createGroqClient w userId = Ok groq ->
  (forall e,
      (forall request, chat_completion w groq request = Throw e) ->
      handler_respond w userId text chatbotType = Throw e)
  /\ ((forall request, chat_completion w groq request = Ok None) ->
      handler_respond w userId text chatbotType = Ok generation_fallback).
Proof.
  intros Hg. unfold handler_respond. rewrite Hg. split.
  - intros e H. rewrite H. reflexivity.
  - intros H. rewrite H. reflexivity.
Qed.

(** The reply of [processCustomerMessage], whatever the collaborators do. *)
Lemma processCustomerMessage_reply w message st :
  exists reply st',
    processCustomerMessage w message st = (Ok reply, st')
    /\ sender reply = bot /\ phoneNumber reply = phoneNumber message
    /\ (content reply = technical_fallback
        \/ content reply = generation_fallback
        \/ content reply = image_fallback
        \/ (truthy (content reply) = true
            /\ exists groq request,
                 chat_completion w groq request = Ok (Some (content reply)))).
Proof.
  unfold processCustomerMessage, try_catch.
  pose proof (process_body_reply w message st) as Hr.
  destruct (process_body w message st) as [[reply|e] st'].
  - exists reply, st'. split; [reflexivity|].
    destruct Hr as (Hs & Hp & Hc).
    split; [exact Hs|]. split; [exact Hp|]. right. exact Hc.
  - exists (bot_reply message technical_fallback), st'.
    split; [reflexivity|]. split; [reflexivity|]. split; [reflexivity|].
    left. reflexivity.
Qed.

End ResponderFacts.

Module ResponderExample.

Import Responder.

(** A student known to the store, with the user whose Groq configuration
    answers for them. *)
Definition store : Store :=
  {| student_profiles :=
       [ {| id := js "s1"; phone_number := js "+242061234567";
            user_id := Some (js "u1"); level := js "3ème";
            last_active_at := None |} ];
     profils_utilisateurs := [];
     user_groq_config := [ {| groq_user_id := js "u1" |} ];
     customer_conversations := [];
     education_analytics := [] |}.

Definition question : Message :=
  {| phoneNumber := js "+242061234567"; content := js "Pythagore ?";
     sender := user; imageUrl := None |}.

(** Collaborators that all answer; the model gives [answer] to the
    teacher prompt, or rejects every call when [answer] is [None]. *)
Definition world (answer : option jsstring) : World :=
  {| checkSubscriptionStatus := fun _ => Ok true;
     createGroqClient := fun uid => Ok uid;
     chat_completion := fun _ request =>
       match answer with
       | None => Throw (js "Service Unavailable")
       | Some text =>
           match system request with
           | analyst_of_message | analyst_of_image => Ok (Some (js "{}"))
           | _ => Ok (Some text)
           end
       end;
     parse_analysis := fun _ => Ok empty_analysis;
     now := 1000;
     elapsed_seconds := 2;
     new_profile_id := js "s2";
     profile_insert_error := None;
     conversation_written := fun _ => true;
     analytics_written := fun _ => true;
     activity_written := fun _ => true |}.


Definition long_answer : jsstring := repeat 97%N 5000.

End ResponderExample.


Module FallbackFacts.

Import Responder.

Local Open Scope monad_scope.

Lemma write_run (written : bool) (f : Store -> Store) (st : Store) :
  write written f st = (Ok tt, snd (write written f st)).
Proof. destruct written; reflexivity. Qed.


(** The run of the [try] block up to the step that saves the incoming
    message, for a sender whose profile, user and client are found. *)
Lemma process_body_found w m st has student st1 userId groq :
  checkSubscriptionStatus w (phoneNumber m) = Ok has ->
  getOrCreateStudentProfile w (phoneNumber m) st = (Ok student, st1) ->
  resolve_user student (phoneNumber m) st1 = (Ok userId, st1) ->
  createGroqClient w userId = Ok groq ->
  process_body w m st
  = (if truthy_opt (imageUrl m) then
       let url := or_else (imageUrl m) [] in
       analysis <- analyzeStudentImage w url (id student) ;;
       completion <- lift (chat_completion w groq
                             (teacher_image_request student analysis url)) ;;
       let response := or_else completion image_fallback in
       let botResponse := bot_reply m response in
       save_reply w botResponse analysis ;;;
       ret botResponse
     else
       analysis <- analyzeStudentMessage w (content m) (id student) ;;
       completion <- lift (chat_completion w groq
                             (teacher_request student analysis m)) ;;
       let response := or_else completion generation_fallback in
       let botResponse := bot_reply m response in
       save_reply w botResponse analysis ;;;
       ret botResponse)
      (snd (write (conversation_written w (inbound_row m))
                  (add_conversation (inbound_row m)) st1)).
Proof.
  intros Hsub Hprofile Huser Hgroq. unfold process_body.
  rewrite bind_run. unfold lift at 1. rewrite Hsub.
  rewrite bind_run, Hprofile.
  rewrite bind_run, Huser.
  rewrite bind_run. unfold lift at 1. rewrite Hgroq.
  rewrite bind_run, write_run. reflexivity.
Qed.



End FallbackFacts.



Module TruncationFacts.

Import Responder.

Definition no_bracket (s : jsstring) : bool :=
  forallb (fun c => negb (c =? 60)%N) s.

Lemma script_guard c t : (c =? 60)%N = false -> match_script (c :: t) = None.
Proof.
  intros H. unfold match_script.
  assert (E : startsWith_ci (js "<script") (c :: t) = false).
  { change (js "<script") with (60%N :: js "script").
    cbn [startsWith_ci]. rewrite N.eqb_sym, H. reflexivity. }
  rewrite E. reflexivity.
Qed.

Lemma strip_markup_id s :
  no_bracket s = true ->
  replace_global match_tag [] (replace_global match_script [] s) = s.
Proof.
  intros H.
  rewrite (replace_global_id match_script (fun c => (c =? 60)%N) script_guard _ _ H).
  apply (replace_global_id match_tag (fun c => (c =? 60)%N)
                           SanitizerFacts.tag_guard _ _ H).
Qed.

Definition truncated (response : jsstring) : jsstring :=
  if 4000 <? length response
  then substring_to 3997 response ++ js "..."
  else response.

Lemma response_truncated_length response : length (truncated response) <= 4000.
Proof.
  unfold truncated, substring_to.
  destruct (Nat.ltb_spec 4000 (length response)) as [Hlt|Hle]; [|exact Hle].
  rewrite length_app, length_firstn. change (length (js "...")) with 3. lia.
Qed.

Lemma sanitizedResponse_length response :
  length (sanitizedResponse response) <= 4000.
Proof.
  unfold sanitizedResponse. fold (truncated response).
  etransitivity; [apply trim_length|].
  unfold replace_global.
  etransitivity; [apply replace_from_erase_length|].
  etransitivity; [apply replace_from_erase_length|].
  apply response_truncated_length.
Qed.

Lemma trimStart_head c t : is_space c = false -> trimStart (c :: t) = c :: t.
Proof. intros H. cbn [trimStart]. rewrite H. reflexivity. Qed.

Lemma trimEnd_last y d : is_space d = false -> trimEnd (y ++ [d]) = y ++ [d].
Proof.
  intros H. unfold trimEnd. rewrite rev_app_distr. cbn [rev app].
  rewrite (@trimStart_head d (rev y) H). cbn [rev].
  rewrite rev_involutive. reflexivity.
Qed.

Lemma trim_dots c t :
  is_space c = false -> trim ((c :: t) ++ js "...") = (c :: t) ++ js "...".
Proof.
  intros H. unfold trim.
  rewrite <- app_comm_cons. rewrite (@trimStart_head c (t ++ js "...") H).
  rewrite app_comm_cons.
  change (js "...") with ([46%N; 46%N] ++ [46%N]).
  rewrite app_assoc. apply trimEnd_last. reflexivity.
Qed.

Lemma forallb_firstn {A} (f : A -> bool) n l :
  forallb f l = true -> forallb f (firstn n l) = true.
Proof.
  revert l; induction n as [|n IH]; intros [|a l]; cbn [firstn forallb]; auto.
  intros H. apply andb_true_iff in H as [Ha Hl]. rewrite Ha. cbn [andb]. auto.
Qed.

(** A scan that has [k] code units of a match left resumes after them. *)
Lemma replace_from_resume m rep k (s : jsstring) :
  replace_from m rep k s = replace_from m rep 0 (skipn k s).
Proof.
  revert k; induction s as [|c t IH]; intros k.
  - destruct k; reflexivity.
  - destruct k as [|k]; [reflexivity|]. cbn [replace_from skipn]. apply IH.
Qed.

(** A matcher that needs an opening bracket passes over text without one. *)
Lemma replace_from_keep (m : jsstring -> option nat) rep (a rest : jsstring) :
  (forall (c : codeunit) (t : jsstring),
      (c =? 60)%N = false -> m (c :: t) = None) ->
  no_bracket a = true ->
  replace_from m rep 0 (a ++ rest) = a ++ replace_from m rep 0 rest.
Proof.
  intros Hguard. induction a as [|c a IH]; intros Ha; [reflexivity|].
  cbn [no_bracket forallb] in Ha. apply andb_true_iff in Ha as [Hc Ha].
  apply negb_true_iff in Hc.
  cbn [app replace_from]. rewrite (Hguard c (a ++ rest) Hc).
  f_equal. apply IH, Ha.
Qed.

Lemma replace_from_erase_in m k (s : jsstring) x :
  In x (replace_from m [] k s) -> In x s.
Proof.
  revert k; induction s as [|c t IH]; intros k; cbn [replace_from].
  - intros [].
  - destruct k as [|k].
    + destruct (m (c :: t)) as [[|n]|]; cbn [app].
      * intros [<- | H]; [left; reflexivity | right; apply (IH 0), H].
      * intros H. right. apply (IH n), H.
      * intros [<- | H]; [left; reflexivity | right; apply (IH 0), H].
    + intros H. right. apply (IH k), H.
Qed.

Lemma index_of_none p (s : jsstring) x :
  index_of p s = None -> In x s -> p x = false.
Proof.
  induction s as [|c t IH]; cbn [index_of]; [intros _ []|].
  destruct (p c) eqn:Hc; [discriminate|].
  destruct (index_of p t); [discriminate|].
  intros _ [<- | H]; [exact Hc | apply IH; [reflexivity | exact H]].
Qed.

(** After the tags are removed, no opening bracket is followed by a closing
    one. *)
Lemma no_tag_left (s : jsstring) :
  forall k before after,
    replace_from match_tag [] k s = before ++ 60%N :: after ->
    ~ In 62%N after.
Proof.
  induction s as [|c t IH]; intros k before after; cbn [replace_from].
  - destruct before; discriminate.
  - destruct k as [|k]; [|apply IH].
    destruct (match_tag (c :: t)) as [[|n]|] eqn:Hm; cbn [app].
    + unfold match_tag in Hm. destruct (c =? 60)%N; [|discriminate].
      destruct (index_of _ t); cbn [option_map] in Hm; [|discriminate].
      injection Hm as Hm. lia.
    + apply IH.
    + destruct before as [|b before]; cbn [app].
      * intros [= -> <-]. unfold match_tag in Hm. cbn [N.eqb Pos.eqb] in Hm.
        destruct (index_of (fun x => (x =? 62)%N) t) eqn:Hi;
          [discriminate|].
        intros Hin. apply replace_from_erase_in in Hin.
        pose proof (index_of_none _ _ _ Hi Hin) as H. discriminate H.
      * intros [= _ E]. exact (IH 0 before after E).
Qed.

Lemma trimStart_nonspace s c t : trimStart s = c :: t -> is_space c = false.
Proof.
  induction s as [|a s IH]; cbn [trimStart]; [discriminate|].
  destruct (is_space a) eqn:Ha; [exact IH|].
  intros [= <- _]. exact Ha.
Qed.

Lemma trimStart_suffix s : exists a, s = a ++ trimStart s.
Proof.
  induction s as [|c s (a & IH)]; [exists []; reflexivity|].
  cbn [trimStart]. destruct (is_space c).
  - exists (c :: a). cbn [app]. f_equal. exact IH.
  - exists []. reflexivity.
Qed.

Lemma trimEnd_prefix s : exists b, s = trimEnd s ++ b.
Proof.
  destruct (trimStart_suffix (rev s)) as (a & E).
  exists (rev a). unfold trimEnd. rewrite <- rev_app_distr, <- E.
  symmetry. apply rev_involutive.
Qed.

(** The trimmed text has no white space at either end, and is a part of
    the text. *)
Lemma trim_head s c t : trim s = c :: t -> is_space c = false.
Proof.
  unfold trim. intros E.
  destruct (trimEnd_prefix (trimStart s)) as (b & Hb).
  rewrite E in Hb. cbn [app] in Hb.
  exact (trimStart_nonspace _ Hb).
Qed.

Lemma trim_last s t c : trim s = t ++ [c] -> is_space c = false.
Proof.
  unfold trim, trimEnd. intros E.
  apply (f_equal (@rev codeunit)) in E.
  rewrite rev_involutive, rev_app_distr in E. cbn [rev app] in E.
  exact (trimStart_nonspace _ E).
Qed.

Lemma trim_infix s : exists a b, s = a ++ trim s ++ b.
Proof.
  destruct (trimStart_suffix s) as (a & Ha).
  destruct (trimEnd_prefix (trimStart s)) as (b & Hb).
  exists a, b. unfold trim. rewrite <- Hb. exact Ha.
Qed.

(** The body of a script block ends at the first closing tag. *)
Lemma startsWith_ci_bracket pat c t :
  startsWith_ci (60%N :: pat) (c :: t) = true -> c = 60%N.
Proof.
  cbn [startsWith_ci]. intros H. apply andb_true_iff in H as [H _].
  apply orb_true_iff in H as [H | H]; [|discriminate H].
  apply N.eqb_eq in H. symmetry. exact H.
Qed.

Lemma script_body_bracket v j : script_body v = Some j -> In 60%N v.
Proof.
  revert j; induction v as [|c v IH]; intros j; cbn [script_body].
  - change (startsWith_ci (js "</script>") []) with false. discriminate.
  - destruct (startsWith_ci (js "</script>") (c :: v)) eqn:Hs.
    + intros _. left.
      exact (startsWith_ci_bracket (js "/script>") c v Hs).
    + destruct (is_line_terminator c); [discriminate|].
      destruct (script_body v) as [k|]; [|discriminate].
      intros _. right. apply (IH k). reflexivity.
Qed.

Lemma in_skipn {A} (x : A) n l : In x (skipn n l) -> In x l.
Proof.
  revert l; induction n as [|n IH]; intros [|a l]; cbn [skipn]; auto.
  intros H. right. apply IH, H.
Qed.

(** A script block needs a closing tag, hence a second opening bracket. *)
Lemma match_script_needs_close c t :
  ~ In 60%N t -> match_script (c :: t) = None.
Proof.
  intros Hno. unfold match_script.
  destruct (startsWith_ci (js "<script") (c :: t)); [|reflexivity].
  cbv zeta. change (skipn 7 (c :: t)) with (skipn 6 t).
  destruct (index_of _ (skipn 6 t)) as [i|]; [|reflexivity].
  destruct (script_body _) as [j|] eqn:Hb; [|reflexivity].
  exfalso. apply Hno.
  apply script_body_bracket in Hb. apply in_skipn in Hb. apply in_skipn in Hb.
  exact Hb.
Qed.

Lemma no_bracket_not_in s : no_bracket s = true -> ~ In 60%N s.
Proof.
  unfold no_bracket. intros H Hin.
  rewrite forallb_forall in H. specialize (H _ Hin). discriminate H.
Qed.

Lemma script_body_plain body rest :
  no_bracket body = true ->
  forallb (fun c => negb (is_line_terminator c)) body = true ->
  script_body (body ++ js "</script>" ++ rest) = Some (length body).
Proof.
  induction body as [|c body IH]; intros Hb Hl.
  - reflexivity.
  - cbn [no_bracket forallb] in Hb, Hl.
    apply andb_true_iff in Hb as [Hc Hb]. apply andb_true_iff in Hl as [Hc' Hl].
    apply negb_true_iff in Hc, Hc'.
    cbn [app script_body].
    assert (E : startsWith_ci (js "</script>")
                              (c :: body ++ js "</script>" ++ rest) = false).
    { change (js "</script>") with (60%N :: js "/script>").
      cbn [startsWith_ci]. rewrite N.eqb_sym, Hc. reflexivity. }
    rewrite E, Hc'. unfold no_bracket in IH. rewrite (IH Hb Hl). reflexivity.
Qed.

(** The script pass removes a script block and its body. *)
Lemma strip_script_block a body b :
  no_bracket a = true -> no_bracket body = true -> no_bracket b = true ->
  forallb (fun c => negb (is_line_terminator c)) body = true ->
  replace_global match_script []
                 (a ++ js "<script>" ++ body ++ js "</script>" ++ b)
  = a ++ b.
Proof.
  intros Ha Hbody Hb Hl. unfold replace_global.
  rewrite (replace_from_keep match_script [] a _ script_guard Ha). f_equal.
  assert (Hm : match_script (js "<script>" ++ body ++ js "</script>" ++ b)
               = Some (S (length (js "script>" ++ body ++ js "</script>")))).
  { unfold match_script.
    change (startsWith_ci (js "<script")
                          (js "<script>" ++ body ++ js "</script>" ++ b))
      with true.
    change (skipn 7 (js "<script>" ++ body ++ js "</script>" ++ b))
      with (62%N :: body ++ js "</script>" ++ b).
    cbn [index_of N.eqb Pos.eqb skipn].
    rewrite (script_body_plain body b Hbody Hl).
    f_equal. rewrite !length_app.
    change (length (js "script>")) with 7.
    change (length (js "</script>")) with 9. lia. }
  change (js "<script>" ++ body ++ js "</script>" ++ b)
    with (60%N :: js "script>" ++ body ++ js "</script>" ++ b) in *.
  cbn [replace_from]. rewrite Hm. cbn [app].
  rewrite replace_from_resume.
  replace (js "script>" ++ body ++ js "</script>" ++ b)
    with ((js "script>" ++ body ++ js "</script>") ++ b)
    by (rewrite <- !app_assoc; reflexivity).
  rewrite skipn_app, Nat.sub_diag, skipn_all. cbn [skipn app].
  apply (replace_global_id match_script (fun c => (c =? 60)%N) script_guard _ _ Hb).
Qed.

(** The script pass leaves a lone tag alone, and the tag pass removes it. *)
Lemma strip_lone_tag a g b :
  no_bracket a = true -> no_bracket g = true -> no_bracket b = true ->
  forallb (fun c => negb (c =? 62)%N) g = true ->
  replace_global match_tag []
    (replace_global match_script [] (a ++ 60%N :: g ++ 62%N :: b))
  = a ++ b.
Proof.
  intros Ha Hg Hb Hclose.
  assert (Hrest : no_bracket (g ++ 62%N :: b) = true).
  { unfold no_bracket in *. rewrite forallb_app.
    apply andb_true_iff. split; [exact Hg|]. cbn [forallb].
    apply andb_true_iff. split; [reflexivity | exact Hb]. }
  assert (E1 : replace_global match_script [] (a ++ 60%N :: g ++ 62%N :: b)
               = a ++ 60%N :: g ++ 62%N :: b).
  { unfold replace_global.
    rewrite (replace_from_keep match_script [] a _ script_guard Ha). f_equal.
    cbn [replace_from].
    rewrite (@match_script_needs_close
               60%N (g ++ 62%N :: b)
               (@no_bracket_not_in (g ++ 62%N :: b) Hrest)).
    f_equal.
    apply (replace_global_id match_script (fun c => (c =? 60)%N)
                             script_guard _ _ Hrest). }
  rewrite E1. unfold replace_global.
  rewrite (replace_from_keep match_tag [] a _ SanitizerFacts.tag_guard Ha).
  f_equal.
  assert (Hi : index_of (fun x => (x =? 62)%N) (g ++ 62%N :: b)
               = Some (length g)).
  { clear - Hclose. induction g as [|c g IH]; [reflexivity|].
    cbn [forallb] in Hclose. apply andb_true_iff in Hclose as [Hc Hclose].
    apply negb_true_iff in Hc. cbn [app index_of length].
    rewrite Hc, (IH Hclose). reflexivity. }
  cbn [replace_from]. unfold match_tag. cbn [N.eqb Pos.eqb].
  rewrite Hi. cbn [option_map].
  replace (length g + 2) with (S (S (length g))) by lia. cbn [app].
  rewrite replace_from_resume.
  replace (g ++ 62%N :: b) with ((g ++ [62%N]) ++ b)
    by (rewrite <- app_assoc; reflexivity).
  replace (S (length g)) with (length (g ++ [62%N]))
    by (rewrite length_app; cbn [length]; lia).
  rewrite skipn_app, Nat.sub_diag, skipn_all. cbn [skipn app].
  apply (replace_global_id match_tag (fun c => (c =? 60)%N)
                           SanitizerFacts.tag_guard _ _ Hb).
Qed.

End TruncationFacts.

(** C6, as stated, fails on both responders: the text that the api-chatbot
    endpoint computes for a reply of 4050 code units (and for one of 5000)
    has 4000 code units, and [processCustomerMessage] returns a reply of 5000
    code units as it is. *)
Lemma responder_truncation_differs :
  length (Responder.sanitizedResponse (repeat 97%N 4050)) = 4000
  /\ length (Responder.sanitizedResponse ResponderExample.long_answer) = 4000
  /\ (exists reply,
         fst (Responder.processCustomerMessage
                (ResponderExample.world (Some ResponderExample.long_answer))
                ResponderExample.question ResponderExample.store) = Ok reply
         /\ Responder.content reply = ResponderExample.long_answer
         /\ length (Responder.content reply) = 5000).
Proof.
  split; [vm_compute; reflexivity|]. split; [vm_compute; reflexivity|].
  eexists. split; [vm_compute; reflexivity|]. split; vm_compute; reflexivity.
Qed.

(** C6, amended. The api-chatbot endpoint computes the text of its reply in
    three steps: a response longer than 4000 code units is cut to its first
    3997 code units followed by the three-character marker; script blocks
    and tags are removed; the text is trimmed. So the text never exceeds
    4000 code units, has no white space at either end, and has no opening
    bracket that a closing bracket follows; the text for a response longer
    than 4000 code units is the text for its cut. On a response without an
    opening bracket the text is the trimmed cut when the response is longer
    than 4000 code units, and the trimmed response otherwise; a script block
    is removed with its body and a tag without its surroundings.
    [processCustomerMessage] does not cut: a reply that is not one of its
    fixed texts is a completion of the model, whatever its length. *)
Theorem responder_truncation :
  (forall response : jsstring,
      length (Responder.sanitizedResponse response) <= 4000
      /\ (4000 < length response ->
          TruncationFacts.no_bracket response = true ->
          Responder.sanitizedResponse response
            = trim (substring_to 3997 response ++ js "...")
          /\ (trimStart response = response ->
              Responder.sanitizedResponse response
                = substring_to 3997 response ++ js "..."
              /\ length (Responder.sanitizedResponse response) = 4000))
      /\ (length response <= 4000 ->
          TruncationFacts.no_bracket response = true ->
          Responder.sanitizedResponse response = trim response
          /\ (trim response = response ->
              Responder.sanitizedResponse response = response))
      /\ (forall c t, Responder.sanitizedResponse response = c :: t ->
                      is_space c = false)
      /\ (forall t c, Responder.sanitizedResponse response = t ++ [c] ->
                      is_space c = false)
      /\ (forall before after,
             Responder.sanitizedResponse response = before ++ 60%N :: after ->
             ~ In 62%N after)
      /\ (4000 < length response ->
          Responder.sanitizedResponse response
            = Responder.sanitizedResponse
                (substring_to 3997 response ++ js "...")))
  /\ (forall a body b : jsstring,
         TruncationFacts.no_bracket a = true ->
         TruncationFacts.no_bracket body = true ->
         TruncationFacts.no_bracket b = true ->
         forallb (fun c => negb (is_line_terminator c)) body = true ->
         length (a ++ js "<script>" ++ body ++ js "</script>" ++ b) <= 4000 ->
         Responder.sanitizedResponse
           (a ++ js "<script>" ++ body ++ js "</script>" ++ b)
         = trim (a ++ b))
  /\ (forall a g b : jsstring,
         TruncationFacts.no_bracket a = true ->
         TruncationFacts.no_bracket g = true ->
         TruncationFacts.no_bracket b = true ->
         forallb (fun c => negb (c =? 62)%N) g = true ->
         length (a ++ 60%N :: g ++ 62%N :: b) <= 4000 ->
         Responder.sanitizedResponse (a ++ 60%N :: g ++ 62%N :: b)
         = trim (a ++ b))
  /\ (forall (w : Responder.World) (message : Responder.Message)
             (st : Responder.Store),
         exists reply st',
           Responder.processCustomerMessage w message st = (Ok reply, st')
           /\ (Responder.content reply = Responder.technical_fallback
               \/ Responder.content reply = Responder.generation_fallback
               \/ Responder.content reply = Responder.image_fallback
               \/ exists groq request,
                    Responder.chat_completion w groq request
                      = Ok (Some (Responder.content reply)))).
Proof.
  split; [|split; [|split]].
  - intros response. split; [apply TruncationFacts.sanitizedResponse_length|].
    split; [|split; [|split; [|split; [|split]]]].
    + intros Hlen Hnb.
      assert (E : Responder.sanitizedResponse response
                  = trim (substring_to 3997 response ++ js "...")).
      { unfold Responder.sanitizedResponse.
        destruct (Nat.ltb_spec 4000 (length response)) as [_|Hle]; [|lia].
        rewrite TruncationFacts.strip_markup_id; [reflexivity|].
        unfold TruncationFacts.no_bracket, substring_to in *.
        rewrite forallb_app, TruncationFacts.forallb_firstn by exact Hnb.
        reflexivity. }
      split; [exact E|]. intros Hstart.
      assert (E' : Responder.sanitizedResponse response
                   = substring_to 3997 response ++ js "...").
      { rewrite E.
        destruct response as [|c t]; [cbn [length] in Hlen; lia|].
        assert (Hc : is_space c = false).
        { destruct (is_space c) eqn:Hs; [|reflexivity].
          cbn [trimStart] in Hstart. rewrite Hs in Hstart.
          pose proof (trimStart_length t) as Hl.
          rewrite Hstart in Hl. cbn [length] in Hl. lia. }
        change (substring_to 3997 (c :: t)) with (c :: firstn 3996 t).
        apply TruncationFacts.trim_dots, Hc. }
      split; [exact E'|]. rewrite E'. unfold substring_to.
      rewrite length_app, length_firstn. change (length (js "...")) with 3. lia.
    + intros Hlen Hnb.
      assert (E : Responder.sanitizedResponse response = trim response).
      { unfold Responder.sanitizedResponse.
        destruct (Nat.ltb_spec 4000 (length response)) as [Hlt|_]; [lia|].
        rewrite TruncationFacts.strip_markup_id by exact Hnb. reflexivity. }
      split; [exact E|]. intros Htrim. rewrite E. exact Htrim.
    + intros c t. unfold Responder.sanitizedResponse.
      apply TruncationFacts.trim_head.
    + intros t c. unfold Responder.sanitizedResponse.
      apply TruncationFacts.trim_last.
    + intros before after E. unfold Responder.sanitizedResponse in E.
      match type of E with
      | trim ?x = _ =>
          destruct (TruncationFacts.trim_infix x) as (a & b & Hx);
          rewrite E in Hx
      end.
      unfold replace_global in Hx. intros Hin.
      assert (Hx' : a ++ (before ++ 60%N :: after) ++ b
                    = (a ++ before) ++ 60%N :: (after ++ b)).
      { rewrite <- !app_assoc. reflexivity. }
      apply (@TruncationFacts.no_tag_left _ 0 (a ++ before) (after ++ b)
                                          (eq_trans Hx Hx')).
      apply in_or_app. left. exact Hin.
    + intros Hlen. unfold Responder.sanitizedResponse.
      destruct (Nat.ltb_spec 4000 (length response)) as [_|Hle]; [|lia].
      assert (Hcut : length (substring_to 3997 response ++ js "...") = 4000).
      { unfold substring_to. rewrite length_app, length_firstn.
        change (length (js "...")) with 3. lia. }
      destruct (Nat.ltb_spec
                  4000 (length (substring_to 3997 response ++ js "...")))
        as [Hlt|_]; [lia | reflexivity].
  - intros a body b Ha Hbody Hb Hl Hlen. unfold Responder.sanitizedResponse.
    destruct (Nat.ltb_spec
                4000 (length (a ++ js "<script>" ++ body ++ js "</script>" ++ b)))
      as [Hlt|_]; [lia|].
    rewrite (TruncationFacts.strip_script_block a body b Ha Hbody Hb Hl).
    rewrite (replace_global_id match_tag (fun c => (c =? 60)%N)
                               SanitizerFacts.tag_guard); [reflexivity|].
    unfold TruncationFacts.no_bracket in *. rewrite forallb_app.
    apply andb_true_iff. split; assumption.
  - intros a g b Ha Hg Hb Hclose Hlen. unfold Responder.sanitizedResponse.
    destruct (Nat.ltb_spec 4000 (length (a ++ 60%N :: g ++ 62%N :: b)))
      as [Hlt|_]; [lia|].
    rewrite (TruncationFacts.strip_lone_tag a g b Ha Hg Hb Hclose). reflexivity.
  - intros w message st.
    destruct (ResponderFacts.processCustomerMessage_reply w message st)
      as (reply & st' & E & _ & _ & Hc).
    exists reply, st'. split; [exact E|].
    destruct Hc as [H | [H | [H | [_ H]]]];
      [left; exact H | right; left; exact H | right; right; left; exact H
      | right; right; right; exact H].
Qed.

(** The amended C6 on a reply of 5000 letters [a]. *)
Lemma responder_truncation_witness :
  Responder.sanitizedResponse ResponderExample.long_answer
    = substring_to 3997 ResponderExample.long_answer ++ js "..."
  /\ length (Responder.sanitizedResponse ResponderExample.long_answer) = 4000.
Proof.
  assert (Hlen : 4000 < length ResponderExample.long_answer).
  { unfold ResponderExample.long_answer. rewrite repeat_length. lia. }
  assert (Hnb : TruncationFacts.no_bracket ResponderExample.long_answer = true)
    by (vm_compute; reflexivity).
  exact (proj2 (proj1 (proj2 (proj1 responder_truncation
                                    ResponderExample.long_answer))
                      Hlen Hnb)
               eq_refl).
Defined.

(* ===================================================================== *)
(** * Further properties of the sanitizer *)
(* ===================================================================== *)

Unset Implicit Arguments.

Module SpacingFacts.

Import Sanitizer.

(** [well_spaced after_space s]: every white-space code unit of [s] is a
    space, no two spaces are adjacent, [s] does not end with a space and,
    when [after_space] holds, does not begin with one. [no_runs] is the same
    without the condition on the end. *)
Fixpoint well_spaced (after_space : bool) (s : jsstring) : bool :=
  match s with
  | [] => negb after_space
  | c :: t =>
      if is_space c
      then (c =? 32)%N && negb after_space && well_spaced true t
      else well_spaced false t
  end.

Fixpoint no_runs (after_space : bool) (s : jsstring) : bool :=
  match s with
  | [] => true
  | c :: t =>
      if is_space c
      then (c =? 32)%N && negb after_space && no_runs true t
      else no_runs false t
  end.

(** Text the sanitizer has nothing to do on: no angle bracket, no ampersand,
    single spaces between words only. *)
Definition tidy (s : jsstring) : bool :=
  forallb (fun c => negb (is_angle c || (c =? 38)%N)) s && well_spaced true s.

Lemma replace_from_skip m rep k s :
  replace_from m rep k s = replace_from m rep 0 (skipn k s).
Proof.
  revert k; induction s as [|c t IH]; intros k.
  - destruct k; reflexivity.
  - destruct k as [|k]; [reflexivity|]. cbn [replace_from skipn]. apply IH.
Qed.

Definition collapse (s : jsstring) : jsstring :=
  replace_global match_spaces (js " ") s.

Lemma collapse_space c t :
  is_space c = true ->
  collapse (c :: t) = 32%N :: collapse (skipn (run_length is_space t) t).
Proof.
  intros Hc. unfold collapse, replace_global. cbn [replace_from].
  unfold match_spaces. cbn [run_length]. rewrite Hc.
  rewrite replace_from_skip. reflexivity.
Qed.

Lemma collapse_other c t :
  is_space c = false -> collapse (c :: t) = c :: collapse t.
Proof.
  intros Hc. unfold collapse, replace_global. cbn [replace_from].
  unfold match_spaces. cbn [run_length]. rewrite Hc. reflexivity.
Qed.

Lemma skip_run_length t :
  length (skipn (run_length is_space t) t) <= length t.
Proof. rewrite length_skipn. lia. Qed.

Lemma skip_run_head t :
  match skipn (run_length is_space t) t with
  | [] => True
  | d :: _ => is_space d = false
  end.
Proof.
  induction t as [|c t IH]; cbn [run_length]; [exact I|].
  destruct (is_space c) eqn:Hc; cbn [skipn]; [exact IH | exact Hc].
Qed.

(** Collapsing leaves single spaces only. *)
Lemma collapse_no_runs s : no_runs false (collapse s) = true.
Proof.
  remember (length s) as n eqn:Hn.
  assert (Hle : length s <= n) by lia. clear Hn.
  revert s Hle; induction n as [|n IH]; intros s Hle.
  - destruct s; [reflexivity | cbn [length] in Hle; lia].
  - destruct s as [|c t]; [reflexivity|]. cbn [length] in Hle.
    destruct (is_space c) eqn:Hc.
    + rewrite (collapse_space c t Hc). cbn [no_runs].
      change (is_space 32%N) with true. cbn [N.eqb Pos.eqb negb andb].
      pose proof (skip_run_length t) as Hl. pose proof (skip_run_head t) as Hh.
      destruct (skipn (run_length is_space t) t) as [|d u]; [reflexivity|].
      rewrite (collapse_other d u Hh). cbn [no_runs]. rewrite Hh.
      apply IH. cbn [length] in Hl. lia.
    + rewrite (collapse_other c t Hc). cbn [no_runs]. rewrite Hc.
      apply IH. lia.
Qed.

Lemma trimStart_no_runs b x :
  no_runs b x = true -> no_runs true (trimStart x) = true.
Proof.
  revert b; induction x as [|c t IH]; intros b; cbn [no_runs trimStart].
  - reflexivity.
  - destruct (is_space c) eqn:Hc.
    + intros H. apply andb_true_iff in H as [_ H]. apply (IH true H).
    + intros H. cbn [no_runs]. rewrite Hc. exact H.
Qed.

Lemma trimStart_snoc a c :
  trimStart (a ++ [c]) =
  match trimStart a with
  | [] => if is_space c then [] else [c]
  | x => x ++ [c]
  end.
Proof.
  induction a as [|d a IH]; cbn [app trimStart].
  - destruct (is_space c); reflexivity.
  - destruct (is_space d); [exact IH | reflexivity].
Qed.

(** [trimEnd], read from the front of the string. *)
Lemma trimEnd_cons c t :
  trimEnd (c :: t) =
  match trimEnd t with
  | [] => if is_space c then [] else [c]
  | t' => c :: t'
  end.
Proof.
  unfold trimEnd. cbn [rev]. rewrite trimStart_snoc.
  destruct (trimStart (rev t)) as [|d x] eqn:E.
  - cbn [rev]. destruct (is_space c); reflexivity.
  - rewrite rev_app_distr. cbn [rev app].
    destruct (rev x ++ [d]) eqn:E2; [|reflexivity].
    destruct (rev x); discriminate E2.
Qed.

Lemma trimEnd_well_spaced b y :
  no_runs b y = true -> trimEnd y = [] \/ well_spaced b (trimEnd y) = true.
Proof.
  revert b; induction y as [|c t IH]; intros b; [now left|].
  cbn [no_runs]. rewrite trimEnd_cons.
  destruct (is_space c) eqn:Hc.
  - intros H. apply andb_true_iff in H as [H1 H2].
    destruct (IH true H2) as [E | W].
    + rewrite E. now left.
    + destruct (trimEnd t) as [|d t'] eqn:E; [discriminate W|].
      right. cbn [well_spaced]. rewrite Hc, H1. exact W.
  - intros H. right.
    destruct (IH false H) as [E | W].
    + rewrite E. cbn [well_spaced]. rewrite Hc. reflexivity.
    + destruct (trimEnd t) as [|d t'] eqn:E.
      * cbn [well_spaced]. rewrite Hc. reflexivity.
      * cbn [well_spaced]. rewrite Hc. exact W.
Qed.

Lemma well_spaced_no_runs b s : well_spaced b s = true -> no_runs b s = true.
Proof.
  revert b; induction s as [|c t IH]; intros b; cbn [well_spaced no_runs];
    [reflexivity|].
  destruct (is_space c); [|apply IH].
  intros H. apply andb_true_iff in H as [H1 H2]. rewrite H1. apply (IH true H2).
Qed.

Lemma truncation_well_spaced n b c :
  no_runs b c = true -> well_spaced b (firstn n c ++ ellipsis) = true.
Proof.
  revert b c; induction n as [|n IH]; intros b c.
  - intros _. destruct b; reflexivity.
  - destruct c as [|d t]; [intros _; destruct b; reflexivity|].
    cbn [firstn app no_runs well_spaced].
    destruct (is_space d).
    + intros H. apply andb_true_iff in H as [H1 H2].
      rewrite H1. apply (IH true t H2).
    + apply IH.
Qed.

(** The cleaned form is empty or well spaced. *)
Lemma clean_well_spaced s : clean s = [] \/ well_spaced true (clean s) = true.
Proof.
  unfold clean, normalize_whitespace, trim.
  set (m := remove_entities _).
  apply trimEnd_well_spaced with (b := true).
  apply (trimStart_no_runs false). apply collapse_no_runs.
Qed.

Lemma collapse_tidy b s : well_spaced b s = true -> collapse s = s.
Proof.
  revert b; induction s as [|c t IH]; intros b; [reflexivity|].
  cbn [well_spaced]. destruct (is_space c) eqn:Hc.
  - intros H. apply andb_true_iff in H as [H1 H2].
    apply andb_true_iff in H1 as [H1 _]. apply N.eqb_eq in H1. subst c.
    rewrite (collapse_space 32%N t Hc).
    destruct t as [|d u]; [discriminate H2|].
    cbn [well_spaced] in H2.
    destruct (is_space d) eqn:Hd.
    + apply andb_true_iff in H2 as [H2 _]. apply andb_true_iff in H2 as [_ H2].
      discriminate H2.
    + cbn [run_length]. rewrite Hd. cbn [skipn]. f_equal.
      apply (IH true). cbn [well_spaced]. rewrite Hd. exact H2.
  - intros H. rewrite (collapse_other c t Hc). f_equal. apply (IH false H).
Qed.

Lemma trimEnd_tidy b s : well_spaced b s = true -> trimEnd s = s.
Proof.
  revert b; induction s as [|c t IH]; intros b; [reflexivity|].
  cbn [well_spaced]. rewrite trimEnd_cons.
  destruct (is_space c) eqn:Hc.
  - intros H. apply andb_true_iff in H as [_ H2].
    rewrite (IH true H2). destruct t; [discriminate H2 | reflexivity].
  - intros H. rewrite (IH false H). destruct t; reflexivity.
Qed.

Lemma trimStart_tidy s : well_spaced true s = true -> trimStart s = s.
Proof.
  destruct s as [|c t]; [reflexivity|]. cbn [well_spaced trimStart].
  destruct (is_space c); [|reflexivity].
  intros H. apply andb_true_iff in H as [H _].
  apply andb_true_iff in H as [_ H]. discriminate H.
Qed.

Lemma clean_tidy s : tidy s = true -> clean s = s.
Proof.
  unfold tidy. intros H. apply andb_true_iff in H as [Hm Hw].
  assert (H60 : forallb (fun c => negb (c =? 60)%N) s = true).
  { revert Hm. apply SanitizerFacts.forallb_impl. intros c Hc.
    apply negb_true_iff in Hc. apply orb_false_iff in Hc as [Hc _].
    unfold is_angle in Hc. apply orb_false_iff in Hc as [Hc _].
    rewrite Hc. reflexivity. }
  assert (Hang : forallb (fun c => negb (is_angle c)) s = true).
  { revert Hm. apply SanitizerFacts.forallb_impl. intros c Hc.
    apply negb_true_iff in Hc. apply orb_false_iff in Hc as [Hc _].
    rewrite Hc. reflexivity. }
  assert (Hamp : forallb (fun c => negb (c =? 38)%N) s = true).
  { revert Hm. apply SanitizerFacts.forallb_impl. intros c Hc.
    apply negb_true_iff in Hc. apply orb_false_iff in Hc as [_ Hc].
    rewrite Hc. reflexivity. }
  unfold clean, remove_tags, remove_angles, remove_entities, normalize_whitespace.
  rewrite (replace_global_id match_tag (fun c => (c =? 60)%N)
             SanitizerFacts.tag_guard _ _ H60).
  rewrite (replace_global_id (match_class is_angle) is_angle
             (SanitizerFacts.class_guard is_angle) _ _ Hang).
  rewrite (@SanitizerFacts.decode_entities_id s Hamp).
  rewrite (replace_global_id match_entity (fun c => (c =? 38)%N)
             SanitizerFacts.entity_guard _ _ Hamp).
  fold (collapse s). rewrite (collapse_tidy true s Hw).
  unfold trim. rewrite (trimStart_tidy s Hw). apply (trimEnd_tidy true s Hw).
Qed.

End SpacingFacts.

(** X1. Whatever the input, a message the sanitizer returns has at most 4096
    code units. *)
Theorem sanitize_length_bound :
  forall s : jsstring,
    match Sanitizer.sanitizeWhatsAppMessage s with
    | Ok r => length r <= 4096
    | Throw _ => True
    end.
Proof.
  intros s. destruct s as [|a s']; [cbn; lia|].
  destruct (@SanitizerFacts.sanitize_cases (a :: s') eq_refl)
    as [[_ ->] | [(_ & Hle & ->) | [Hlt ->]]].
  - exact I.
  - exact Hle.
  - rewrite (@SanitizerFacts.truncated_length _ Hlt). lia.
Qed.

(** X2. A message the sanitizer returns for a non-empty input is well
    spaced: its only white space is the space character, never twice in a
    row and never at either end, also after a truncation. *)
Theorem sanitize_well_spaced :
  forall s : jsstring,
    match Sanitizer.sanitizeWhatsAppMessage s with
    | Ok r => s = [] \/ SpacingFacts.well_spaced true r = true
    | Throw _ => True
    end.
Proof.
  intros s. destruct s as [|a s']; [now left|].
  destruct (@SanitizerFacts.sanitize_cases (a :: s') eq_refl)
    as [[_ ->] | [(Hne & _ & ->) | [Hlt ->]]].
  - exact I.
  - right. destruct (SpacingFacts.clean_well_spaced (a :: s')) as [E | W];
      [contradiction | exact W].
  - right. apply SpacingFacts.truncation_well_spaced.
    destruct (SpacingFacts.clean_well_spaced (a :: s')) as [E | W].
    + rewrite E in Hlt. cbn [length] in Hlt. lia.
    + apply SpacingFacts.well_spaced_no_runs, W.
Qed.

(** X3. Tidy text of at most 4096 code units (no angle bracket, no
    ampersand, words separated by single spaces) goes through the sanitizer
    unchanged. *)
Theorem sanitize_tidy_unchanged :
  forall s : jsstring,
    SpacingFacts.tidy s = true -> length s <= 4096 ->
    Sanitizer.sanitizeWhatsAppMessage s = Ok s.
Proof.
  intros s Ht Hlen.
  pose proof (SpacingFacts.clean_tidy s Ht) as Hc.
  destruct s as [|a s']; [discriminate Ht|].
  destruct (@SanitizerFacts.sanitize_cases (a :: s') eq_refl)
    as [[E _] | [(_ & _ & Hs) | [Hlt _]]].
  - rewrite Hc in E. discriminate E.
  - rewrite Hs, Hc. reflexivity.
  - rewrite Hc in Hlt. lia.
Qed.

(** X3 on a greeting. *)
Lemma sanitize_tidy_unchanged_witness :
  Sanitizer.sanitizeWhatsAppMessage (js "Bonjour et bienvenue")
    = Ok (js "Bonjour et bienvenue").
Proof.
  apply sanitize_tidy_unchanged.
  - reflexivity.
  - cbn. lia.
Defined.

(* ===================================================================== *)
(** * Further properties of the phone number normalizer *)
(* ===================================================================== *)

Module PhoneTable.

Import Phone.

Lemma prefixes_add_plus :
  forallb (fun e => Js.eqb (snd e) (43%N :: fst e)) countryCodeMap = true.
Proof. vm_compute. reflexivity. Qed.

Lemma codes_start_with_2 :
  forallb (fun e => startsWith [50%N] (fst e)) countryCodeMap = true.
Proof. vm_compute. reflexivity. Qed.

Lemma startsWith_skipn p s :
  startsWith p s = true -> p ++ skipn (length p) s = s.
Proof.
  revert s; induction p as [|a p IH]; intros s; [reflexivity|].
  destruct s as [|b s]; [discriminate|]. cbn [startsWith length skipn app].
  intros H. apply andb_true_iff in H as [Hab Hp].
  apply N.eqb_eq in Hab. subst b. f_equal. apply IH, Hp.
Qed.

Lemma find_some_exists {A} (f : A -> bool) l x :
  In x l -> f x = true -> exists y, find f l = Some y.
Proof.
  induction l as [|a l IH]; [intros []|].
  cbn [find]. destruct (f a) eqn:Ea; [eauto|].
  intros [-> | Hin] Hx; [congruence | eauto].
Qed.

Lemma js_eqb_eq a b : Js.eqb a b = true -> a = b.
Proof. unfold Js.eqb. destruct (list_eq_dec N.eq_dec a b); congruence. Qed.

Lemma find_none_forall {A} (f : A -> bool) l :
  forallb (fun x => negb (f x)) l = true -> find f l = None.
Proof.
  induction l as [|a l IH]; [reflexivity|]. cbn [forallb find].
  intros H. apply andb_true_iff in H as [Ha Hl].
  apply negb_true_iff in Ha. rewrite Ha. apply IH, Hl.
Qed.

(** No listed code is a prefix of a string that starts with another code
    unit than the digit 2. *)
Lemma no_code_matches d rest :
  (d =? 50)%N = false ->
  find (fun e => startsWith (fst e) (d :: rest)) countryCodeMap = None.
Proof.
  intros Hd. apply find_none_forall.
  pose proof codes_start_with_2 as Ht. revert Ht.
  apply SanitizerFacts.forallb_impl. intros [code prefix] Hc. cbn [fst] in *.
  destruct code as [|a code]; [discriminate Hc|].
  cbn [startsWith] in Hc. apply andb_true_iff in Hc as [Ha _].
  apply N.eqb_eq in Ha. subst a.
  cbn [startsWith]. rewrite N.eqb_sym, Hd. reflexivity.
Qed.

End PhoneTable.

(** X4. A number that already carries one of the listed country codes, and
    no plus sign in front, only gains the plus sign: its digits are kept as
    they are. *)
Theorem normalizePhoneNumber_known_code :
  forall (s : jsstring) (e : jsstring * jsstring),
    truthy s = true ->
    startsWith (js "+") (PhoneFacts.cleaned s) = false ->
    In e Phone.countryCodeMap ->
    startsWith (fst e) (PhoneFacts.cleaned s) = true ->
    Phone.normalizePhoneNumber s = 43%N :: PhoneFacts.cleaned s.
Proof.
  intros s e Ht Hp He Hs. unfold Phone.normalizePhoneNumber.
  rewrite Ht. cbn [negb]. rewrite PhoneFacts.cleaned_spec, Hp.
  destruct (PhoneTable.find_some_exists
              (fun e => startsWith (fst e) (PhoneFacts.cleaned s))
              Phone.countryCodeMap e He Hs) as [[code prefix] Hf].
  rewrite Hf.
  pose proof (find_some _ _ Hf) as [Hin Hc]. cbn [fst] in Hc.
  pose proof (proj1 (forallb_forall _ _) PhoneTable.prefixes_add_plus _ Hin) as Hpre.
  cbn [fst snd] in Hpre. apply PhoneTable.js_eqb_eq in Hpre.
  rewrite Hpre. cbn [app]. f_equal. unfold substring_from.
  apply PhoneTable.startsWith_skipn, Hc.
Qed.

(** X4 on a Senegalese number written with spaces. *)
Lemma normalizePhoneNumber_known_code_witness :
  Phone.normalizePhoneNumber (js "221 77 123 45 67") = js "+221771234567".
Proof.
  exact (normalizePhoneNumber_known_code
           (js "221 77 123 45 67") (js "221", js "+221")
           eq_refl eq_refl (or_introl eq_refl) eq_refl).
Defined.

(** X5. A number whose first digit or plus sign is neither a plus sign nor
    the digit 2 (so that no listed code applies) gets the default prefix
    +242, in place of its leading 0 when it has one. A local number of a 0
    and at most twelve digits is valid after normalization. *)
Theorem normalizePhoneNumber_default_prefix :
  forall (s : jsstring) (d : codeunit) (rest : jsstring),
    truthy s = true ->
    PhoneFacts.cleaned s = d :: rest ->
    (d =? 43)%N = false -> (d =? 50)%N = false ->
    Phone.normalizePhoneNumber s
      = js "+242" ++ (if (d =? 48)%N then rest else d :: rest)
    /\ ((d =? 48)%N = true -> forallb is_digit rest = true ->
        length rest <= 12 ->
        Phone.phoneRegex_test (Phone.normalizePhoneNumber s) = true).
Proof.
  intros s d rest Ht Hc Hplus Hcode.
  assert (E : Phone.normalizePhoneNumber s
              = js "+242" ++ (if (d =? 48)%N then rest else d :: rest)).
  { unfold Phone.normalizePhoneNumber. rewrite Ht. cbn [negb].
    rewrite PhoneFacts.cleaned_spec, Hc.
    change (startsWith (js "+") (d :: rest)) with ((43 =? d)%N && true).
    rewrite N.eqb_sym, Hplus. cbn [andb].
    match goal with
    | |- context [find ?f ?l] =>
        replace (find f l) with (@None (jsstring * jsstring))
          by (symmetry; apply (PhoneTable.no_code_matches d rest Hcode))
    end.
    change (startsWith (js "0") (d :: rest)) with ((48 =? d)%N && true).
    rewrite (N.eqb_sym 48 d). destruct (d =? 48)%N; reflexivity. }
  split; [exact E|].
  intros H0 Hdigits Hlen. rewrite E, H0.
  change (js "+242" ++ rest) with (43%N :: 50%N :: 52%N :: 50%N :: rest).
  cbn [Phone.phoneRegex_test forallb length]. rewrite Hdigits.
  destruct (Nat.leb_spec (S (S (length rest))) 14) as [_|Hgt]; [reflexivity | lia].
Qed.

(** X5 on a local number. *)
Lemma normalizePhoneNumber_default_prefix_witness :
  Phone.normalizePhoneNumber (js "055 123 4567") = js "+242551234567"
  /\ Phone.phoneRegex_test (Phone.normalizePhoneNumber (js "055 123 4567")) = true.
Proof.
  destruct (normalizePhoneNumber_default_prefix
              (js "055 123 4567") 48%N (js "551234567")
              eq_refl eq_refl eq_refl eq_refl) as [E V].
  split; [exact E|]. apply V; [reflexivity | reflexivity | cbn; lia].
Defined.

(* ===================================================================== *)
(** * Further properties of the classifier *)
(* ===================================================================== *)

Module IncludesFacts.

Lemma startsWith_app k r s : startsWith (k ++ r) s = true -> startsWith k s = true.
Proof.
  revert s; induction k as [|a k IH]; intros s; [reflexivity|].
  destruct s as [|b s]; [discriminate|]. cbn [app startsWith].
  intros H. apply andb_true_iff in H as [Hab Hk].
  rewrite Hab. apply (IH s Hk).
Qed.

(** A text that contains a word contains every beginning of that word. *)
Lemma includes_app s k r : includes s (k ++ r) = true -> includes s k = true.
Proof.
  induction s as [|c t IH]; cbn [includes].
  - intros H. apply orb_true_iff in H as [H | H]; [|discriminate].
    rewrite (startsWith_app k r [] H). reflexivity.
  - intros H. apply orb_true_iff in H as [H | H].
    + rewrite (startsWith_app k r (c :: t) H). reflexivity.
    + rewrite (IH H). apply orb_true_r.
Qed.

End IncludesFacts.

(** X6. A text that contains [question] (and so every text that contains
    [questionnaire]) is classified [education]: the two quiz keywords
    [question] and [questionnaire] never decide. *)
Theorem determineChatbotType_question_is_education :
  forall (toLowerCase : jsstring -> jsstring) (m : jsstring),
    includes (toLowerCase m) (js "question") = true
    \/ includes (toLowerCase m) (js "questionnaire") = true ->
    Classifier.determineChatbotType toLowerCase m = Classifier.education.
Proof.
  intros toLowerCase m H.
  assert (Hq : includes (toLowerCase m) (js "question") = true).
  { destruct H as [H | H]; [exact H|].
    apply (IncludesFacts.includes_app (toLowerCase m) (js "question") (js "naire")).
    exact H. }
  unfold Classifier.determineChatbotType.
  assert (E : existsb (fun keyword => includes (toLowerCase m) keyword)
                      Classifier.educationKeywords = true).
  { apply existsb_exists. exists (js "question"). split; [|exact Hq].
    unfold Classifier.educationKeywords. cbn [In]. tauto. }
  rewrite E. reflexivity.
Qed.

(** X6 on a request for a questionnaire. *)
Lemma determineChatbotType_question_is_education_witness :
  Classifier.determineChatbotType (map Classifier.ascii_lower)
    (js "Send me the QUESTIONNAIRE") = Classifier.education.
Proof.
  apply determineChatbotType_question_is_education.
  right. vm_compute. reflexivity.
Defined.

(* ===================================================================== *)
(** * Further properties of configuration resolution *)
(* ===================================================================== *)

Module ConfigFrame.

Import Config.

Lemma filter_filter {A} (f g : A -> bool) l :
  filter f (filter g l) = filter (fun x => g x && f x) l.
Proof.
  induction l as [|a l IH]; [reflexivity|]. cbn [filter].
  destruct (g a); cbn [filter andb]; [destruct (f a)|]; rewrite IH; reflexivity.
Qed.

Lemma user_rows_active_only uid table :
  user_rows uid (filter is_active table) = user_rows uid table.
Proof.
  unfold user_rows. rewrite filter_filter. apply filter_ext.
  intros r. destruct (is_active r), (Js.eqb (user_id r) uid); reflexivity.
Qed.

Lemma active_rows_active_only table :
  active_rows (filter is_active table) = active_rows table.
Proof.
  unfold active_rows. rewrite filter_filter. apply filter_ext.
  intros r. destruct (is_active r); reflexivity.
Qed.

Lemma user_specific_none userId table :
  ~ (exists r, ConfigFacts.user_has_config userId table r) ->
  user_specific userId table = None.
Proof.
  intros Hno. destruct (user_specific userId table) as [cfg|] eqn:E; [|reflexivity].
  exfalso. apply Hno.
  destruct (@ConfigFacts.user_specific_inv userId table cfg E) as (r & Hr & _).
  exists r. exact Hr.
Qed.

End ConfigFrame.

(** X7. Inactive rows never influence the resolution: the answer is the same
    on the table and on its active rows alone. *)
Theorem getWhatsAppConfig_ignores_inactive :
  forall (userId : option jsstring) (table : list Config.ConfigRow),
    Config.getWhatsAppConfig userId (filter Config.is_active table)
      = Config.getWhatsAppConfig userId table.
Proof.
  intros userId table. unfold Config.getWhatsAppConfig, Config.user_specific.
  rewrite ConfigFrame.active_rows_active_only.
  destruct userId as [uid|]; [|reflexivity].
  rewrite ConfigFrame.user_rows_active_only. reflexivity.
Qed.

(** X8. A request with a user id that has no single active configuration
    with both credentials (none, several, or one without a credential) is
    answered exactly like a request without user id. *)
Theorem getWhatsAppConfig_falls_back_like_anonymous :
  forall (userId : option jsstring) (table : list Config.ConfigRow),
    ~ (exists r, ConfigFacts.user_has_config userId table r) ->
    Config.getWhatsAppConfig userId table = Config.getWhatsAppConfig None table.
Proof.
  intros userId table Hno. unfold Config.getWhatsAppConfig.
  rewrite (ConfigFrame.user_specific_none userId table Hno). reflexivity.
Qed.

Module ConfigDuplicates.

Import Config.

(** The user [u1] has two active configurations. *)
Definition table : list ConfigRow :=
  [ ConfigExample.row "u1" true (Some (js "EAA1")) 10;
    ConfigExample.row "u1" true (Some (js "EAA4")) 40;
    ConfigExample.row "u2" true (Some (js "EAA2")) 20 ].

End ConfigDuplicates.

(** X8 on a user with two active configurations. *)
Lemma getWhatsAppConfig_falls_back_like_anonymous_witness :
  Config.getWhatsAppConfig (Some (js "u1")) ConfigDuplicates.table
    = Config.getWhatsAppConfig None ConfigDuplicates.table.
Proof.
  apply getWhatsAppConfig_falls_back_like_anonymous.
  intros (r & uid & Hu & _ & Hrows & _).
  injection Hu as <-. vm_compute in Hrows. discriminate Hrows.
Defined.

(* ===================================================================== *)
(** * Further properties of status updates *)
(* ===================================================================== *)

Module StatusFacts.

Import Logs Webhook.

(** The record an update writes in place of a matching one. *)
Definition updated (st : jsstring) (now : N) (r : MessageLog) : MessageLog :=
  {| status := st;
     phone_number := phone_number r;
     message_preview := message_preview r;
     message_id := message_id r;
     error := error r;
     created_at := created_at r;
     updated_at := Some now |}.

Lemma update_status_rows st now id logs :
  Forall2 (fun old new =>
             if matches_id id old then new = updated st now old else new = old)
          logs (update_status (Some st) now id logs).
Proof.
  induction logs as [|r logs IH]; cbn [update_status map]; constructor.
  - destruct (matches_id id r); reflexivity.
  - exact IH.
Qed.

Lemma update_status_twice st now id logs :
  update_status st now id (update_status st now id logs)
    = update_status st now id logs.
Proof.
  unfold update_status. rewrite map_map. apply map_ext.
  intros r. destruct (matches_id id r) eqn:Hm; [|rewrite Hm; reflexivity].
  unfold matches_id in *. cbn [message_id]. rewrite Hm.
  destruct st; reflexivity.
Qed.

(** The three ways [processStatusUpdate] can go. *)
Lemma processStatusUpdate_cases a data logs :
  (truthy_opt (messageId data) && truthy_opt (new_status data) = false
   /\ processStatusUpdate a data logs = (Ok (success_false missing_fields), logs))
  \/ (exists e, updateError a = Some e
                /\ processStatusUpdate a data logs = (Ok (success_false e), logs))
  \/ (exists id st,
         messageId data = Some id /\ truthy id = true
         /\ new_status data = Some st /\ truthy st = true
         /\ updateError a = None
         /\ processStatusUpdate a data logs
            = (Ok (success_true (js "Status updated to " ++ st)),
               update_status (Some st) (now a) id logs)).
Proof.
  unfold processStatusUpdate, try_catch, throw, ret, run_update.
  destruct (messageId data) as [id|]; [|left; split; reflexivity].
  destruct (new_status data) as [st|];
    [|left; split; [apply andb_false_r | destruct (truthy_opt (Some id)); reflexivity]].
  cbn [truthy_opt or_else].
  destruct (truthy id) eqn:Tid; [|left; split; reflexivity].
  destruct (truthy st) eqn:Tst; [|left; split; reflexivity].
  cbn [negb orb andb].
  destruct (updateError a) as [e|] eqn:He.
  - right; left. exists e. split; reflexivity.
  - right; right. exists id, st. repeat split; assumption.
Qed.

End StatusFacts.

(** X9. A status update for a known provider message id, with the store
    answering without an error, is reported as a success; the table keeps its
    length and order, every record with that id gets the new status and the
    time of the update and keeps all its other fields, and every other
    record is unchanged. *)
Theorem processStatusUpdate_touches_matching_records :
  forall (a : Webhook.StoreAnswer) (data : Webhook.StatusData)
         (logs : list Logs.MessageLog) (id st : jsstring),
    Webhook.messageId data = Some id -> truthy id = true ->
    Webhook.new_status data = Some st -> truthy st = true ->
    Webhook.updateError a = None ->
    exists logs',
      Webhook.processStatusUpdate a data logs
        = (Ok (Webhook.success_true (js "Status updated to " ++ st)), logs')
      /\ length logs' = length logs
      /\ Forall2 (fun old new =>
                    if Logs.matches_id id old
                    then new = StatusFacts.updated st (Webhook.now a) old
                    else new = old)
                 logs logs'.
Proof.
  intros a data logs id st Hid Tid Hst Tst Herr.
  destruct (StatusFacts.processStatusUpdate_cases a data logs)
    as [[Hf _] | [(e & He & _) | (id' & st' & Hid' & _ & Hst' & _ & _ & E)]].
  - rewrite Hid, Hst in Hf. cbn [truthy_opt] in Hf. rewrite Tid, Tst in Hf.
    discriminate Hf.
  - rewrite Herr in He. discriminate He.
  - rewrite Hid in Hid'. rewrite Hst in Hst'.
    injection Hid' as <-. injection Hst' as <-.
    exists (Logs.update_status (Some st) (Webhook.now a) id logs).
    split; [exact E|]. split.
    + unfold Logs.update_status. apply length_map.
    + apply StatusFacts.update_status_rows.
Qed.

(** X9 on the table of two records and the id of the first one. *)
Lemma processStatusUpdate_touches_matching_records_witness :
  exists logs',
    Webhook.processStatusUpdate
      WebhookFacts.sample_answer
      {| Webhook.type := None; Webhook.messageId := Some (js "wamid.1");
         Webhook.new_status := Some (js "delivered") |}
      WebhookFacts.sample_logs
      = (Ok (Webhook.success_true (js "Status updated to " ++ js "delivered")), logs')
    /\ length logs' = length WebhookFacts.sample_logs
    /\ Forall2 (fun old new =>
                  if Logs.matches_id (js "wamid.1") old
                  then new = StatusFacts.updated (js "delivered")
                               (Webhook.now WebhookFacts.sample_answer) old
                  else new = old)
               WebhookFacts.sample_logs logs'.
Proof.
  apply processStatusUpdate_touches_matching_records; reflexivity.
Defined.

(** X10. [processStatusUpdate] never throws. When the message id or the
    status is missing or empty it reports the missing fields, and when the
    store answers the update with an error it reports that error; in both
    cases no record is changed. *)
Theorem processStatusUpdate_failures_change_nothing :
  forall (a : Webhook.StoreAnswer) (data : Webhook.StatusData)
         (logs : list Logs.MessageLog),
    (exists r logs', Webhook.processStatusUpdate a data logs = (Ok r, logs'))
    /\ (truthy_opt (Webhook.messageId data) = false
        \/ truthy_opt (Webhook.new_status data) = false ->
        Webhook.processStatusUpdate a data logs
          = (Ok (Webhook.success_false Webhook.missing_fields), logs))
    /\ (forall e,
          truthy_opt (Webhook.messageId data) = true ->
          truthy_opt (Webhook.new_status data) = true ->
          Webhook.updateError a = Some e ->
          Webhook.processStatusUpdate a data logs
            = (Ok (Webhook.success_false e), logs))
    /\ (forall message logs',
          Webhook.processStatusUpdate a data logs
            = (Ok (Webhook.success_false message), logs') ->
          logs' = logs).
Proof.
  intros a data logs.
  destruct (StatusFacts.processStatusUpdate_cases a data logs)
    as [[Hf E] | [(e & He & E) | (id & st & Hid & Tid & Hst & Tst & Herr & E)]].
  - split; [eauto|]. split; [intros _; exact E|]. split.
    + intros e' H1 H2. rewrite H1, H2 in Hf. discriminate Hf.
    + intros message logs' H. rewrite E in H. congruence.
  - split; [eauto|]. split; [|split].
    + intros [H | H]; revert E;
        unfold Webhook.processStatusUpdate, try_catch, throw, ret;
        rewrite H; cbn [negb orb]; [|rewrite orb_true_r]; intros _; reflexivity.
    + intros e' _ _ He'. rewrite He in He'. injection He' as <-. exact E.
    + intros message logs' H. rewrite E in H. congruence.
  - split; [eauto|]. split; [|split].
    + rewrite Hid, Hst. cbn [truthy_opt]. rewrite Tid, Tst.
      intros [H | H]; discriminate H.
    + intros e _ _ He. rewrite Herr in He. discriminate He.
    + intros message logs' H. rewrite E in H. discriminate H.
Qed.

(** X10 on an update without status. *)
Lemma processStatusUpdate_failures_change_nothing_witness :
  Webhook.processStatusUpdate
    WebhookFacts.sample_answer
    {| Webhook.type := None; Webhook.messageId := Some (js "wamid.1");
       Webhook.new_status := None |}
    WebhookFacts.sample_logs
  = (Ok (Webhook.success_false Webhook.missing_fields), WebhookFacts.sample_logs).
Proof.
  apply (proj1 (proj2 (processStatusUpdate_failures_change_nothing
                         WebhookFacts.sample_answer
                         {| Webhook.type := None;
                            Webhook.messageId := Some (js "wamid.1");
                            Webhook.new_status := None |}
                         WebhookFacts.sample_logs))).
  right. reflexivity.
Defined.

(** X11. Handling the same status update a second time (a callback the
    provider repeats) gives the same answer and leaves the table as the
    first handling left it. *)
Theorem processStatusUpdate_idempotent :
  forall (a : Webhook.StoreAnswer) (data : Webhook.StatusData)
         (logs : list Logs.MessageLog),
    let first := Webhook.processStatusUpdate a data logs in
    Webhook.processStatusUpdate a data (snd first) = first.
Proof.
  intros a data logs first. subst first.
  destruct (StatusFacts.processStatusUpdate_cases a data logs)
    as [[Hf E] | [(e & He & E) | (id & st & Hid & Tid & Hst & Tst & Herr & E)]];
    rewrite E; cbn [snd].
  - exact E.
  - exact E.
  - destruct (StatusFacts.processStatusUpdate_cases a data
                (Logs.update_status (Some st) (Webhook.now a) id logs))
      as [[Hf _] | [(e & He & _) | (id' & st' & Hid' & _ & Hst' & _ & _ & E')]].
    + rewrite Hid, Hst in Hf. cbn [truthy_opt] in Hf. rewrite Tid, Tst in Hf.
      discriminate Hf.
    + rewrite Herr in He. discriminate He.
    + rewrite Hid in Hid'. rewrite Hst in Hst'.
      injection Hid' as <-. injection Hst' as <-.
      rewrite E', StatusFacts.update_status_twice. reflexivity.
Qed.

(* ===================================================================== *)
(** * Further properties of the delivery channel *)
(* ===================================================================== *)

Module RecordFacts.

Import Delivery.

(** The preview written with a sent message. *)
Definition preview_of (media : option Media) (sanitized : jsstring) : jsstring :=
  match media with
  | Some md => js "[" ++ media_type_upper (media_type md) ++ js "] "
                  ++ substring_to 80 sanitized
  | None => substring_to 100 sanitized
  end.

Lemma preview_length media sanitized :
  length (preview_of media sanitized) <= 100.
Proof.
  unfold preview_of, substring_to. destruct media as [md|].
  - destruct md as [[| |] u]; cbn [media_type media_type_upper];
      rewrite !length_app, length_firstn;
      [ change (length (js "IMAGE")) with 5
      | change (length (js "VIDEO")) with 5
      | change (length (js "DOCUMENT")) with 8 ];
      change (length (js "[")) with 1; change (length (js "] ")) with 2; lia.
  - rewrite length_firstn. lia.
Qed.

(** What a store that answered [answer] has written of [row]. *)
Definition written (answer : InsertAnswer) (row : Logs.MessageLog)
  : list Logs.MessageLog :=
  match answer with
  | inserted => [row]
  | _ => []
  end.

Lemma sanitize_ok_length s r :
  Sanitizer.sanitizeWhatsAppMessage s = Ok r -> length r <= 4096.
Proof.
  intros H. destruct s as [|a s'].
  - cbn in H. injection H as <-. cbn. lia.
  - destruct (@SanitizerFacts.sanitize_cases (a :: s') eq_refl)
      as [[_ E] | [(_ & Hle & E) | [Hlt E]]];
      rewrite E in H; [discriminate H | |]; injection H as <-.
    + exact Hle.
    + apply Nat.eq_le_incl, (@SanitizerFacts.truncated_length _ Hlt).
Qed.

End RecordFacts.

Module ResponseFacts.

Lemma sendWhatsAppResponse_spec :
  forall (w : Delivery.World) (to_ message : jsstring)
         (media : option Delivery.Media) (userId : option jsstring)
         (st : Delivery.Store),
    match Delivery.sendWhatsAppResponse w to_ message media userId st with
    | (Ok response, st') =>
        Delivery.ok response = true
        /\ Delivery.configs st' = Delivery.configs st
        /\ exists sanitized,
             Sanitizer.sanitizeWhatsAppMessage message = Ok sanitized
             /\ length (RecordFacts.preview_of media sanitized) <= 100
             /\ let row :=
                  Delivery.sent_log w to_ (RecordFacts.preview_of media sanitized)
                                    (Delivery.first_message_id response) in
                Delivery.message_logs st'
                  = Delivery.message_logs st
                      ++ RecordFacts.written (Delivery.insert_answer w row) row
    | (Throw _, st') => st' = st
    end.
Proof.
  intros w to_ message media userId st.
  cbv [Delivery.sendWhatsAppResponse try_catch bind lift ret throw
       Delivery.getConfig Delivery.insert_log].
  repeat DeliveryFacts.step; try reflexivity;
    (split; [match goal with H : negb _ = false |- _ =>
               apply negb_false_iff in H; exact H end|]);
    (split; [reflexivity|]);
    eexists; (split; [reflexivity|]);
    (split; [apply RecordFacts.preview_length|]);
    cbv zeta; unfold RecordFacts.preview_of;
    match goal with
    | H : Delivery.insert_answer _ _ = _ |- _ => rewrite H
    end; cbn [RecordFacts.written Delivery.message_logs];
    first [ reflexivity | symmetry; apply app_nil_r ].
Qed.

End ResponseFacts.

(** X12. A call of [sendWhatsAppResponse] that returns was accepted by the
    provider and has handed exactly one record to the store: status [sent],
    the recipient, the provider's message id, no error and a preview of at
    most 100 code units; the record is in the table when the store wrote it.
    A call that throws leaves the table as it was, and no call touches the
    configurations. *)
Theorem sendWhatsAppResponse_sent_record :
  forall (w : Delivery.World) (to_ message : jsstring)
         (media : option Delivery.Media) (userId : option jsstring)
         (st : Delivery.Store),
    match Delivery.sendWhatsAppResponse w to_ message media userId st with
    | (Ok response, st') =>
        Delivery.ok response = true
        /\ Delivery.configs st' = Delivery.configs st
        /\ exists sanitized,
             Sanitizer.sanitizeWhatsAppMessage message = Ok sanitized
             /\ length (RecordFacts.preview_of media sanitized) <= 100
             /\ let row :=
                  Delivery.sent_log w to_ (RecordFacts.preview_of media sanitized)
                                    (Delivery.first_message_id response) in
                Delivery.message_logs st'
                  = Delivery.message_logs st
                      ++ RecordFacts.written (Delivery.insert_answer w row) row
    | (Throw _, st') => st' = st
    end.
Proof. exact ResponseFacts.sendWhatsAppResponse_spec. Qed.

Module BatchFacts.

Import Delivery.

(** A record a batch send writes for a message: status [sent] or [error],
    for the number of the message. *)
Definition batch_row (phone : jsstring) (row : Logs.MessageLog) : Prop :=
  (Logs.status row = js "sent" \/ Logs.status row = js "error")
  /\ Logs.phone_number row = phone.

(** The outcome reported for a message. *)
Definition outcome_of (msg : OutMessage) (r : MessageResult) : Prop :=
  result_phoneNumber r = phoneNumber msg
  /\ result_message r = message msg
  /\ ((status r = Status.success /\ error r = None)
      \/ (status r = Status.error /\ exists e, error r = Some e)).

(** One send: at most one record more, the configurations untouched, and
    an outcome for the message when the callback returns. *)
Lemma send_one_cases w cfg msg st :
  match send_one w cfg msg st with
  | (r, st') =>
      configs st' = configs st
      /\ (exists added,
             message_logs st' = message_logs st ++ added
             /\ length added <= 1
             /\ Forall (batch_row (phoneNumber msg)) added)
      /\ match r with
         | Ok res => outcome_of msg res
         | Throw _ => True
         end
  end.
Proof.
  cbv [send_one try_catch bind lift ret throw insert_log].
  repeat DeliveryFacts.step; cbn [configs message_logs];
    (split; [reflexivity|]);
    (split;
     [ first
         [ exists (@nil Logs.MessageLog);
           split; [symmetry; apply app_nil_r|];
           split; [cbn [length]; lia | constructor]
         | eexists [_]; split; [reflexivity|];
           split; [cbn [length]; lia|];
           constructor; [|constructor];
           split; [first [left; reflexivity | right; reflexivity] | reflexivity] ]
     | try exact I;
       unfold outcome_of;
       cbn [result_phoneNumber result_message status error];
       (split; [reflexivity|]); (split; [reflexivity|]);
       first [ left; split; reflexivity
             | right; split; [reflexivity | eexists; reflexivity] ] ]).
Qed.

Lemma send_one_spec w cfg msg st :
  configs (snd (send_one w cfg msg st)) = configs st
  /\ (exists added,
         message_logs (snd (send_one w cfg msg st)) = message_logs st ++ added
         /\ length added <= 1
         /\ Forall (batch_row (phoneNumber msg)) added)
  /\ match fst (send_one w cfg msg st) with
     | Ok r => outcome_of msg r
     | Throw _ => True
     end.
Proof.
  pose proof (send_one_cases w cfg msg st) as H.
  destruct (send_one w cfg msg st) as [r st']. exact H.
Qed.

(** Tables that only grew, by at most [n] records that satisfy [P]. *)
Definition grows (P : Logs.MessageLog -> Prop) (n : nat) (st st' : Store) : Prop :=
  configs st' = configs st
  /\ exists added,
       message_logs st' = message_logs st ++ added
       /\ length added <= n /\ Forall P added.

Lemma grows_refl P st : grows P 0 st st.
Proof.
  split; [reflexivity|]. exists []. rewrite app_nil_r. repeat split.
  - cbn. lia.
  - constructor.
Qed.

Lemma grows_trans P n m st1 st2 st3 :
  grows P n st1 st2 -> grows P m st2 st3 -> grows P (n + m) st1 st3.
Proof.
  intros (C1 & a1 & E1 & L1 & F1) (C2 & a2 & E2 & L2 & F2).
  split; [congruence|]. exists (a1 ++ a2).
  rewrite E2, E1, app_assoc. split; [reflexivity|]. split.
  - rewrite length_app. lia.
  - apply Forall_app. split; assumption.
Qed.

Lemma allSettled_grows {A} P (cs : list (M Store A)) :
  Forall (fun c => forall st, grows P 1 st (snd (c st))) cs ->
  forall st, grows P (length cs) st (snd (allSettled cs st)).
Proof.
  induction 1 as [|c t Hc Ht IH]; intros st; cbn [allSettled length].
  - apply grows_refl.
  - specialize (Hc st). destruct (c st) as [r st1]. cbn [snd] in Hc.
    specialize (IH st1).
    destruct (allSettled t st1) as [[rs|e] st2]; cbn [snd] in *;
      apply (grows_trans P 1 (length t) st st1 st2 Hc IH).
Qed.

Lemma grows_weaken (P Q : Logs.MessageLog -> Prop) n m st st' :
  (forall row, P row -> Q row) -> n <= m -> grows P n st st' -> grows Q m st st'.
Proof.
  intros HPQ Hnm (C & a & E & L & F). split; [exact C|].
  exists a. split; [exact E|]. split; [lia|].
  revert F. apply Forall_impl. exact HPQ.
Qed.

(** The messages the sends are made for. *)
Definition sendable (msg : OutMessage) : Prop :=
  Phone.phoneRegex_test (phoneNumber msg) = true /\ length (message msg) <= 4096.

Lemma validMessages_valid messages :
  Forall (fun m => Phone.phoneRegex_test (phoneNumber m) = true)
         (validMessages messages).
Proof.
  unfold validMessages. apply Forall_forall. intros m Hm.
  apply filter_In in Hm as [_ Hm]. exact Hm.
Qed.

Lemma process_message_sendable w m m' :
  Phone.phoneRegex_test (phoneNumber m) = true ->
  process_message w m = Ok m' -> sendable m'.
Proof.
  intros Hv. unfold process_message.
  destruct (match variables m with Some _ => _ | None => _ end) as [replaced|];
    [|discriminate].
  destruct (Sanitizer.sanitizeWhatsAppMessage replaced) as [p|] eqn:Es;
    [|discriminate].
  intros [= <-]. split; [exact Hv|]. cbn [message with_message].
  apply (RecordFacts.sanitize_ok_length replaced p Es).
Qed.

Lemma processed_sendable w valid processed :
  Forall (fun m => Phone.phoneRegex_test (phoneNumber m) = true) valid ->
  exc_map (process_message w) valid = Ok processed ->
  Forall sendable processed.
Proof.
  intros Hv. revert processed.
  induction Hv as [|m t Hm Ht IH]; intros processed; cbn [exc_map].
  - intros [= <-]. constructor.
  - destruct (process_message w m) as [m'|] eqn:Em; [|discriminate].
    destruct (exc_map (process_message w) t) as [t'|]; [|discriminate].
    intros [= <-]. constructor; [|apply IH; reflexivity].
    apply (process_message_sendable w m m' Hm Em).
Qed.

(** A result as [sendWhatsAppMessages] reports it. *)
Definition reported (r : MessageResult) : Prop :=
  (status r = Status.success ->
   Phone.phoneRegex_test (result_phoneNumber r) = true
   /\ length (result_message r) <= 4096
   /\ error r = None)
  /\ (status r = Status.error -> exists e, error r = Some e).

Lemma reported_outcome msg r : sendable msg -> outcome_of msg r -> reported r.
Proof.
  intros [Hv Hl] (Hp & Hm & [[Hs He] | [Hs He]]); split.
  - intros _. rewrite Hp, Hm. auto.
  - intros H. rewrite Hs in H. discriminate H.
  - intros H. rewrite Hs in H. discriminate H.
  - intros _. exact He.
Qed.

Lemma reported_error w e phone text :
  reported {| status := Status.error; result_phoneNumber := phone;
              result_message := text; timestamp := now w;
              messageId := None; error := Some e |}.
Proof.
  split; cbn [status error].
  - intros H. discriminate H.
  - intros _. exists e. reflexivity.
Qed.

End BatchFacts.

(** X13. A batch send never touches the configurations and only appends to
    [message_logs]: at most one record for every message with a valid
    number, each with status [sent] or [error] and a number that matches the
    validity pattern. *)
Theorem sendWhatsAppMessages_appends_records :
  forall (w : Delivery.World) (messages : list Delivery.OutMessage)
         (userId : option jsstring) (st : Delivery.Store),
    let st' := snd (Delivery.sendWhatsAppMessages w messages userId st) in
    Delivery.configs st' = Delivery.configs st
    /\ exists added,
         Delivery.message_logs st' = Delivery.message_logs st ++ added
         /\ length added <= length (Delivery.validMessages messages)
         /\ Forall (fun row =>
                      (Logs.status row = js "sent" \/ Logs.status row = js "error")
                      /\ Phone.phoneRegex_test (Logs.phone_number row) = true)
                   added.
Proof.
  intros w messages userId st st'. subst st'.
  set (P := fun row : Logs.MessageLog =>
              (Logs.status row = js "sent" \/ Logs.status row = js "error")
              /\ Phone.phoneRegex_test (Logs.phone_number row) = true).
  change (BatchFacts.grows P (length (Delivery.validMessages messages)) st
            (snd (Delivery.sendWhatsAppMessages w messages userId st))).
  assert (Hsame : BatchFacts.grows P (length (Delivery.validMessages messages)) st st).
  { apply (BatchFacts.grows_weaken P P 0 _ st st (fun _ H => H)); [lia|].
    apply BatchFacts.grows_refl. }
  unfold Delivery.sendWhatsAppMessages, Delivery.send_batch, bind,
    Delivery.getConfig, lift, throw, ret.
  destruct (Config.getWhatsAppConfig userId (Delivery.configs st)) as [cfg|e0];
    [|exact Hsame].
  destruct (length (Delivery.validMessages messages) =? 0); [exact Hsame|].
  destruct (exc_map (Delivery.process_message w) (Delivery.validMessages messages))
    as [processed|e1] eqn:Hp; [|exact Hsame].
  pose proof (BatchFacts.processed_sendable w _ _
                (BatchFacts.validMessages_valid messages) Hp) as Hsend.
  pose proof (@DeliveryFacts.exc_map_length _ _ _ _ _ Hp) as Hlen.
  assert (Hg : BatchFacts.grows P (length (map (Delivery.send_one w cfg) processed)) st
                 (snd (Delivery.allSettled (map (Delivery.send_one w cfg) processed) st))).
  { apply BatchFacts.allSettled_grows. apply Forall_map.
    revert Hsend. apply Forall_impl. intros m [Hv _] s.
    destruct (BatchFacts.send_one_spec w cfg m s) as (C & (a & E & L & F) & _).
    split; [exact C|]. exists a. split; [exact E|]. split; [exact L|].
    revert F. apply Forall_impl. intros row [Hs Hph]. split; [exact Hs|].
    rewrite Hph. exact Hv. }
  rewrite length_map, Hlen in Hg.
  destruct (Delivery.allSettled (map (Delivery.send_one w cfg) processed) st)
    as [[rs|e2] st2]; exact Hg.
Qed.

(** X14. In every result of a batch send, a [success] carries a number that
    matches the validity pattern, a message of at most 4096 code units and
    no error text, and an [error] carries an error text. *)
Theorem sendWhatsAppMessages_reports :
  forall (w : Delivery.World) (messages : list Delivery.OutMessage)
         (userId : option jsstring) (st : Delivery.Store),
    Forall BatchFacts.reported
           (fst (Delivery.sendWhatsAppMessages w messages userId st)).
Proof.
  intros w messages userId st.
  assert (Herr : forall e,
             Forall BatchFacts.reported (map (Delivery.batch_error w e) messages)).
  { intros e. apply Forall_map, Forall_forall. intros m _.
    apply BatchFacts.reported_error. }
  unfold Delivery.sendWhatsAppMessages, Delivery.send_batch, bind,
    Delivery.getConfig, lift, throw, ret.
  destruct (Config.getWhatsAppConfig userId (Delivery.configs st)) as [cfg|e0];
    [|apply Herr].
  destruct (length (Delivery.validMessages messages) =? 0); [apply Herr|].
  destruct (exc_map (Delivery.process_message w) (Delivery.validMessages messages))
    as [processed|e1] eqn:Hp; [|apply Herr].
  pose proof (BatchFacts.processed_sendable w _ _
                (BatchFacts.validMessages_valid messages) Hp) as Hsend.
  destruct (@DeliveryFacts.allSettled_spec _
              (fun r => match r with
                        | Ok v => BatchFacts.reported v
                        | Throw _ => True
                        end)
              (map (Delivery.send_one w cfg) processed)) with (st := st)
    as (rs & st2 & E & _ & HF).
  { apply Forall_map. revert Hsend. apply Forall_impl. intros m Hm s.
    destruct (BatchFacts.send_one_spec w cfg m s) as (_ & _ & Hr).
    destruct (fst (Delivery.send_one w cfg m s)) as [r|]; [|exact I].
    apply (BatchFacts.reported_outcome m r Hm Hr). }
  rewrite E. cbn [fst]. apply Forall_map. revert HF. apply Forall_impl.
  intros [v|reason] Hv; [exact Hv|].
  apply BatchFacts.reported_error.
Qed.

(* ===================================================================== *)
(** * Template messages ([sendWhatsAppTemplate]) *)
(* ===================================================================== *)

Module Template.

Import Delivery.

Local Open Scope monad_scope.

Set Implicit Arguments.

Section WithComponents.

(** The components of a template are passed through as they come. *)
Variable Component : Type.

Record TemplatePayload := {
  template_to : jsstring;
  template_name : jsstring;
  language_code : jsstring;
  template_components : option (list Component)
}.

(** The collaborators of [sendWhatsAppMessages], and the provider's answer
    to a template message. *)
Record World := {
  base : Delivery.World;
  fetch_template : jsstring -> jsstring -> TemplatePayload -> exc ProviderResponse
}.

Record TemplateResult := {
  success : bool;
  sent_id : option jsstring;
  failure : option jsstring
}.

Definition template_preview (templateName : jsstring) : jsstring :=
  js "Template: " ++ templateName.

(** [components && components.length > 0] *)
Definition given_components (components : option (list Component))
  : option (list Component) :=
  match components with
  | Some (c :: l) => Some (c :: l)
  | _ => None
  end.

Definition sendWhatsAppTemplate (w : World) (to_ templateName : jsstring)
           (language : option jsstring) (components : option (list Component))
           (userId : option jsstring) : M Store TemplateResult :=
  try_catch
    (cfg <- getConfig userId ;;
     let templatePayload :=
       {| template_to := to_;
          template_name := templateName;
          language_code := match language with Some l => l | None => js "fr" end;
          template_components := given_components components |} in
     response <- lift (fetch_template w (Config.phoneNumberId cfg)
                                      (Config.accessToken cfg) templatePayload) ;;
     if negb (ok response)
     then throw (or_else (error_message response) (js "WhatsApp API error"))
     else
       (* Log message to database *)
       insert_log (base w)
         (sent_log (base w) to_ (template_preview templateName)
                   (first_message_id response)) ;;;
       ret {| success := true;
              sent_id := first_message_id response;
              failure := None |})
    (fun err =>
       (* Log error to database *)
       insert_log (base w)
         (error_log (base w) to_ (template_preview templateName) err) ;;;
       ret {| success := false; sent_id := None; failure := Some err |}).

End WithComponents.

Unset Implicit Arguments.

End Template.

Module TemplateFacts.

Import Delivery Template.

(** A store that writes every insert. *)
Definition store_writes (w : Delivery.World) : Prop :=
  forall row, insert_answer w row = inserted.

End TemplateFacts.

(** X15. With a store that writes every insert, a call of
    [sendWhatsAppTemplate] never throws and appends exactly one record for
    the recipient, with the template's name as preview: status [sent] and
    the provider's message id when it reports success, status [error] and
    the reported error text when it reports failure. The configurations are
    not touched. *)
Theorem sendWhatsAppTemplate_one_record :
  forall (Component : Type) (w : Template.World Component)
         (to_ templateName : jsstring) (language : option jsstring)
         (components : option (list Component)) (userId : option jsstring)
         (st : Delivery.Store),
    TemplateFacts.store_writes (Template.base w) ->
    exists result row,
      Template.sendWhatsAppTemplate w to_ templateName language components userId st
        = (Ok result,
           {| Delivery.configs := Delivery.configs st;
              Delivery.message_logs := Delivery.message_logs st ++ [row] |})
      /\ Logs.phone_number row = to_
      /\ Logs.message_preview row = Template.template_preview templateName
      /\ ((Template.success result = true
           /\ Logs.status row = js "sent"
           /\ Logs.message_id row = Template.sent_id result
           /\ Logs.error row = None /\ Template.failure result = None)
          \/ (Template.success result = false
              /\ Logs.status row = js "error"
              /\ Logs.message_id row = None
              /\ Template.failure result <> None
              /\ Logs.error row = Template.failure result)).
Proof.
  intros Component w to_ templateName language components userId st Hstore.
  cbv [Template.sendWhatsAppTemplate try_catch bind lift ret throw
       Delivery.getConfig Delivery.insert_log].
  repeat DeliveryFacts.step;
    try match goal with
        | H : Delivery.insert_answer _ ?row = _ |- _ =>
            rewrite (Hstore row) in H; discriminate H
        end;
    eexists _, _; (split; [reflexivity|]);
    cbn [Logs.phone_number Logs.message_preview Logs.status Logs.message_id
         Logs.error Delivery.sent_log Delivery.error_log
         Template.success Template.sent_id Template.failure];
    (split; [reflexivity|]); (split; [reflexivity|]);
    first [ left; repeat split; reflexivity
          | right; repeat split; try reflexivity; discriminate ].
Qed.

Module TemplateExample.

Definition world (accepts : bool) : Template.World unit :=
  {| Template.base := DeliveryExample.world true;
     Template.fetch_template := fun _ _ _ =>
       Ok {| Delivery.ok := accepts;
             Delivery.statusText := if accepts then js "OK" else js "Bad Request";
             Delivery.error_message :=
               if accepts then None else Some (js "Template name does not exist");
             Delivery.first_message_id :=
               if accepts then Some (js "wamid.T") else None |} |}.

End TemplateExample.

(** X15 on a template the provider refuses. *)
Lemma sendWhatsAppTemplate_one_record_witness :
  exists result row,
    Template.sendWhatsAppTemplate (TemplateExample.world false)
      (js "+242061234567") (js "welcome_message") None None (Some (js "u1"))
      DeliveryExample.store
    = (Ok result,
       {| Delivery.configs := Delivery.configs DeliveryExample.store;
          Delivery.message_logs :=
            Delivery.message_logs DeliveryExample.store ++ [row] |})
    /\ Logs.phone_number row = js "+242061234567"
    /\ Logs.message_preview row = Template.template_preview (js "welcome_message")
    /\ ((Template.success result = true
         /\ Logs.status row = js "sent"
         /\ Logs.message_id row = Template.sent_id result
         /\ Logs.error row = None /\ Template.failure result = None)
        \/ (Template.success result = false
            /\ Logs.status row = js "error"
            /\ Logs.message_id row = None
            /\ Template.failure result <> None
            /\ Logs.error row = Template.failure result)).
Proof.
  apply sendWhatsAppTemplate_one_record.
  intros row. reflexivity.
Defined.

(* ===================================================================== *)
(** * Connection test ([initializeWhatsAppWebhook]) *)
(* ===================================================================== *)

Module Init.

Import Config.

Local Open Scope monad_scope.

(** The provider's answer to the request for the phone number, and the
    store's answer to an update of the configurations. *)
Record InfoResponse := {
  ok : bool;
  statusText : jsstring;
  error_code : option N;         (* [errorData.error?.code] *)
  error_message : option jsstring
}.

Inductive UpdateAnswer :=
| applied
| not_applied (error : jsstring)
| update_rejected (message : jsstring).

Record World := {
  now : N;
  fetch_phone : jsstring -> jsstring -> exc InfoResponse;
  update_answer : UpdateAnswer
}.

Inductive InitResult :=
| init_success
| init_error (error : jsstring).

Definition with_activity (active : bool) (now : N) (r : ConfigRow) : ConfigRow :=
  {| user_id := user_id r;
     is_active := active;
     access_token := access_token r;
     phone_number_id := phone_number_id r;
     whatsapp_business_account_id := whatsapp_business_account_id r;
     updated_at := now |}.

Definition has_phone (phoneNumberId : jsstring) (r : ConfigRow) : bool :=
  match phone_number_id r with
  | Some p => Js.eqb p phoneNumberId
  | None => false
  end.

(** [.update({ is_active, updated_at }).eq('phone_number_id', phoneNumberId)] *)
Definition set_activity (w : World) (active : bool) (phoneNumberId : jsstring)
  : M (list ConfigRow) unit :=
  fun table =>
    match update_answer w with
    | applied =>
        (Ok tt,
         map (fun r => if has_phone phoneNumberId r
                       then with_activity active (now w) r else r)
             table)
    | not_applied _ => (Ok tt, table)
    | update_rejected e => (Throw e, table)
    end.

(** [config.source === 'user_config' || config.source === 'fallback_user_config'] *)
Definition from_user_table (src : Source) : bool :=
  match src with
  | user_config => true
  | fallback_user_config => true
  end.

Definition initializeWhatsAppWebhook (w : World) : M (list ConfigRow) InitResult :=
  try_catch
    (config <- (fun table => (getWhatsAppConfig None table, table)) ;;
     (* Validate access token format *)
     if negb (startsWith (js "EAA") (accessToken config))
     then ret (init_error (js "Invalid token format"))
     else
       try_catch
         (response <- lift (fetch_phone w (phoneNumberId config) (accessToken config)) ;;
          if negb (ok response) then
            match error_code response with
            | Some 190%N =>
                (if from_user_table (source config)
                 then set_activity w false (phoneNumberId config)
                 else ret tt) ;;;
                ret (init_error (js "Token expired"))
            | _ =>
                ret (init_error (js "API error: "
                                    ++ or_else (error_message response)
                                               (statusText response)))
            end
          else
            (if from_user_table (source config)
             then set_activity w true (phoneNumberId config)
             else ret tt) ;;;
            ret init_success)
         (fun apiError =>
            ret (init_error (js "API connection failed: " ++ apiError))))
    (fun error => ret (init_error (js "Initialization failed: " ++ error))).

End Init.

Module InitFacts.

Import Config Init.

(** Two rows that differ at most by their activity and update time. *)
Definition same_credentials (old new : ConfigRow) : Prop :=
  user_id new = user_id old
  /\ access_token new = access_token old
  /\ phone_number_id new = phone_number_id old
  /\ whatsapp_business_account_id new = whatsapp_business_account_id old.

Lemma same_credentials_refl table : Forall2 same_credentials table table.
Proof. induction table; constructor; [repeat split | assumption]. Qed.

Lemma set_activity_rows w active pid table :
  Forall2 same_credentials table (snd (set_activity w active pid table)).
Proof.
  unfold set_activity. destruct (update_answer w); cbn [snd];
    try apply same_credentials_refl.
  induction table as [|r t IH]; cbn [map]; constructor; [|exact IH].
  destruct (has_phone pid r); repeat split.
Qed.

(** The outcome of the test, by what was resolved and answered. *)
Lemma initialize_cases w table :
  (exists e, getWhatsAppConfig None table = Throw e
             /\ initializeWhatsAppWebhook w table
                = (Ok (init_error (js "Initialization failed: " ++ e)), table))
  \/ exists config,
       getWhatsAppConfig None table = Ok config
       /\ ((startsWith (js "EAA") (accessToken config) = false
            /\ initializeWhatsAppWebhook w table
               = (Ok (init_error (js "Invalid token format")), table))
           \/ (startsWith (js "EAA") (accessToken config) = true
               /\ exists result active,
                    initializeWhatsAppWebhook w table
                    = (Ok result,
                       snd (set_activity w active (phoneNumberId config) table))
                    \/ initializeWhatsAppWebhook w table = (Ok result, table))).
Proof.
  unfold initializeWhatsAppWebhook, try_catch, bind, lift, ret.
  destruct (getWhatsAppConfig None table) as [config|e]; [|left; eauto].
  right. exists config. split; [reflexivity|].
  destruct (startsWith (js "EAA") (accessToken config)); cbn [negb];
    [|left; split; reflexivity].
  right. split; [reflexivity|].
  destruct (fetch_phone w (phoneNumberId config) (accessToken config))
    as [response|e]; [|eexists _, true; right; reflexivity].
  destruct (ok response); cbn [negb].
  - destruct (source config); cbn [from_user_table];
      destruct (set_activity w true (phoneNumberId config) table) as [[[]|e] t] eqn:E;
      eexists _, true; left; rewrite E; reflexivity.
  - destruct (error_code response) as [[|p]|];
      try (eexists _, true; right; reflexivity).
    destruct (N.eq_dec (N.pos p) 190) as [E190|N190].
    + injection E190 as ->.
      destruct (source config); cbn [from_user_table];
        destruct (set_activity w false (phoneNumberId config) table) as [[[]|e] t] eqn:E;
        eexists _, false; left; rewrite E; reflexivity.
    + do 8 (destruct p as [p|p|]; try (eexists _, true; right; reflexivity));
        exfalso; apply N190; reflexivity.
Qed.

End InitFacts.

(** X16. The connection test never throws and never adds, removes or reorders
    configurations, nor changes a user id or a credential: the table after
    the test differs from the table before at most by the activity flag and
    the update time of its rows. *)
Theorem initializeWhatsAppWebhook_keeps_credentials :
  forall (w : Init.World) (table : list Config.ConfigRow),
    exists result table',
      Init.initializeWhatsAppWebhook w table = (Ok result, table')
      /\ Forall2 InitFacts.same_credentials table table'.
Proof.
  intros w table.
  destruct (InitFacts.initialize_cases w table)
    as [(e & _ & E) | (config & _ & [[_ E] | (_ & result & active & [E | E])])];
    rewrite E; eexists _, _; (split; [reflexivity|]);
    first [ apply InitFacts.same_credentials_refl
          | apply InitFacts.set_activity_rows ].
Qed.

Module ExpiryFacts.

Import Config Init.

Lemma js_eqb_refl a : Js.eqb a a = true.
Proof. unfold Js.eqb. destruct (list_eq_dec N.eq_dec a a); congruence. Qed.

(** A configuration that is returned comes from an active row of the table
    that has both credentials. *)
Lemma resolved_row userId table cfg :
  getWhatsAppConfig userId table = Ok cfg ->
  exists r src, In r table /\ is_active r = true /\ has_credentials r = true
                /\ cfg = config_of r src.
Proof.
  unfold getWhatsAppConfig.
  destruct (user_specific userId table) as [c|] eqn:Hu.
  - intros [= <-].
    destruct (@ConfigFacts.user_specific_inv userId table c Hu)
      as (r & (uid & _ & _ & Hrows & Hc) & ->).
    assert (Hin : In r (user_rows uid table)) by (rewrite Hrows; left; reflexivity).
    apply (@ConfigFacts.user_rows_active uid table r) in Hin as [Hin Ha].
    exists r, user_config. auto.
  - rewrite ConfigFacts.fallback_query.
    destruct (most_recent (active_rows table)) as [r|] eqn:Hm; [|discriminate].
    destruct (has_credentials r) eqn:Hc; [|discriminate].
    intros [= <-].
    apply (@ConfigFacts.most_recent_in (active_rows table) r) in Hm.
    apply filter_In in Hm as [Hin Ha].
    exists r, fallback_user_config. auto.
Qed.

Lemma deactivated_rows w pid table r :
  update_answer w = applied ->
  In r (snd (set_activity w false pid table)) ->
  has_phone pid r = true -> is_active r = false.
Proof.
  intros Ha. unfold set_activity. rewrite Ha. cbn [snd].
  intros Hin Hp. apply in_map_iff in Hin as (r0 & E & _).
  destruct (has_phone pid r0) eqn:H0; subst r.
  - reflexivity.
  - rewrite H0 in Hp. discriminate Hp.
Qed.

Lemma config_phone r src :
  has_credentials r = true ->
  has_phone (phoneNumberId (config_of r src)) r = true.
Proof.
  unfold has_credentials, has_phone, config_of. cbn [phoneNumberId].
  intros H. apply andb_true_iff in H as [_ Hp].
  destruct (phone_number_id r) as [p|]; [|discriminate Hp].
  cbn [truthy_opt] in Hp. cbn [or_else]. rewrite Hp. apply js_eqb_refl.
Qed.

End ExpiryFacts.

(** X17. When the provider answers the connection test with error code 190
    (token expired) and the store applies the update, the test reports
    [Token expired] and every configuration with the tested phone number id
    is inactive afterwards; from then on no resolution, for any user,
    returns a configuration with that phone number id. *)
Theorem initializeWhatsAppWebhook_expired_token :
  forall (w : Init.World) (table : list Config.ConfigRow)
         (config : Config.WhatsAppConfig) (response : Init.InfoResponse),
    Config.getWhatsAppConfig None table = Ok config ->
    startsWith (js "EAA") (Config.accessToken config) = true ->
    Init.fetch_phone w (Config.phoneNumberId config) (Config.accessToken config)
      = Ok response ->
    Init.ok response = false -> Init.error_code response = Some 190%N ->
    Init.update_answer w = Init.applied ->
    exists table',
      Init.initializeWhatsAppWebhook w table
        = (Ok (Init.init_error (js "Token expired")), table')
      /\ (forall r, In r table' ->
                    Init.has_phone (Config.phoneNumberId config) r = true ->
                    Config.is_active r = false)
      /\ (forall userId cfg,
             Config.getWhatsAppConfig userId table' = Ok cfg ->
             Config.phoneNumberId cfg <> Config.phoneNumberId config).
Proof.
  intros w table config response Hcfg Htok Hfetch Hok Hcode Happ.
  exists (snd (Init.set_activity w false (Config.phoneNumberId config) table)).
  assert (Hrows : forall r,
             In r (snd (Init.set_activity w false (Config.phoneNumberId config) table)) ->
             Init.has_phone (Config.phoneNumberId config) r = true ->
             Config.is_active r = false).
  { intros r. apply ExpiryFacts.deactivated_rows, Happ. }
  split; [|split; [exact Hrows|]].
  - unfold Init.initializeWhatsAppWebhook, try_catch, bind, lift, ret.
    rewrite Hcfg, Htok. cbn [negb]. rewrite Hfetch, Hok. cbn [negb].
    rewrite Hcode.
    destruct (Config.source config); cbn [Init.from_user_table];
      unfold Init.set_activity; rewrite Happ; reflexivity.
  - intros userId cfg Hres Heq.
    destruct (ExpiryFacts.resolved_row userId _ cfg Hres)
      as (r & src & Hin & Hact & Hcred & ->).
    pose proof (ExpiryFacts.config_phone r src Hcred) as Hp.
    rewrite Heq in Hp. rewrite (Hrows r Hin Hp) in Hact. discriminate Hact.
Qed.

Module InitExample.

Definition world : Init.World :=
  {| Init.now := 500;
     Init.fetch_phone := fun _ _ =>
       Ok {| Init.ok := false; Init.statusText := js "Unauthorized";
             Init.error_code := Some 190%N;
             Init.error_message := Some (js "Session has expired") |};
     Init.update_answer := Init.applied |}.

End InitExample.

(** X17 on the table of three configurations, which all carry the same phone
    number id. *)
Lemma initializeWhatsAppWebhook_expired_token_witness :
  exists table',
    Init.initializeWhatsAppWebhook InitExample.world ConfigExample.table
      = (Ok (Init.init_error (js "Token expired")), table')
    /\ (forall r, In r table' ->
                  Init.has_phone (js "1055") r = true ->
                  Config.is_active r = false)
    /\ (forall userId cfg,
           Config.getWhatsAppConfig userId table' = Ok cfg ->
           Config.phoneNumberId cfg <> js "1055").
Proof.
  apply (initializeWhatsAppWebhook_expired_token
           InitExample.world ConfigExample.table
           (Config.config_of (ConfigExample.row "u2" true (Some (js "EAA2")) 20)
                             Config.fallback_user_config)
           {| Init.ok := false; Init.statusText := js "Unauthorized";
              Init.error_code := Some 190%N;
              Init.error_message := Some (js "Session has expired") |});
    reflexivity.
Defined.

(* ===================================================================== *)
(** * Status lookup ([checkMessageStatus]) *)
(* ===================================================================== *)

Module StatusCheck.

Import Logs.

(** The answer of the [check-message-status] function. *)
Record EdgeResponse := {
  ok : bool;
  code : N;
  statusText : jsstring;
  data_status : option jsstring
}.

(** The collaborators: the error the store reports for the query, if any,
    the error it reports when several rows match, and the call of the
    function (which may reject). *)
Record World := {
  query_error : option jsstring;
  multiple_rows : jsstring;
  fetch_status : jsstring -> exc EdgeResponse
}.

Inductive Details :=
| no_details
| from_log (messageLog : MessageLog)
| from_function (data : EdgeResponse).

Record StatusAnswer := { status : jsstring; details : Details }.

(** [.select('*').eq('message_id', messageId).maybeSingle()] *)
Definition select_log (w : World) (messageId : jsstring) (logs : list MessageLog)
  : exc (option MessageLog) :=
  match query_error w with
  | Some e => Throw e
  | None =>
      match filter (matches_id messageId) logs with
      | [] => Ok None
      | [r] => Ok (Some r)
      | _ => Throw (multiple_rows w)
      end
  end.

(** The call of the function, inside its own [try]. *)
Definition ask_function (w : World) (messageId : jsstring) : exc StatusAnswer :=
  match fetch_status w messageId with
  | Throw e => Throw e
  | Ok response =>
      if negb (ok response)
      then Throw (js "Edge Function error: " ++ of_number (code response)
                     ++ js " " ++ statusText response)
      else Ok {| status := or_else (data_status response) (js "pending");
                 details := from_function response |}
  end.

Definition checkMessageStatus (w : World) (messageId : jsstring)
           (logs : list MessageLog) : StatusAnswer :=
  match
    (* Validate messageId parameter *)
    if negb (truthy messageId) || Js.eqb (trim messageId) []
    then Throw (js "Invalid message ID provided for status check")
    else
      (* First check our local database for status *)
      match select_log w messageId logs with
      | Throw e => Throw e
      | Ok (Some messageLog) =>
          Ok {| status := Logs.status messageLog; details := from_log messageLog |}
      | Ok None =>
          (* If not found in database, check via Edge Function *)
          match ask_function w messageId with
          | Ok answer => Ok answer
          | Throw _ =>
              (* If all methods fail, return pending status *)
              Ok {| status := js "pending"; details := no_details |}
          end
      end
  with
  | Ok answer => answer
  | Throw _ => {| status := js "failed"; details := no_details |}
  end.

End StatusCheck.

Module StatusCheckFacts.

Import Logs StatusCheck.

(** A message id that passes the validation. *)
Definition usable (messageId : jsstring) : bool :=
  truthy messageId && negb (Js.eqb (trim messageId) []).

Lemma usable_guard messageId :
  usable messageId = true ->
  negb (truthy messageId) || Js.eqb (trim messageId) [] = false.
Proof.
  unfold usable. intros H. apply andb_true_iff in H as [H1 H2].
  rewrite H1. apply negb_true_iff in H2. rewrite H2. reflexivity.
Qed.

Lemma matches_id_updated id st now r :
  matches_id id (StatusFacts.updated st now r) = matches_id id r.
Proof. reflexivity. Qed.

Lemma filter_update_status id st now logs :
  filter (matches_id id) (update_status (Some st) now id logs)
    = map (StatusFacts.updated st now) (filter (matches_id id) logs).
Proof.
  induction logs as [|r logs IH]; [reflexivity|].
  unfold update_status in *. cbn [map filter].
  destruct (matches_id id r) eqn:Hm.
  - fold (StatusFacts.updated st now r).
    rewrite matches_id_updated, Hm. cbn [map]. f_equal. exact IH.
  - rewrite Hm. exact IH.
Qed.

Lemma filter_none_app id logs row :
  (forall r, In r logs -> message_id r <> Some id) ->
  message_id row = Some id ->
  filter (matches_id id) (logs ++ [row]) = [row].
Proof.
  intros Hnone Hrow. rewrite filter_app.
  assert (E : filter (matches_id id) logs = []).
  { induction logs as [|r logs IH]; [reflexivity|]. cbn [filter].
    rewrite (@WebhookFacts.matches_id_false id r (Hnone r (or_introl eq_refl))).
    apply IH. intros r' Hr'. apply Hnone. right. exact Hr'. }
  rewrite E. cbn [filter app]. unfold matches_id. rewrite Hrow.
  rewrite ExpiryFacts.js_eqb_refl. reflexivity.
Qed.

Lemma check_single w id logs r :
  usable id = true -> query_error w = None ->
  filter (matches_id id) logs = [r] ->
  checkMessageStatus w id logs
    = {| status := Logs.status r; details := from_log r |}.
Proof.
  intros Hu Hq Hf. unfold checkMessageStatus, select_log.
  rewrite (usable_guard id Hu), Hq, Hf. reflexivity.
Qed.

End StatusCheckFacts.

(** X18. When exactly one delivery record carries the message id,
    [checkMessageStatus] answers with the status of that record and does not
    depend on the status function at all. *)
Theorem checkMessageStatus_local_record :
  forall (w : StatusCheck.World) (messageId : jsstring)
         (logs : list Logs.MessageLog) (r : Logs.MessageLog),
    StatusCheckFacts.usable messageId = true ->
    StatusCheck.query_error w = None ->
    filter (Logs.matches_id messageId) logs = [r] ->
    StatusCheck.checkMessageStatus w messageId logs
      = {| StatusCheck.status := Logs.status r;
           StatusCheck.details := StatusCheck.from_log r |}
    /\ forall fetch',
         StatusCheck.checkMessageStatus
           {| StatusCheck.query_error := None;
              StatusCheck.multiple_rows := StatusCheck.multiple_rows w;
              StatusCheck.fetch_status := fetch' |} messageId logs
         = StatusCheck.checkMessageStatus w messageId logs.
Proof.
  intros w messageId logs r Hu Hq Hf. split.
  - apply StatusCheckFacts.check_single; assumption.
  - intros fetch'.
    rewrite (StatusCheckFacts.check_single w messageId logs r Hu Hq Hf).
    apply StatusCheckFacts.check_single; [exact Hu | reflexivity | exact Hf].
Qed.

Module StatusCheckExample.

Definition world : StatusCheck.World :=
  {| StatusCheck.query_error := None;
     StatusCheck.multiple_rows := js "multiple rows";
     StatusCheck.fetch_status := fun _ => Throw (js "Failed to fetch") |}.

End StatusCheckExample.

(** X18 on the table of two records. *)
Lemma checkMessageStatus_local_record_witness :
  StatusCheck.checkMessageStatus StatusCheckExample.world (js "wamid.1")
                                 WebhookFacts.sample_logs
  = {| StatusCheck.status := js "sent";
       StatusCheck.details :=
         StatusCheck.from_log (WebhookFacts.log "sent" (Some (js "wamid.1"))) |}.
Proof.
  apply (proj1 (checkMessageStatus_local_record
                  StatusCheckExample.world (js "wamid.1") WebhookFacts.sample_logs
                  (WebhookFacts.log "sent" (Some (js "wamid.1")))
                  eq_refl eq_refl eq_refl)).
Defined.

(** X19. [checkMessageStatus] answers [failed], without details, for an empty
    or blank message id, for a query the store answers with an error, and for
    a message id that several delivery records carry; for an id no record
    carries and a status function that cannot be reached it answers
    [pending]. *)
Theorem checkMessageStatus_failed_and_pending :
  forall (w : StatusCheck.World) (messageId : jsstring)
         (logs : list Logs.MessageLog),
    (StatusCheckFacts.usable messageId = false
     \/ StatusCheck.query_error w <> None
     \/ 2 <= length (filter (Logs.matches_id messageId) logs) ->
     StatusCheck.checkMessageStatus w messageId logs
       = {| StatusCheck.status := js "failed";
            StatusCheck.details := StatusCheck.no_details |})
    /\ (StatusCheckFacts.usable messageId = true ->
        StatusCheck.query_error w = None ->
        filter (Logs.matches_id messageId) logs = [] ->
        (forall response, StatusCheck.fetch_status w messageId = Ok response ->
                          StatusCheck.ok response = false) ->
        StatusCheck.checkMessageStatus w messageId logs
          = {| StatusCheck.status := js "pending";
               StatusCheck.details := StatusCheck.no_details |}).
Proof.
  intros w messageId logs. split.
  - intros H. unfold StatusCheck.checkMessageStatus, StatusCheck.select_log.
    destruct (StatusCheckFacts.usable messageId) eqn:Hu.
    + rewrite (StatusCheckFacts.usable_guard messageId Hu).
      destruct (StatusCheck.query_error w) as [e|]; [reflexivity|].
      destruct H as [H | [H | H]]; [discriminate H | congruence |].
      destruct (filter (Logs.matches_id messageId) logs) as [|r [|r2 l]];
        cbn [length] in H; try lia. reflexivity.
    + unfold StatusCheckFacts.usable in Hu.
      destruct (truthy messageId); cbn [negb orb andb] in *; [|reflexivity].
      apply negb_false_iff in Hu. rewrite Hu. reflexivity.
  - intros Hu Hq Hf Hdown.
    unfold StatusCheck.checkMessageStatus, StatusCheck.select_log,
      StatusCheck.ask_function.
    rewrite (StatusCheckFacts.usable_guard messageId Hu), Hq, Hf.
    destruct (StatusCheck.fetch_status w messageId) as [response|e] eqn:E;
      [|reflexivity].
    rewrite (Hdown response eq_refl). reflexivity.
Qed.

(** X19 on a blank message id, and on an unknown one. *)
Lemma checkMessageStatus_failed_and_pending_witness :
  StatusCheck.checkMessageStatus StatusCheckExample.world (js "   ")
                                 WebhookFacts.sample_logs
  = {| StatusCheck.status := js "failed";
       StatusCheck.details := StatusCheck.no_details |}
  /\ StatusCheck.checkMessageStatus StatusCheckExample.world (js "wamid.9")
                                    WebhookFacts.sample_logs
     = {| StatusCheck.status := js "pending";
          StatusCheck.details := StatusCheck.no_details |}.
Proof.
  split.
  - apply (proj1 (checkMessageStatus_failed_and_pending
                    StatusCheckExample.world (js "   ") WebhookFacts.sample_logs)).
    left. reflexivity.
  - apply (proj2 (checkMessageStatus_failed_and_pending
                    StatusCheckExample.world (js "wamid.9") WebhookFacts.sample_logs));
      try reflexivity.
    intros response H. discriminate H.
Defined.

(** X20. After [processStatusUpdate] has applied an update for a message id
    that exactly one delivery record carries, [checkMessageStatus] answers
    with the status of the update. *)
Theorem status_update_then_check :
  forall (a : Webhook.StoreAnswer) (data : Webhook.StatusData)
         (w : StatusCheck.World) (logs : list Logs.MessageLog)
         (id st : jsstring) (r : Logs.MessageLog),
    Webhook.messageId data = Some id -> StatusCheckFacts.usable id = true ->
    Webhook.new_status data = Some st -> truthy st = true ->
    Webhook.updateError a = None -> StatusCheck.query_error w = None ->
    filter (Logs.matches_id id) logs = [r] ->
    StatusCheck.status
      (StatusCheck.checkMessageStatus w id
         (snd (Webhook.processStatusUpdate a data logs))) = st.
Proof.
  intros a data w logs id st r Hid Hu Hst Tst Herr Hq Hf.
  assert (Tid : truthy id = true).
  { unfold StatusCheckFacts.usable in Hu. apply andb_true_iff in Hu as [Hu _].
    exact Hu. }
  destruct (StatusFacts.processStatusUpdate_cases a data logs)
    as [[Hb _] | [(e & He & _) | (id' & st' & Hid' & _ & Hst' & _ & _ & E)]].
  - rewrite Hid, Hst in Hb. cbn [truthy_opt] in Hb. rewrite Tid, Tst in Hb.
    discriminate Hb.
  - rewrite Herr in He. discriminate He.
  - rewrite Hid in Hid'. rewrite Hst in Hst'.
    injection Hid' as <-. injection Hst' as <-. rewrite E. cbn [snd].
    rewrite (StatusCheckFacts.check_single w id _
               (StatusFacts.updated st (Webhook.now a) r) Hu Hq).
    + reflexivity.
    + rewrite StatusCheckFacts.filter_update_status, Hf. reflexivity.
Qed.

(** X20 on the table of two records. *)
Lemma status_update_then_check_witness :
  StatusCheck.status
    (StatusCheck.checkMessageStatus StatusCheckExample.world (js "wamid.1")
       (snd (Webhook.processStatusUpdate
               WebhookFacts.sample_answer
               {| Webhook.type := None; Webhook.messageId := Some (js "wamid.1");
                  Webhook.new_status := Some (js "delivered") |}
               WebhookFacts.sample_logs))) = js "delivered".
Proof.
  apply (status_update_then_check
           WebhookFacts.sample_answer
           {| Webhook.type := None; Webhook.messageId := Some (js "wamid.1");
              Webhook.new_status := Some (js "delivered") |}
           StatusCheckExample.world WebhookFacts.sample_logs
           (js "wamid.1") (js "delivered")
           (WebhookFacts.log "sent" (Some (js "wamid.1"))));
    reflexivity.
Defined.

(** X21. After a call of [sendWhatsAppResponse] that returned with a message
    id no earlier delivery record carries, and whose record the store wrote,
    [checkMessageStatus] answers [sent] for that id. *)
Theorem send_then_check :
  forall (w : Delivery.World) (c : StatusCheck.World)
         (to_ message : jsstring) (media : option Delivery.Media)
         (userId : option jsstring) (st st' : Delivery.Store)
         (response : Delivery.ProviderResponse) (id : jsstring),
    Delivery.sendWhatsAppResponse w to_ message media userId st
      = (Ok response, st') ->
    Delivery.first_message_id response = Some id ->
    StatusCheckFacts.usable id = true ->
    (forall row, Delivery.insert_answer w row = Delivery.inserted) ->
    (forall r, In r (Delivery.message_logs st) -> Logs.message_id r <> Some id) ->
    StatusCheck.query_error c = None ->
    StatusCheck.status
      (StatusCheck.checkMessageStatus c id (Delivery.message_logs st')) = js "sent".
Proof.
  intros w c to_ message media userId st st' response id Hsend Hid Hu Hins Hnew Hq.
  pose proof (ResponseFacts.sendWhatsAppResponse_spec w to_ message media userId st)
    as Hspec.
  rewrite Hsend in Hspec.
  destruct Hspec as (_ & _ & sanitized & _ & _ & Hlogs).
  cbv zeta in Hlogs. rewrite Hins in Hlogs. cbn [RecordFacts.written] in Hlogs.
  rewrite Hlogs.
  rewrite (StatusCheckFacts.check_single c id _ _ Hu Hq
             (StatusCheckFacts.filter_none_app id (Delivery.message_logs st)
                (Delivery.sent_log w to_ (RecordFacts.preview_of media sanitized)
                                   (Delivery.first_message_id response))
                Hnew Hid)).
  reflexivity.
Qed.

(** X21 on a text message to a store without records. *)
Lemma send_then_check_witness :
  StatusCheck.status
    (StatusCheck.checkMessageStatus StatusCheckExample.world (js "wamid.A")
       (Delivery.message_logs
          (snd (Delivery.sendWhatsAppResponse
                  (DeliveryExample.world true) (js "+242061234567") (js "Bonjour")
                  None (Some (js "u1")) DeliveryExample.store))))
  = js "sent".
Proof.
  apply (send_then_check
           (DeliveryExample.world true) StatusCheckExample.world
           (js "+242061234567") (js "Bonjour") None (Some (js "u1"))
           DeliveryExample.store
           (snd (Delivery.sendWhatsAppResponse
                   (DeliveryExample.world true) (js "+242061234567") (js "Bonjour")
                   None (Some (js "u1")) DeliveryExample.store))
           DeliveryExample.provider_ok (js "wamid.A"));
    try reflexivity.
  intros r [].
Defined.

(* ===================================================================== *)
(** ** What the education responder writes *)
(* ===================================================================== *)

Module ConversationFacts.

Import Responder.

Local Open Scope monad_scope.

(** What the store keeps of the insert of a conversation row. *)
Definition stored (w : World) (row : ConversationRow) : list ConversationRow :=
  if conversation_written w row then [row] else [].

(** The store after the insert of a conversation row. *)
Definition save (w : World) (row : ConversationRow) (st : Store) : Store :=
  snd (write (conversation_written w row) (add_conversation row) st).

Lemma save_run w row st :
  write (conversation_written w row) (add_conversation row) st
    = (Ok tt, save w row st).
Proof. apply FallbackFacts.write_run. Qed.

Lemma save_conversations w row st :
  customer_conversations (save w row st)
    = customer_conversations st ++ stored w row.
Proof.
  unfold save, stored, write. destruct (conversation_written w row).
  - reflexivity.
  - symmetry. apply app_nil_r.
Qed.

(** The store after the profile of the sender was looked up or created. *)
Definition profile_stage (w : World) (st st1 : Store) : Prop :=
  st1 = st \/ (exists pid, st1 = touch_profile w pid st)
  \/ (exists p, st1 = add_profile p st).

(** The store after an analysis. *)
Definition analysis_stage (st st1 : Store) : Prop :=
  st1 = st \/ exists row, st1 = add_analytics row st.

Lemma getOrCreateStudentProfile_stage w phone st :
  profile_stage w st (snd (getOrCreateStudentProfile w phone st)).
Proof.
  unfold getOrCreateStudentProfile, try_catch, bind, get, write, modify, ret,
    throw, profile_stage.
  destruct (single _) as [existing|].
  - destruct (activity_written w (id existing)).
    + right; left. eexists. reflexivity.
    + left. reflexivity.
  - destruct (profile_insert_error w).
    + left. reflexivity.
    + right; right. eexists. reflexivity.
Qed.

Lemma resolve_user_store student phone st :
  snd (resolve_user student phone st) = st.
Proof.
  unfold resolve_user, bind, get, ret, throw.
  destruct (truthy_opt _); [reflexivity|].
  destruct (maybeSingle _); reflexivity.
Qed.

Lemma analyzeStudentMessage_stage w message studentId st :
  analysis_stage st (snd (analyzeStudentMessage w message studentId st)).
Proof.
  unfold analyzeStudentMessage, try_catch, bind, get, write, modify, ret, throw,
    lift, analysis_stage.
  destruct (student_user studentId st) as [uid|]; [|left; reflexivity].
  destruct (createGroqClient w uid) as [groq|e]; [|left; reflexivity].
  destruct (chat_completion w groq _) as [completion|e]; [|left; reflexivity].
  destruct (parse_analysis w _) as [analysis|e]; [|left; reflexivity].
  cbv zeta. destruct (analytics_written w _).
  - right. eexists. reflexivity.
  - left. reflexivity.
Qed.

Lemma analyzeStudentImage_stage w url studentId st :
  analysis_stage st (snd (analyzeStudentImage w url studentId st)).
Proof.
  unfold analyzeStudentImage, try_catch, bind, get, write, modify, ret, throw,
    lift, analysis_stage.
  destruct (student_user studentId st) as [uid|]; [|left; reflexivity].
  destruct (createGroqClient w uid) as [groq|e]; [|left; reflexivity].
  destruct (chat_completion w groq _) as [completion|e]; [|left; reflexivity].
  destruct (parse_analysis w _) as [analysis|e]; [|left; reflexivity].
  cbv zeta. destruct (analytics_written w _).
  - right. eexists. reflexivity.
  - left. reflexivity.
Qed.

(** How far a run of the [try] block got. *)
Inductive trace (w : World) (m : Message) (st : Store)
  : exc Message -> Store -> Prop :=
| stopped_early e st1 :
    profile_stage w st st1 -> trace w m st (Throw e) st1
| stopped_late e st1 st2 :
    profile_stage w st st1 ->
    analysis_stage (save w (inbound_row m) st1) st2 ->
    trace w m st (Throw e) st2
| replied text analysis st1 st2 :
    profile_stage w st st1 ->
    analysis_stage (save w (inbound_row m) st1) st2 ->
    trace w m st (Ok (bot_reply m text))
          (save w (reply_row w (bot_reply m text) analysis) st2).

Lemma process_body_trace w m st :
  trace w m st (fst (process_body w m st)) (snd (process_body w m st)).
Proof.
  unfold process_body. cbv [lift].
  rewrite bind_run. cbv beta.
  destruct (checkSubscriptionStatus w (phoneNumber m)) as [has|e];
    [|apply stopped_early; left; reflexivity].
  rewrite bind_run.
  pose proof (getOrCreateStudentProfile_stage w (phoneNumber m) st) as Hp.
  destruct (getOrCreateStudentProfile w (phoneNumber m) st) as [[student|e] st1];
    cbn [snd] in Hp; [|apply stopped_early; exact Hp].
  rewrite bind_run.
  pose proof (resolve_user_store student (phoneNumber m) st1) as Hr.
  destruct (resolve_user student (phoneNumber m) st1) as [[userId|e] st1'];
    cbn [snd] in Hr; subst st1'; [|apply stopped_early; exact Hp].
  rewrite bind_run. cbv beta.
  destruct (createGroqClient w userId) as [groq|e];
    [|apply stopped_early; exact Hp].
  rewrite bind_run, save_run.
  destruct (truthy_opt (imageUrl m)).
  - rewrite bind_run.
    pose proof (analyzeStudentImage_stage w (or_else (imageUrl m) []) (id student)
                  (save w (inbound_row m) st1)) as Ha.
    destruct (analyzeStudentImage w (or_else (imageUrl m) []) (id student)
                (save w (inbound_row m) st1)) as [[analysis|e] st2];
      cbn [snd] in Ha; [|eapply stopped_late; eassumption].
    rewrite bind_run. cbv beta.
    destruct (chat_completion w groq _) as [completion|e];
      [|eapply stopped_late; eassumption].
    cbv zeta. unfold save_reply. rewrite bind_run, save_run.
    cbv [ret fst snd].
    eapply (replied w m st _ analysis); eassumption.
  - rewrite bind_run.
    pose proof (analyzeStudentMessage_stage w (content m) (id student)
                  (save w (inbound_row m) st1)) as Ha.
    destruct (analyzeStudentMessage w (content m) (id student)
                (save w (inbound_row m) st1)) as [[analysis|e] st2];
      cbn [snd] in Ha; [|eapply stopped_late; eassumption].
    rewrite bind_run. cbv beta.
    destruct (chat_completion w groq _) as [completion|e];
      [|eapply stopped_late; eassumption].
    cbv zeta. unfold save_reply. rewrite bind_run, save_run.
    cbv [ret fst snd].
    eapply (replied w m st _ analysis); eassumption.
Qed.

Lemma profile_stage_conversations w st st1 :
  profile_stage w st st1 ->
  customer_conversations st1 = customer_conversations st.
Proof. intros [-> | [[pid ->] | [p ->]]]; reflexivity. Qed.

Lemma analysis_stage_conversations st st1 :
  analysis_stage st st1 ->
  customer_conversations st1 = customer_conversations st.
Proof. intros [-> | [row ->]]; reflexivity. Qed.

End ConversationFacts.


Module FrameFacts.

Import Responder.

(** The columns of a student profile the responder never changes. *)
Definition identity (p : StudentProfile)
  : jsstring * jsstring * option jsstring * jsstring :=
  (id p, phone_number p, user_id p, level p).

Lemma touch_profile_identity w pid st :
  map identity (student_profiles (touch_profile w pid st))
    = map identity (student_profiles st).
Proof.
  cbn [student_profiles touch_profile]. rewrite map_map. apply map_ext.
  intros p. destruct (Js.eqb (id p) pid); reflexivity.
Qed.

(** What both stages leave alone and what they may add. *)
Record framed (st st' : Store) : Prop := {
  framed_users : profils_utilisateurs st' = profils_utilisateurs st;
  framed_groq : user_groq_config st' = user_groq_config st;
  framed_analytics :
    exists extra, length extra <= 1
                  /\ education_analytics st' = education_analytics st ++ extra;
  framed_profiles :
    exists extra, length extra <= 1
                  /\ map identity (student_profiles st')
                     = map identity (student_profiles st ++ extra)
}.

(** The insert of a conversation row touches the conversations only. *)
Lemma save_frame w row st :
  student_profiles (ConversationFacts.save w row st) = student_profiles st
  /\ profils_utilisateurs (ConversationFacts.save w row st)
     = profils_utilisateurs st
  /\ user_groq_config (ConversationFacts.save w row st) = user_groq_config st
  /\ education_analytics (ConversationFacts.save w row st)
     = education_analytics st.
Proof.
  unfold ConversationFacts.save, write.
  destruct (conversation_written w row); repeat split.
Qed.

Lemma stages_framed w st st1 st2 row :
  ConversationFacts.profile_stage w st st1 ->
  ConversationFacts.analysis_stage (ConversationFacts.save w row st1) st2 ->
  framed st st2.
Proof.
  intros Hp Ha.
  assert (Hprof : exists extra, length extra <= 1
                    /\ map identity (student_profiles st1)
                       = map identity (student_profiles st ++ extra)
                    /\ profils_utilisateurs st1 = profils_utilisateurs st
                    /\ user_groq_config st1 = user_groq_config st
                    /\ education_analytics st1 = education_analytics st).
  { destruct Hp as [-> | [[pid ->] | [p ->]]].
    - exists []. rewrite app_nil_r. repeat split. cbn [length]. lia.
    - exists []. rewrite app_nil_r, touch_profile_identity. repeat split.
      cbn [length]. lia.
    - exists [p]. repeat split. cbn [length]. lia. }
  destruct Hprof as (extra & Hlen & Hid & Hu & Hg & Han).
  destruct (save_frame w row st1) as (Sp & Su & Sg & Sa).
  destruct Ha as [-> | [r ->]]; split;
    cbn [profils_utilisateurs user_groq_config education_analytics
         student_profiles add_analytics];
    rewrite ?Sp, ?Su, ?Sg, ?Sa;
    try assumption; try (exists extra; split; assumption).
  - exists []. rewrite app_nil_r. split; [cbn [length]; lia | exact Han].
  - exists [r]. rewrite Han. split; [cbn [length]; lia | reflexivity].
Qed.

Lemma profile_stage_framed w st st1 :
  ConversationFacts.profile_stage w st st1 -> framed st st1.
Proof.
  intros Hp.
  destruct Hp as [-> | [[pid ->] | [p ->]]]; split;
    cbn [profils_utilisateurs user_groq_config education_analytics
         add_profile touch_profile];
    try reflexivity;
    try (exists []; rewrite app_nil_r; split; [cbn [length]; lia | reflexivity]).
  - exists []. rewrite app_nil_r, touch_profile_identity.
    split; [cbn [length]; lia | reflexivity].
  - exists [p]. split; [cbn [length]; lia | reflexivity].
Qed.

Lemma framed_reply w row st st' :
  framed st st' -> framed st (ConversationFacts.save w row st').
Proof.
  intros [H1 H2 H3 H4].
  destruct (save_frame w row st') as (Sp & Su & Sg & Sa).
  split; rewrite ?Sp, ?Su, ?Sg, ?Sa; assumption.
Qed.

Lemma processCustomerMessage_framed w m st :
  framed st (snd (processCustomerMessage w m st)).
Proof.
  pose proof (ConversationFacts.process_body_trace w m st) as Ht.
  unfold processCustomerMessage, try_catch, ret.
  destruct (process_body w m st) as [[r|e] st'];
    cbn [fst snd] in *;
    inversion Ht as [e' st1 Hp | e' st1 st2 Hp Ha | text analysis st1 st2 Hp Ha];
    subst.
  - apply framed_reply. eapply stages_framed; eassumption.
  - eapply profile_stage_framed; eassumption.
  - eapply stages_framed; eassumption.
Qed.

End FrameFacts.

(** X23. [processCustomerMessage] never changes the user profiles or the Groq
    configurations; it adds at most one analytics row and at most one student
    profile, and the student profiles that exist keep their id, phone number,
    user and level. *)
Theorem processCustomerMessage_frame :
  forall (w : Responder.World) (m : Responder.Message) (st : Responder.Store),
    let st' := snd (Responder.processCustomerMessage w m st) in
    Responder.profils_utilisateurs st' = Responder.profils_utilisateurs st
    /\ Responder.user_groq_config st' = Responder.user_groq_config st
    /\ (exists extra,
          length extra <= 1
          /\ Responder.education_analytics st'
             = Responder.education_analytics st ++ extra)
    /\ (exists extra,
          length extra <= 1
          /\ map FrameFacts.identity (Responder.student_profiles st')
             = map FrameFacts.identity (Responder.student_profiles st ++ extra)).
Proof.
  intros w m st st'.
  destruct (FrameFacts.processCustomerMessage_framed w m st) as [H1 H2 H3 H4].
  repeat split; assumption.
Qed.

Module ProfileFacts.

Import Responder.

Definition has_phone (phone : jsstring) (p : StudentProfile) : bool :=
  Js.eqb (phone_number p) phone.

End ProfileFacts.

(** X24. A first call of [getOrCreateStudentProfile] for a phone number no
    profile carries creates the profile (level [3ème], no user) at the end of
    the table; a second call returns that same profile and creates nothing. *)
Theorem getOrCreateStudentProfile_create_then_get :
  forall (w w' : Responder.World) (phone : jsstring) (st : Responder.Store),
    filter (ProfileFacts.has_phone phone) (Responder.student_profiles st) = [] ->
    Responder.profile_insert_error w = None ->
    exists p st1 st2,
      Responder.getOrCreateStudentProfile w phone st = (Ok p, st1)
      /\ Responder.phone_number p = phone
      /\ Responder.user_id p = None
      /\ Responder.level p = js "3ème"
      /\ Responder.student_profiles st1 = Responder.student_profiles st ++ [p]
      /\ Responder.getOrCreateStudentProfile w' phone st1 = (Ok p, st2)
      /\ map FrameFacts.identity (Responder.student_profiles st2)
         = map FrameFacts.identity (Responder.student_profiles st1).
Proof.
  intros w w' phone st Hnone Hins.
  set (p := {| Responder.id := Responder.new_profile_id w;
               Responder.phone_number := phone;
               Responder.user_id := None; Responder.level := js "3ème";
               Responder.last_active_at := None |}).
  exists p, (Responder.add_profile p st),
    (snd (Responder.write (Responder.activity_written w' (Responder.id p))
                          (Responder.touch_profile w' (Responder.id p))
                          (Responder.add_profile p st))).
  assert (E1 : Responder.getOrCreateStudentProfile w phone st
               = (Ok p, Responder.add_profile p st)).
  { unfold Responder.getOrCreateStudentProfile, try_catch, bind, Responder.get,
      Responder.modify, ret, throw.
    change (fun p0 => Js.eqb (Responder.phone_number p0) phone)
      with (ProfileFacts.has_phone phone).
    rewrite Hnone, Hins. reflexivity. }
  assert (E2 : Responder.getOrCreateStudentProfile w' phone (Responder.add_profile p st)
               = (Ok p,
                  snd (Responder.write
                         (Responder.activity_written w' (Responder.id p))
                         (Responder.touch_profile w' (Responder.id p))
                         (Responder.add_profile p st)))).
  { unfold Responder.getOrCreateStudentProfile, try_catch, bind, Responder.get,
      ret, throw.
    change (fun p0 => Js.eqb (Responder.phone_number p0) phone)
      with (ProfileFacts.has_phone phone).
    cbn [Responder.student_profiles Responder.add_profile].
    rewrite filter_app, Hnone. cbn [filter app].
    unfold ProfileFacts.has_phone at 1. cbn [Responder.phone_number p].
    rewrite ExpiryFacts.js_eqb_refl. cbn [Responder.single].
    rewrite FallbackFacts.write_run. reflexivity. }
  repeat split; try assumption; try reflexivity.
  unfold Responder.write.
  destruct (Responder.activity_written w' (Responder.id p)); cbn [snd].
  - apply FrameFacts.touch_profile_identity.
  - reflexivity.
Qed.

(** X24 on a new phone number. *)
Lemma getOrCreateStudentProfile_create_then_get_witness :
  exists p st1 st2,
    Responder.getOrCreateStudentProfile
      (ResponderExample.world None) (js "+242050000000") ResponderExample.store
      = (Ok p, st1)
    /\ Responder.phone_number p = js "+242050000000"
    /\ Responder.user_id p = None
    /\ Responder.level p = js "3ème"
    /\ Responder.student_profiles st1
       = Responder.student_profiles ResponderExample.store ++ [p]
    /\ Responder.getOrCreateStudentProfile
         (ResponderExample.world None) (js "+242050000000") st1 = (Ok p, st2)
    /\ map FrameFacts.identity (Responder.student_profiles st2)
       = map FrameFacts.identity (Responder.student_profiles st1).
Proof.
  apply (getOrCreateStudentProfile_create_then_get
           (ResponderExample.world None) (ResponderExample.world None)
           (js "+242050000000") ResponderExample.store);
    reflexivity.
Defined.

(* ===================================================================== *)
(** ** The inbound webhook ([processWebhookMessage], whatsapp-webhook.ts) *)
(* ===================================================================== *)

Module Inbound.

Import Responder.

Local Open Scope monad_scope.

(** The message data of the webhook. [created_at] is the outcome of
    [new Date(data.timestamp * 1000).toISOString()], which throws a
    [RangeError] when the timestamp gives no valid time value. *)
Record MessageData := {
  from : option jsstring;
  text : option jsstring;
  created_at : exc jsstring
}.

Record WebhookResult := {
  success : bool;
  response : option jsstring;
  chatbotType : option jsstring;
  error : option jsstring
}.

Definition failure (e : jsstring) : WebhookResult :=
  {| success := false; response := None; chatbotType := None; error := Some e |}.

(** [insert_written row]: whether the store writes the insert of the inbound
    message (its error is only logged). *)
Definition processWebhookMessage (w : World)
           (insert_written : ConversationRow -> bool) (data : MessageData)
  : M Store WebhookResult :=
  try_catch
    (if negb (truthy_opt (from data)) || negb (truthy_opt (text data))
     then throw (js "Missing required fields: from, text")
     else
       let data_from := or_else (from data) [] in
       let data_text := or_else (text data) [] in
       (* Save incoming message to database *)
       created <- lift (created_at data) ;;
       let row :=
         {| conv_phone_number := data_from; conv_content := data_text;
            conv_sender := user; conv_intent := None;
            conv_response_time := None |} in
       (if insert_written row then modify (add_conversation row) else ret tt) ;;;
       (* Get user profile from phone number *)
       st <- get ;;
       match maybeSingle (filter (fun p => Js.eqb (phone_number p) data_from)
                                 (student_profiles st)) with
       | None => ret (failure (js "User not found"))
       | Some userProfile =>
           (* Process message with appropriate chatbot *)
           let message :=
             {| phoneNumber := data_from; content := data_text;
                sender := user; imageUrl := None |} in
           response <- processCustomerMessage w message ;;
           ret {| success := true;
                  response := Some (content response);
                  chatbotType := Some (js "education");
                  error := None |}
       end)
    (fun e => ret (failure (or_else (Some e) (js "Unknown error")))).

(** The message handed to the responder. *)
Definition message_of (data : MessageData) : Message :=
  {| phoneNumber := or_else (from data) []; content := or_else (text data) [];
     sender := user; imageUrl := None |}.

End Inbound.

Module InboundFacts.

Import Responder Inbound.

Local Open Scope monad_scope.

Lemma single_some {A} (l : list A) (a : A) : single l = Some a -> l = [a].
Proof.
  destruct l as [|x [|y l]]; cbn [single]; intros H; try discriminate H.
  injection H as ->. reflexivity.
Qed.

Lemma getOrCreateStudentProfile_existing w phone st p :
  filter (ProfileFacts.has_phone phone) (student_profiles st) = [p] ->
  getOrCreateStudentProfile w phone st
    = (Ok p, snd (write (activity_written w (id p))
                        (touch_profile w (id p)) st)).
Proof.
  intros H.
  unfold getOrCreateStudentProfile, try_catch, bind, get, ret.
  change (fun p0 => Js.eqb (phone_number p0) phone)
    with (ProfileFacts.has_phone phone).
  rewrite H. cbn [single]. rewrite FallbackFacts.write_run. reflexivity.
Qed.

(** With a known sender whose profile names a user, a subscription check
    that answers, a Groq client that can be made and a store that writes the
    insert of the inbound message, the responder records that message. *)
Lemma processCustomerMessage_saves w m st p uid groq has :
  checkSubscriptionStatus w (phoneNumber m) = Ok has ->
  filter (ProfileFacts.has_phone (phoneNumber m)) (student_profiles st) = [p] ->
  user_id p = Some uid -> truthy uid = true ->
  createGroqClient w uid = Ok groq ->
  conversation_written w (inbound_row m) = true ->
  exists rest,
    length rest <= 1
    /\ customer_conversations (snd (processCustomerMessage w m st))
       = customer_conversations st ++ inbound_row m :: rest.
Proof.
  intros Hsub Hp Hu Ht Hg Hw.
  set (st1 := snd (write (activity_written w (id p)) (touch_profile w (id p)) st)).
  assert (Hst1 : ConversationFacts.profile_stage w st st1).
  { unfold st1, write. destruct (activity_written w (id p)); cbn [snd].
    - right; left. eexists. reflexivity.
    - left. reflexivity. }
  assert (Hr : resolve_user p (phoneNumber m) st1 = (Ok uid, st1)).
  { unfold resolve_user, bind, get, ret. rewrite Hu. cbn [truthy_opt or_else].
    rewrite Ht. cbn [truthy_opt or_else]. rewrite Ht. reflexivity. }
  pose proof (@FallbackFacts.process_body_found
                w m st has p st1 uid groq Hsub
                (getOrCreateStudentProfile_existing w (phoneNumber m) st p Hp)
                Hr Hg) as Hrun.
  fold (ConversationFacts.save w (inbound_row m) st1) in Hrun.
  assert (Hsaved : customer_conversations (ConversationFacts.save w (inbound_row m) st1)
                   = customer_conversations st ++ [inbound_row m]).
  { rewrite ConversationFacts.save_conversations.
    unfold ConversationFacts.stored. rewrite Hw.
    rewrite (ConversationFacts.profile_stage_conversations _ _ _ Hst1). reflexivity. }
  unfold processCustomerMessage, try_catch. rewrite Hrun.
  set (s2 := ConversationFacts.save w (inbound_row m) st1) in *.
  destruct (truthy_opt (imageUrl m)).
  - cbv zeta. rewrite bind_run.
    pose proof (ConversationFacts.analyzeStudentImage_stage
                  w (or_else (imageUrl m) []) (id p) s2) as Ha.
    destruct (analyzeStudentImage w (or_else (imageUrl m) []) (id p) s2)
      as [[analysis|e] st2]; cbn [snd] in Ha.
    + rewrite bind_run. unfold lift at 1.
      destruct (chat_completion w groq _) as [completion|e].
      * cbv zeta. unfold save_reply.
        rewrite bind_run, ConversationFacts.save_run. cbv [ret snd].
        rewrite ConversationFacts.save_conversations.
        rewrite (ConversationFacts.analysis_stage_conversations _ _ Ha), Hsaved.
        eexists. split; [|rewrite <- app_assoc; reflexivity].
        unfold ConversationFacts.stored.
        match goal with
        | |- context [if ?b then _ else _] => destruct b
        end; cbn [length]; lia.
      * cbv [ret snd]. exists [].
        rewrite (ConversationFacts.analysis_stage_conversations _ _ Ha), Hsaved.
        split; [cbn [length]; lia | reflexivity].
    + cbv [ret snd]. exists [].
      rewrite (ConversationFacts.analysis_stage_conversations _ _ Ha), Hsaved.
      split; [cbn [length]; lia | reflexivity].
  - rewrite bind_run.
    pose proof (ConversationFacts.analyzeStudentMessage_stage
                  w (content m) (id p) s2) as Ha.
    destruct (analyzeStudentMessage w (content m) (id p) s2)
      as [[analysis|e] st2]; cbn [snd] in Ha.
    + rewrite bind_run. unfold lift at 1.
      destruct (chat_completion w groq _) as [completion|e].
      * cbv zeta. unfold save_reply.
        rewrite bind_run, ConversationFacts.save_run. cbv [ret snd].
        rewrite ConversationFacts.save_conversations.
        rewrite (ConversationFacts.analysis_stage_conversations _ _ Ha), Hsaved.
        eexists. split; [|rewrite <- app_assoc; reflexivity].
        unfold ConversationFacts.stored.
        match goal with
        | |- context [if ?b then _ else _] => destruct b
        end; cbn [length]; lia.
      * cbv [ret snd]. exists [].
        rewrite (ConversationFacts.analysis_stage_conversations _ _ Ha), Hsaved.
        split; [cbn [length]; lia | reflexivity].
    + cbv [ret snd]. exists [].
      rewrite (ConversationFacts.analysis_stage_conversations _ _ Ha), Hsaved.
      split; [cbn [length]; lia | reflexivity].
Qed.

(** The [try] block after the validation and the time stamp. *)
Lemma processWebhookMessage_run (w : World) (iw : ConversationRow -> bool)
      (data : MessageData) (st : Store) (created : jsstring) :
  truthy_opt (from data) = true -> truthy_opt (text data) = true ->
  created_at data = Ok created ->
  let st1 := if iw (inbound_row (message_of data))
             then add_conversation (inbound_row (message_of data)) st
             else st in
  processWebhookMessage w iw data st
  = match maybeSingle (filter (ProfileFacts.has_phone (or_else (from data) []))
                              (student_profiles st)) with
    | None => (Ok (failure (js "User not found")), st1)
    | Some _ =>
        (Ok {| success := true;
               response :=
                 Some (content (match fst (processCustomerMessage
                                             w (message_of data) st1) with
                                | Ok reply => reply
                                | Throw _ => message_of data
                                end));
               chatbotType := Some (js "education");
               error := None |},
         snd (processCustomerMessage w (message_of data) st1))
    end.
Proof.
  intros Hf Ht Hc st1.
  unfold processWebhookMessage, try_catch.
  rewrite Hf, Ht. cbn [negb orb].
  rewrite bind_run. unfold lift at 1. rewrite Hc.
  rewrite bind_run.
  change {| conv_phone_number := or_else (from data) [];
            conv_content := or_else (text data) [];
            conv_sender := user; conv_intent := None;
            conv_response_time := None |}
    with (inbound_row (message_of data)).
  change (fun p : StudentProfile => Js.eqb (phone_number p) (or_else (from data) []))
    with (ProfileFacts.has_phone (or_else (from data) [])).
  assert (Hsame : student_profiles st1 = student_profiles st).
  { unfold st1. destruct (iw _); reflexivity. }
  assert (E : (if iw (inbound_row (message_of data))
               then modify (add_conversation (inbound_row (message_of data)))
               else ret tt) st = (Ok tt, st1)).
  { unfold st1. destruct (iw _); reflexivity. }
  rewrite E. rewrite bind_run. unfold get at 1.
  rewrite Hsame.
  destruct (maybeSingle _) as [userProfile|]; [|reflexivity].
  rewrite bind_run.
  fold (message_of data).
  unfold processCustomerMessage, try_catch.
  destruct (process_body w (message_of data) st1) as [[r|e0] st2];
    reflexivity.
Qed.

End InboundFacts.

(** X25. [processWebhookMessage] never throws. It reports success exactly
    when sender and text are present, the timestamp gives a valid time value
    and exactly one student profile carries the sender's number; the model
    plays no part in it. A request that fails the validation or the time
    conversion leaves the store as it was. *)
Theorem processWebhookMessage_success :
  forall (w : Responder.World) (insert_written : Responder.ConversationRow -> bool)
         (data : Inbound.MessageData) (st : Responder.Store),
  exists result st',
    Inbound.processWebhookMessage w insert_written data st = (Ok result, st')
    /\ (Inbound.success result = true <->
        truthy_opt (Inbound.from data) = true
        /\ truthy_opt (Inbound.text data) = true
        /\ (exists created, Inbound.created_at data = Ok created)
        /\ exists p,
             filter (ProfileFacts.has_phone (or_else (Inbound.from data) []))
                    (Responder.student_profiles st) = [p])
    /\ (truthy_opt (Inbound.from data) = false
        \/ truthy_opt (Inbound.text data) = false
        \/ (exists e, Inbound.created_at data = Throw e) ->
        st' = st).
Proof.
  intros w iw data st.
  destruct (truthy_opt (Inbound.from data)) eqn:Hf.
  2:{ eexists _, _. split.
      { unfold Inbound.processWebhookMessage, try_catch. rewrite Hf. reflexivity. }
      split; [|reflexivity].
      cbn [Inbound.success Inbound.failure]. split; [discriminate|].
      intros (H & _). discriminate H. }
  destruct (truthy_opt (Inbound.text data)) eqn:Ht.
  2:{ eexists _, _. split.
      { unfold Inbound.processWebhookMessage, try_catch. rewrite Hf, Ht.
        reflexivity. }
      split; [|reflexivity].
      cbn [Inbound.success Inbound.failure]. split; [discriminate|].
      intros (_ & H & _). discriminate H. }
  destruct (Inbound.created_at data) as [created|e] eqn:Hc.
  2:{ eexists _, _. split.
      { unfold Inbound.processWebhookMessage, try_catch. rewrite Hf, Ht.
        cbn [negb orb]. rewrite bind_run. unfold lift at 1.
        rewrite Hc. reflexivity. }
      split; [|reflexivity].
      cbn [Inbound.success Inbound.failure]. split; [discriminate|].
      intros (_ & _ & (c & H) & _). discriminate H. }
  rewrite (InboundFacts.processWebhookMessage_run w iw data st created Hf Ht Hc).
  cbv zeta.
  destruct (Responder.maybeSingle _) as [p|] eqn:Hs.
  - eexists _, _. split; [reflexivity|]. split.
    + cbn [Inbound.success]. split; [|reflexivity]. intros _.
      repeat split. { exists created. reflexivity. }
      exists p. apply InboundFacts.single_some. exact Hs.
    + intros [H | [H | [e H]]]; discriminate H.
  - eexists _, _. split; [reflexivity|]. split.
    + cbn [Inbound.success Inbound.failure]. split; [discriminate|].
      intros (_ & _ & _ & p & Hp). unfold Responder.maybeSingle in Hs.
      rewrite Hp in Hs. discriminate Hs.
    + intros [H | [H | [e H]]]; discriminate H.
Qed.

(** X26. When the sender is known, the profile names a user, the store
    writes both inserts of the inbound message, the subscription check
    answers and the Groq client can be made, the inbound message is recorded
    twice in a row: once by [processWebhookMessage] and once more by
    [processCustomerMessage]; at most the reply follows. *)
Theorem processWebhookMessage_saves_twice :
  forall (w : Responder.World) (insert_written : Responder.ConversationRow -> bool)
         (data : Inbound.MessageData) (st : Responder.Store)
         (created uid groq : jsstring) (has : bool) (p : Responder.StudentProfile),
    truthy_opt (Inbound.from data) = true ->
    truthy_opt (Inbound.text data) = true ->
    Inbound.created_at data = Ok created ->
    insert_written (Responder.inbound_row (Inbound.message_of data)) = true ->
    Responder.conversation_written
      w (Responder.inbound_row (Inbound.message_of data)) = true ->
    filter (ProfileFacts.has_phone (or_else (Inbound.from data) []))
           (Responder.student_profiles st) = [p] ->
    Responder.user_id p = Some uid -> truthy uid = true ->
    Responder.checkSubscriptionStatus w (or_else (Inbound.from data) []) = Ok has ->
    Responder.createGroqClient w uid = Ok groq ->
    exists rest,
      length rest <= 1
      /\ Responder.customer_conversations
           (snd (Inbound.processWebhookMessage w insert_written data st))
         = Responder.customer_conversations st
             ++ Responder.inbound_row (Inbound.message_of data)
             :: Responder.inbound_row (Inbound.message_of data)
             :: rest.
Proof.
  intros w iw data st created uid groq has p Hf Ht Hc Hw Hw' Hp Hu Htu Hsub Hg.
  rewrite (InboundFacts.processWebhookMessage_run w iw data st created Hf Ht Hc).
  cbv zeta. rewrite Hw, Hp. cbn [Responder.maybeSingle Responder.single snd].
  destruct (InboundFacts.processCustomerMessage_saves
              w (Inbound.message_of data)
              (Responder.add_conversation
                 (Responder.inbound_row (Inbound.message_of data)) st)
              p uid groq has Hsub Hp Hu Htu Hg Hw') as (rest & Hlen & E).
  exists rest. split; [exact Hlen|]. rewrite E.
  cbn [Responder.customer_conversations Responder.add_conversation].
  rewrite <- app_assoc. reflexivity.
Qed.

Module InboundExample.

Definition data : Inbound.MessageData :=
  {| Inbound.from := Some (js "+242061234567");
     Inbound.text := Some (js "Pythagore ?");
     Inbound.created_at := Ok (js "2024-01-01T00:00:00.000Z") |}.

End InboundExample.

(** X26 on a question of a known student. *)
Lemma processWebhookMessage_saves_twice_witness :
  exists rest,
    length rest <= 1
    /\ Responder.customer_conversations
         (snd (Inbound.processWebhookMessage
                 (ResponderExample.world (Some (js "a² + b² = c²")))
                 (fun _ => true) InboundExample.data ResponderExample.store))
       = Responder.customer_conversations ResponderExample.store
           ++ Responder.inbound_row (Inbound.message_of InboundExample.data)
           :: Responder.inbound_row (Inbound.message_of InboundExample.data)
           :: rest.
Proof.
  apply (processWebhookMessage_saves_twice
           (ResponderExample.world (Some (js "a² + b² = c²"))) (fun _ => true)
           InboundExample.data ResponderExample.store
           (js "2024-01-01T00:00:00.000Z") (js "u1") (js "u1") true
           {| Responder.id := js "s1";
              Responder.phone_number := js "+242061234567";
              Responder.user_id := Some (js "u1");
              Responder.level := js "3ème";
              Responder.last_active_at := None |});
    reflexivity.
Defined.

(* ===================================================================== *)
(** ** Message variables ([parseMessageVariables], whatsapp.tsx) *)
(* ===================================================================== *)

Module Variables.

(** [\{\{([^}]+)\}\}] anchored at the start of [u]: the length of the match
    and the text of the group. The group takes every code unit up to the
    first closing brace, which two closing braces must follow. *)
Definition match_variable (u : jsstring) : option (nat * jsstring) :=
  if startsWith (js "{{") u then
    let t := skipn 2 u in
    let n := run_length (fun c => negb (c =? 125)%N) t in
    match n with
    | O => None
    | S _ =>
        if startsWith (js "}}") (skipn n t)
        then Some (n + 4, firstn n t)
        else None
    end
  else None.

(** [[...message.matchAll(variableRegex)].map(match => match[1])]: the scan
    goes left to right and resumes after each match; [skip] counts the code
    units of the current match still to be passed. *)
Fixpoint matchAll_from (skip : nat) (s : jsstring) : list jsstring :=
  match s with
  | [] => []
  | _ :: t =>
      match skip with
      | S k => matchAll_from k t
      | O =>
          match match_variable s with
          | Some (n, name) => name :: matchAll_from (pred n) t
          | None => matchAll_from 0 t
          end
      end
  end.

Definition parseMessageVariables (message : jsstring) : list jsstring :=
  matchAll_from 0 message.

(** [{{name}}] *)
Definition placeholder (name : jsstring) : jsstring :=
  js "{{" ++ name ++ js "}}".

(** A text with placeholders: each part is a text followed by the
    placeholder of a name; [tail] ends the message. *)
Fixpoint template (parts : list (jsstring * jsstring)) (tail : jsstring)
  : jsstring :=
  match parts with
  | [] => tail
  | (text, name) :: rest => text ++ placeholder name ++ template rest tail
  end.

End Variables.

Module VariablesFacts.

Import Variables.

Definition not_closing (c : codeunit) : bool := negb (c =? 125)%N.
Definition not_opening (c : codeunit) : bool := negb (c =? 123)%N.

(** A name the pattern can capture. *)
Definition is_name (name : jsstring) : Prop :=
  name <> [] /\ forallb not_closing name = true.

Lemma run_length_firstn p (s : jsstring) :
  forallb p (firstn (run_length p s) s) = true.
Proof.
  induction s as [|c t IH]; [reflexivity|]. cbn [run_length].
  destruct (p c) eqn:E; [|reflexivity].
  cbn [firstn forallb]. rewrite E. exact IH.
Qed.

Lemma run_length_app p (a b : jsstring) c :
  forallb p a = true -> p c = false ->
  run_length p (a ++ c :: b) = length a.
Proof.
  intros Ha Hc. induction a as [|x a IH]; cbn [app run_length length].
  - rewrite Hc. reflexivity.
  - cbn [forallb] in Ha. apply andb_true_iff in Ha as [Hx Ha].
    rewrite Hx, (IH Ha). reflexivity.
Qed.

Lemma match_variable_inv u n name :
  match_variable u = Some (n, name) ->
  is_name name /\ n = S (S (S (S (length name))))
  /\ u = placeholder name ++ skipn n u.
Proof.
  unfold match_variable.
  destruct (startsWith (js "{{") u) eqn:Ho; [|discriminate].
  fold not_closing. cbv zeta.
  remember (skipn 2 u) as t eqn:Et.
  pose proof (run_length_firstn not_closing t) as Hall.
  remember (run_length not_closing t) as m eqn:Hn.
  destruct m as [|k]; [discriminate|].
  remember (skipn (S k) t) as t' eqn:Et'.
  destruct (startsWith (js "}}") t') eqn:Hc; [|discriminate].
  remember (firstn (S k) t) as body eqn:Eb.
  intros H. injection H as <- <-.
  assert (Hlen : length body = S k).
  { subst body. apply firstn_length_le.
    destruct (Nat.le_gt_cases (S k) (length t)) as [Hle|Hgt]; [exact Hle|].
    rewrite (skipn_all2 t) in Et' by lia. subst t'. discriminate Hc. }
  split; [split|split].
  - intros E. rewrite E in Hlen. discriminate Hlen.
  - exact Hall.
  - rewrite Hlen. lia.
  - unfold placeholder.
    apply PhoneTable.startsWith_skipn in Ho, Hc.
    change (length (js "{{")) with 2 in Ho.
    change (length (js "}}")) with 2 in Hc.
    rewrite <- Et in Ho. rewrite <- !app_assoc.
    transitivity (js "{{" ++ t); [symmetry; exact Ho|]. f_equal.
    transitivity (body ++ t');
      [subst body t'; symmetry; apply firstn_skipn|]. f_equal.
    transitivity (js "}}" ++ skipn 2 t'); [symmetry; exact Hc|]. f_equal.
    subst t' t. rewrite !skipn_skipn. f_equal. lia.
Qed.

Lemma skipn_length_app {A} (a b : list A) : skipn (length a) (a ++ b) = b.
Proof. induction a as [|x a IH]; [reflexivity | exact IH]. Qed.

Lemma firstn_length_app {A} (a b : list A) : firstn (length a) (a ++ b) = a.
Proof.
  induction a as [|x a IH]; [reflexivity|]. cbn [length app firstn].
  f_equal. exact IH.
Qed.

Lemma match_variable_placeholder name rest :
  is_name name ->
  match_variable (placeholder name ++ rest)
    = Some (S (S (S (S (length name)))), name).
Proof.
  intros [Hne Hall].
  assert (Eo : startsWith (js "{{") (placeholder name ++ rest) = true)
    by reflexivity.
  assert (Et : skipn 2 (placeholder name ++ rest)
               = name ++ 125%N :: 125%N :: rest).
  { unfold placeholder. rewrite <- !app_assoc. reflexivity. }
  assert (En : run_length not_closing (name ++ 125%N :: 125%N :: rest)
               = length name)
    by exact (run_length_app not_closing name (125%N :: rest) 125%N Hall eq_refl).
  unfold match_variable. rewrite Eo. cbv zeta. fold not_closing.
  rewrite Et, En.
  destruct (length name) as [|k] eqn:Ek.
  - destruct name; [contradiction Hne; reflexivity | discriminate Ek].
  - rewrite <- Ek. rewrite skipn_length_app, firstn_length_app.
    change (startsWith (js "}}") (125%N :: 125%N :: rest)) with true.
    cbv iota. f_equal. f_equal. lia.
Qed.

Lemma match_variable_other c t :
  not_opening c = true -> match_variable (c :: t) = None.
Proof.
  unfold not_opening, match_variable. change (js "{{") with [123; 123]%N.
  cbn [startsWith]. intros H. apply negb_true_iff in H.
  rewrite N.eqb_sym, H. reflexivity.
Qed.

Lemma matchAll_from_skip l rest :
  matchAll_from (length l) (l ++ rest) = matchAll_from 0 rest.
Proof.
  induction l as [|c l IH]; cbn [length app].
  - destruct rest; reflexivity.
  - cbn [matchAll_from]. exact IH.
Qed.

Lemma matchAll_from_text text rest :
  forallb not_opening text = true ->
  matchAll_from 0 (text ++ rest) = matchAll_from 0 rest.
Proof.
  intros H. induction text as [|c t IH]; [reflexivity|].
  cbn [forallb] in H. apply andb_true_iff in H as [Hc Ht].
  cbn [app matchAll_from]. rewrite (match_variable_other c _ Hc).
  apply IH, Ht.
Qed.

Lemma matchAll_from_placeholder name rest :
  is_name name ->
  matchAll_from 0 (placeholder name ++ rest) = name :: matchAll_from 0 rest.
Proof.
  intros Hn.
  pose proof (match_variable_placeholder name rest Hn) as Hm.
  remember (placeholder name ++ rest) as s eqn:Es.
  destruct s as [|c t].
  - unfold placeholder in Es. change (js "{{") with [123; 123]%N in Es.
    discriminate Es.
  - cbn [matchAll_from]. rewrite Hm. cbn [pred]. f_equal.
    assert (Et : t = (123%N :: name ++ js "}}") ++ rest).
    { unfold placeholder in Es. change (js "{{") with [123; 123]%N in Es.
      cbn [app] in Es. injection Es as _ ->. reflexivity. }
    rewrite Et.
    replace (S (S (S (length name)))) with (length (123%N :: name ++ js "}}")).
    + apply matchAll_from_skip.
    + cbn [length]. rewrite length_app. change (length (js "}}")) with 2. lia.
Qed.

(** Every name of the scan is captured from a placeholder of the text. *)
Lemma matchAll_from_sound name :
  forall s skip,
    In name (matchAll_from skip s) ->
    is_name name /\ exists before after, s = before ++ placeholder name ++ after.
Proof.
  induction s as [|c t IH]; intros skip Hin; [destruct Hin|].
  cbn [matchAll_from] in Hin.
  assert (Hrec : forall k, In name (matchAll_from k t) ->
                 is_name name
                 /\ exists before after,
                      c :: t = before ++ placeholder name ++ after).
  { intros k Hk. destruct (IH k Hk) as (Hn & before & after & E).
    split; [exact Hn|]. exists (c :: before), after. rewrite E. reflexivity. }
  destruct skip as [|k]; [|exact (Hrec k Hin)].
  destruct (match_variable (c :: t)) as [[n found]|] eqn:Hm;
    [|exact (Hrec 0 Hin)].
  destruct Hin as [<- | Hin]; [|exact (Hrec _ Hin)].
  destruct (match_variable_inv _ _ _ Hm) as (Hn & _ & E).
  split; [exact Hn|]. exists [], (skipn n (c :: t)). exact E.
Qed.

End VariablesFacts.

(** X27. Every name [parseMessageVariables] returns is not empty, contains no
    closing brace, and stands in the message between two opening and two
    closing braces. *)
Theorem parseMessageVariables_names :
  forall (message name : jsstring),
    In name (Variables.parseMessageVariables message) ->
    name <> []
    /\ forallb (fun c => negb (c =? 125)%N) name = true
    /\ exists before after,
         message = before ++ js "{{" ++ name ++ js "}}" ++ after.
Proof.
  intros message name Hin.
  destruct (VariablesFacts.matchAll_from_sound name message 0 Hin)
    as ((Hne & Hall) & before & after & E).
  split; [exact Hne|]. split; [exact Hall|].
  exists before, after. rewrite E. unfold Variables.placeholder.
  rewrite <- !app_assoc. reflexivity.
Qed.

(** X27 on a greeting with one variable. *)
Lemma parseMessageVariables_names_witness :
  js "nom" <> []
  /\ forallb (fun c => negb (c =? 125)%N) (js "nom") = true
  /\ exists before after,
       js "Bonjour {{nom}} !" = before ++ js "{{" ++ js "nom" ++ js "}}" ++ after.
Proof.
  apply (parseMessageVariables_names (js "Bonjour {{nom}} !") (js "nom")).
  left. reflexivity.
Defined.

(** X28. For a message made of texts without an opening brace and
    placeholders [{{name}}] of names that are not empty and hold no closing
    brace, [parseMessageVariables] returns exactly the names, in order. *)
Theorem parseMessageVariables_template :
  forall (parts : list (jsstring * jsstring)) (tail : jsstring),
    Forall (fun part =>
              forallb (fun c => negb (c =? 123)%N) (fst part) = true
              /\ snd part <> []
              /\ forallb (fun c => negb (c =? 125)%N) (snd part) = true) parts ->
    forallb (fun c => negb (c =? 123)%N) tail = true ->
    Variables.parseMessageVariables (Variables.template parts tail)
      = map snd parts.
Proof.
  intros parts tail Hparts Htail. unfold Variables.parseMessageVariables.
  induction Hparts as [|[text name] parts (Htext & Hne & Hall) _ IH].
  - cbn [Variables.template map].
    rewrite <- (app_nil_r tail).
    rewrite (VariablesFacts.matchAll_from_text tail [] Htail). reflexivity.
  - cbn [Variables.template map fst snd] in *.
    rewrite (VariablesFacts.matchAll_from_text text _ Htext).
    rewrite (VariablesFacts.matchAll_from_placeholder name _ (conj Hne Hall)).
    rewrite IH. reflexivity.
Qed.

(** X28 on a message with two variables. *)
Lemma parseMessageVariables_template_witness :
  Variables.parseMessageVariables
    (Variables.template [(js "Bonjour ", js "nom"); (js ", solde : ", js "solde")]
                        (js " FCFA"))
  = [js "nom"; js "solde"].
Proof.
  apply (parseMessageVariables_template
           [(js "Bonjour ", js "nom"); (js ", solde : ", js "solde")]
           (js " FCFA")).
  - repeat constructor; discriminate.
  - reflexivity.
Defined.
